(** * comics-paper: the comic, chapter and user back end

    A shallow embedding of the Express/Knex back end of the comic reading
    platform: the comic controller, the chapter controller and the user
    router, over a relational store modelled as lists of rows.

    Conventions of the embedding.
    - A JavaScript string is a [string]; each [ascii] stands for one code
      unit in the range 0..255.
    - A JavaScript number that is an integer is a [Z]; numbers with a
      fraction are left out, and what the platform does with integers
      beyond the safe ones is a parameter.
    - A value that may be [undefined] is an [option].
    - Asynchronous controller code runs in the monad [M]: it threads the
      store, keeps a log of the statements sent to the database, and either
      returns a value or throws. *)

From Stdlib Require Import String Ascii List ZArith Bool Lia.
From Stdlib Require Import Sorting.Sorted Sorting.Permutation.
Import ListNotations.
Local Open Scope string_scope.
Local Open Scope list_scope.

Set Implicit Arguments.

(* ===================================================================== *)
(** ** JavaScript strings *)
(* ===================================================================== *)

Module JsString.

Definition code (c : ascii) : nat := nat_of_ascii c.

Definition between (lo hi : nat) (c : ascii) : bool :=
  Nat.leb lo (code c) && Nat.leb (code c) hi.

Definition is_digit (c : ascii) : bool := between 48 57 c.
Definition is_upper_ascii (c : ascii) : bool := between 65 90 c.
Definition is_lower_ascii (c : ascii) : bool := between 97 122 c.

(** Capital letters of the 0..255 range: A-Z and the accented capitals
    192..222 without the multiplication sign 215. *)
Definition is_upper (c : ascii) : bool :=
  is_upper_ascii c || (between 192 222 c && negb (Nat.eqb (code c) 215)).

(** [String.prototype.toLowerCase] on one code unit. *)
Definition lower_char (c : ascii) : ascii :=
  if is_upper c then ascii_of_nat (code c + 32) else c.

Fixpoint toLowerCase (s : string) : string :=
  match s with
  | EmptyString => EmptyString
  | String c s' => String (lower_char c) (toLowerCase s')
  end.

(** The class [\s] of regular expressions, which is also what
    [String.prototype.trim] strips: tab, line feed, vertical tab, form
    feed, carriage return, space and the no-break space. *)
Definition is_space (c : ascii) : bool :=
  between 9 13 c || Nat.eqb (code c) 32 || Nat.eqb (code c) 160.

(** The class [\w]. *)
Definition is_word (c : ascii) : bool :=
  is_digit c || is_upper_ascii c || is_lower_ascii c || Nat.eqb (code c) 95.

Definition is_hex (c : ascii) : bool :=
  is_digit c || between 65 70 c || between 97 102 c.

Fixpoint mem (c : ascii) (s : string) : bool :=
  match s with
  | EmptyString => false
  | String d s' => Ascii.eqb c d || mem c s'
  end.

Fixpoint filter (p : ascii -> bool) (s : string) : string :=
  match s with
  | EmptyString => EmptyString
  | String c s' => if p c then String c (filter p s') else filter p s'
  end.

Fixpoint all (p : ascii -> bool) (s : string) : bool :=
  match s with
  | EmptyString => true
  | String c s' => p c && all p s'
  end.

Definition is_empty (s : string) : bool :=
  match s with EmptyString => true | String _ _ => false end.

Fixpoint trimStart (s : string) : string :=
  match s with
  | EmptyString => EmptyString
  | String c s' => if is_space c then trimStart s' else s
  end.

Fixpoint trimEnd (s : string) : string :=
  match s with
  | EmptyString => EmptyString
  | String c s' =>
      let t := trimEnd s' in
      if is_space c && is_empty t then EmptyString else String c t
  end.

Definition trim (s : string) : string := trimEnd (trimStart s).

(** [s.replace(/\s+/g, rep)]: every maximal run of blanks becomes one
    copy of [rep]. [in_run] tells that the previous code unit was a blank
    of the run being replaced. *)
Fixpoint replace_spaces (rep : string) (in_run : bool) (s : string) : string :=
  match s with
  | EmptyString => EmptyString
  | String c s' =>
      if is_space c
      then (if in_run then replace_spaces rep true s'
            else rep ++ replace_spaces rep true s')
      else String c (replace_spaces rep false s')
  end.

(** A falsy string: [!s] holds of the empty string only. *)
Definition falsy (s : string) : bool := is_empty s.

(** A falsy optional string: [undefined] or the empty string. *)
Definition falsy_opt (o : option string) : bool :=
  match o with None => true | Some s => falsy s end.

End JsString.

(* ===================================================================== *)
(** ** validator.isUUID *)
(* ===================================================================== *)

Module Validator.
Import JsString.

(** [n] hexadecimal digits at the head of [s]; the rest of [s] when they
    are there. *)
Fixpoint hex_run (n : nat) (s : string) : option string :=
  match n with
  | O => Some s
  | S n' =>
      match s with
      | String c s' => if is_hex c then hex_run n' s' else None
      | EmptyString => None
      end
  end.

Definition dash (s : string) : option string :=
  match s with
  | String c s' => if Ascii.eqb c "-"%char then Some s' else None
  | EmptyString => None
  end.

Definition and_then {A B} (o : option A) (f : A -> option B) : option B :=
  match o with Some a => f a | None => None end.

(** [validator.isUUID(str)] with no version: the pattern
    [/^[0-9A-F]{8}-[0-9A-F]{4}-[0-9A-F]{4}-[0-9A-F]{4}-[0-9A-F]{12}$/i]. *)
Definition isUUID (s : string) : bool :=
  match
    and_then (hex_run 8 s) (fun s1 =>
    and_then (dash s1) (fun s2 =>
    and_then (hex_run 4 s2) (fun s3 =>
    and_then (dash s3) (fun s4 =>
    and_then (hex_run 4 s4) (fun s5 =>
    and_then (dash s5) (fun s6 =>
    and_then (hex_run 4 s6) (fun s7 =>
    and_then (dash s7) (fun s8 =>
    hex_run 12 s8))))))))
  with
  | Some rest => is_empty rest
  | None => false
  end.

(** The guard every id-taking controller function starts with:
    [!id || !validator.isUUID(id)]. *)
Definition bad_id (id : string) : bool := falsy id || negb (isUUID id).

End Validator.

(* ===================================================================== *)
(** ** slugify *)
(* ===================================================================== *)

Module Slugify.
Import JsString.

(** The options object of [slugify(string, options)]. [remove] is the
    set of code units the [remove] regular expression matches; when it is
    absent the package falls back on its own pattern. *)
Record Options := {
  replacement : option string;
  remove : option (ascii -> bool);
  lower : bool;
  strict : bool;
  trim_opt : option bool
}.

(** The default [remove] pattern of the package: everything that is
    neither a word character, nor a blank, nor one of
    [$ * _ + ~ . ( ) ' ! - : @] and the double quote (code 34). *)
Definition default_remove (c : ascii) : bool :=
  negb (is_word c || is_space c
        || mem c "$*_+~.()'!-:@" || Nat.eqb (code c) 34).

Section WithCharMap.
(** The package's table of transliterations ([charmap.json]): [$] gives
    [dollar], [&] gives [and], and so on. *)
Variable charMap : ascii -> option string.

(** [locale[ch] || charMap[ch] || ch] with no locale: an absent or empty
    entry leaves the code unit as it is. *)
Definition lookup (ch : ascii) : string :=
  match charMap ch with
  | Some s => if is_empty s then String ch EmptyString else s
  | None => String ch EmptyString
  end.

Definition append_char (opts : Options) (ch : ascii) : string :=
  let rep := match replacement opts with Some r => r | None => "-" end in
  let a := lookup ch in
  let a := if String.eqb a rep then " " else a in
  let rm := match remove opts with Some p => p | None => default_remove end in
  filter (fun c => negb (rm c)) a.

(** The [reduce] over the code units of the input. *)
Fixpoint reduce (opts : Options) (s : string) : string :=
  match s with
  | EmptyString => EmptyString
  | String ch s' => append_char opts ch ++ reduce opts s'
  end.

Definition strict_keep (c : ascii) : bool :=
  is_upper_ascii c || is_lower_ascii c || is_digit c || is_space c.

Definition slugify (s : string) (opts : Options) : string :=
  let rep := match replacement opts with Some r => r | None => "-" end in
  let slug := reduce opts s in
  let slug := if strict opts then filter strict_keep slug else slug in
  let slug := match trim_opt opts with
              | Some false => slug
              | _ => trim slug
              end in
  let slug := replace_spaces rep false slug in
  if lower opts then toLowerCase slug else slug.

End WithCharMap.

(** The [remove] option both comic writers pass: the class of
    [* + ~ . ( ) ' ! : @] and the double quote (code 34). *)
Definition comic_remove (c : ascii) : bool :=
  mem c "*+~.()'!:@" || Nat.eqb (code c) 34.

(** What that [remove] option lets through. *)
Definition kept (c : ascii) : bool := negb (comic_remove c).

(** The options both comic writers pass: [lower] set and the [remove]
    class above. *)
Definition comic_options : Options :=
  {| replacement := None; remove := Some comic_remove; lower := true;
     strict := false; trim_opt := None |}.

(** The entries of the package's table for the code units below 128. *)
Definition charMap_ascii (c : ascii) : option string :=
  if Ascii.eqb c "$" then Some "dollar"
  else if Ascii.eqb c "%" then Some "percent"
  else if Ascii.eqb c "&" then Some "and"
  else if Ascii.eqb c "<" then Some "less"
  else if Ascii.eqb c ">" then Some "greater"
  else if Ascii.eqb c "|" then Some "or"
  else None.

End Slugify.

(* ===================================================================== *)
(** ** Rows of the store *)
(* ===================================================================== *)

(** A date is the number of milliseconds since the epoch. *)
Definition Date := Z.

Module ComicInterface.
(** A row of [Tables.Comic]. [thumbnail] is [None] when the column holds
    no resource id. *)
Record t := mk {
  id : string;
  name : string;
  description : string;
  postedBy : string;
  thumbnail : option string;
  createdAt : Date;
  updatedAt : Date;
  slug : string;
  likes : Z;
  views : Z;
  author : string;
  category : string
}.
End ComicInterface.

Module ResourceInterface.
(** A row of [Tables.Resource], with the columns the comic controller
    reads. *)
Record t := mk { id : string; fileName : string }.
End ResourceInterface.

Module ComicTagInterface.
(** A row of [Tables.ComicTag]. *)
Record t := mk { id : string; keyword : string }.
End ComicTagInterface.

Module ComicBookTagInterface.
(** A row of [Tables.ComicBookTag], the join of comics and tags. *)
Record t := mk { comicId : string; tagId : string }.
End ComicBookTagInterface.

Module ComicChapterInterface.
(** A row of [Tables.ComicChapter]. *)
Record t := mk {
  id : string;
  name : string;
  comicId : string;
  postedBy : string;
  viewType : Z;
  createdAt : Date;
  updatedAt : Date;
  length : Z
}.
End ComicChapterInterface.

Module UserInterface.
(** A row of [Tables.User]. *)
Record t := mk {
  id : string;
  username : string;
  password : string;
  email : string;
  nickname : string;
  introduction : string
}.
End UserInterface.

(** The tables. Rows are kept in insertion order. *)
Record Database := {
  comics : list ComicInterface.t;
  resources : list ResourceInterface.t;
  comic_tags : list ComicTagInterface.t;
  comic_book_tags : list ComicBookTagInterface.t;
  comic_chapters : list ComicChapterInterface.t;
  users : list UserInterface.t
}.

Inductive Table :=
| TComic | TResource | TComicTag | TComicBookTag | TComicChapter | TUser.

(** What is sent to the database. *)
Inductive Statement :=
| Begin
| Commit
| Rollback
| Select (t : Table)
| Insert (t : Table)
| Update (t : Table)
| Delete (t : Table).

(* ===================================================================== *)
(** ** The monad of controller code *)
(* ===================================================================== *)

(** What a controller or a handler can throw. [DbError n] is the error the
    driver raises for the statement of index [n] in the log. *)
Inductive Error :=
| JsError (message : string)
| TypeError
| DbError (n : nat).

Inductive Result (A : Type) :=
| Ok (a : A)
| Throw (e : Error).
Arguments Ok {A} a.
Arguments Throw {A} e.

(** The world a request runs in.
    - [db]: the committed tables;
    - [trx]: the tables as the open transaction sees them, if one is open;
    - [log]: the statements sent so far, oldest first;
    - [fault]: which statements the database fails, by index in the log
      (constraint violations, lost connections: the schema of these tables
      decides some of them, the environment the others);
    - [choice]: for a statement that asks for the first row of a query
      without ORDER BY, which of the rows that match the engine hands out,
      by index of the statement in the log;
    - [uuids], [uuid_next]: the values [uuid()] hands out;
    - [clock]: what [new Date()] reads. *)
Record World := {
  db : Database;
  trx : option Database;
  log : list Statement;
  fault : nat -> bool;
  choice : nat -> nat;
  uuids : nat -> string;
  uuid_next : nat;
  clock : Date
}.

Definition M (A : Type) : Type := World -> World * Result A.

Definition ret {A} (a : A) : M A := fun w => (w, Ok a).

Definition throw {A} (e : Error) : M A := fun w => (w, Throw e).

Definition bind {A B} (m : M A) (k : A -> M B) : M B :=
  fun w =>
    match m w with
    | (w1, Ok a) => k a w1
    | (w1, Throw e) => (w1, Throw e)
    end.

(** [try { body } catch (e) { handler e }]. *)
Definition try_catch {A} (body : M A) (handler : Error -> M A) : M A :=
  fun w =>
    match body w with
    | (w1, Ok a) => (w1, Ok a)
    | (w1, Throw e) => handler e w1
    end.

Declare Scope js_scope.
Delimit Scope js_scope with js.
Notation "x <- m ;; k" := (bind m (fun x => k))
  (at level 61, m at next level, right associativity) : js_scope.
Notation "m ;;; k" := (bind m (fun _ => k))
  (at level 61, right associativity) : js_scope.
Local Open Scope js_scope.

Definition with_db (w : World) (d : Database) : World :=
  {| db := d; trx := trx w; log := log w; fault := fault w;
     choice := choice w;
     uuids := uuids w; uuid_next := uuid_next w; clock := clock w |}.

Definition with_trx (w : World) (t : option Database) : World :=
  {| db := db w; trx := t; log := log w; fault := fault w;
     choice := choice w;
     uuids := uuids w; uuid_next := uuid_next w; clock := clock w |}.

Definition with_log (w : World) (l : list Statement) : World :=
  {| db := db w; trx := trx w; log := l; fault := fault w;
     choice := choice w;
     uuids := uuids w; uuid_next := uuid_next w; clock := clock w |}.

(** [uuid()]. *)
Definition uuid : M string :=
  fun w =>
    ({| db := db w; trx := trx w; log := log w; fault := fault w;
        choice := choice w;
        uuids := uuids w; uuid_next := S (uuid_next w); clock := clock w |},
     Ok (uuids w (uuid_next w))).

(** [new Date()]. *)
Definition new_Date : M Date := fun w => (w, Ok (clock w)).

(** One statement on the connection pool, outside any transaction: it is
    logged; the database fails it or runs it on the committed tables. *)
Definition query {A} (s : Statement) (run : Database -> Database * A) : M A :=
  fun w =>
    let n := List.length (log w) in
    let w1 := with_log w (log w ++ [s]) in
    if fault w n then (w1, Throw (DbError n))
    else let (d, a) := run (db w) in (with_db w1 d, Ok a).

(** [DatabaseBuilder.transaction()]: opens a transaction, which starts
    from the committed tables. *)
Definition transaction : M unit :=
  fun w =>
    let n := List.length (log w) in
    let w1 := with_log w (log w ++ [Begin]) in
    if fault w n then (w1, Throw (DbError n))
    else (with_trx w1 (Some (db w)), Ok tt).

(** One statement on the transaction: it sees and changes the tables of
    the transaction only. A transaction that is over refuses it. *)
Definition trx_query {A} (s : Statement) (run : Database -> Database * A)
  : M A :=
  fun w =>
    let n := List.length (log w) in
    let w1 := with_log w (log w ++ [s]) in
    if fault w n then (w1, Throw (DbError n))
    else match trx w with
         | Some t => let (d, a) := run t in (with_trx w1 (Some d), Ok a)
         | None => (w1, Throw (DbError n))
         end.

(** [transaction.commit()]: the tables of the transaction become the
    committed ones. *)
Definition commit : M unit :=
  fun w =>
    let n := List.length (log w) in
    let w1 := with_log w (log w ++ [Commit]) in
    if fault w n then (w1, Throw (DbError n))
    else match trx w with
         | Some t => (with_trx (with_db w1 t) None, Ok tt)
         | None => (w1, Throw (DbError n))
         end.

(** [transaction.rollback()]: the tables of the transaction are dropped. *)
Definition rollback : M unit :=
  fun w =>
    let n := List.length (log w) in
    let w1 := with_log w (log w ++ [Rollback]) in
    if fault w n then (w1, Throw (DbError n))
    else (with_trx w1 None, Ok tt).

(** [rows.first()]. *)
Definition first {A} (rows : list A) : option A := List.hd_error rows.

(** The choice of the engine for the statement about to be sent. *)
Definition engine_choice : M nat :=
  fun w => (w, Ok (choice w (List.length (log w)))).

(** [rows.first()] on a query without ORDER BY: the rows that match come
    in the order the engine chooses, so the first of them is any of them,
    the one of index [k], counted round, here. *)
Definition first_unordered {A} (k : nat) (rows : list A) : option A :=
  List.nth_error rows (k mod List.length rows).

(** Reading a property of a value that may be [undefined]. *)
Definition deref {A} (o : option A) : M A :=
  match o with
  | Some a => ret a
  | None => throw TypeError
  end.

(* ===================================================================== *)
(** ** Table updates *)
(* ===================================================================== *)

Definition set_comics (d : Database) (l : list ComicInterface.t) : Database :=
  {| comics := l; resources := resources d; comic_tags := comic_tags d;
     comic_book_tags := comic_book_tags d;
     comic_chapters := comic_chapters d; users := users d |}.

Definition set_comic_book_tags (d : Database)
  (l : list ComicBookTagInterface.t) : Database :=
  {| comics := comics d; resources := resources d; comic_tags := comic_tags d;
     comic_book_tags := l;
     comic_chapters := comic_chapters d; users := users d |}.

Definition set_comic_chapters (d : Database)
  (l : list ComicChapterInterface.t) : Database :=
  {| comics := comics d; resources := resources d; comic_tags := comic_tags d;
     comic_book_tags := comic_book_tags d;
     comic_chapters := l; users := users d |}.

Definition set_users (d : Database) (l : list UserInterface.t) : Database :=
  {| comics := comics d; resources := resources d; comic_tags := comic_tags d;
     comic_book_tags := comic_book_tags d;
     comic_chapters := comic_chapters d; users := l |}.

(** The error every id guard throws. *)
Definition id_is_required : Error := JsError "id is required".

(* ===================================================================== *)
(** ** ComicController *)
(* ===================================================================== *)

Module ComicController.

(** An entry of the tag list [getComic] returns: the columns
    [{ id: t1.tagId, keyword: t2.keyword }] of the join. *)
Record Tag := mkTag { id : string; keyword : string }.

(** What [getComic] returns: the comic row, spread, with the file name of
    its thumbnail and its tags. *)
Record ComicWithTags := {
  comic : ComicInterface.t;
  thumbnailImg : string;
  tags : list Tag
}.

(** The argument of [searchComic]. *)
Record SearchQuery := { slug : option string; search_id : option string }.

(** [tags.map(f)]: [tags] is untyped, and [undefined] has no [map]. *)
Definition tags_map {B} (f : string -> B) (tags : option (list string))
  : M (list B) :=
  match tags with
  | Some l => ret (List.map f l)
  | None => throw TypeError
  end.

Definition insert_comic (c : ComicInterface.t) (d : Database)
  : Database * unit :=
  (set_comics d (comics d ++ [c]), tt).

Definition insert_comic_book_tags (rows : list ComicBookTagInterface.t)
  (d : Database) : Database * unit :=
  (set_comic_book_tags d (comic_book_tags d ++ rows), tt).

(** [transaction(Tables.ComicBookTag).insert(rows)] on an array of rows:
    knex has no statement for an empty array and refuses to run the query,
    so nothing is sent. *)
Definition trx_insert_comic_book_tags (rows : list ComicBookTagInterface.t)
  : M unit :=
  match rows with
  | [] => throw (JsError "The query is empty")
  | _ :: _ => trx_query (Insert TComicBookTag) (insert_comic_book_tags rows)
  end.

Definition where_id (id : string) (d : Database) : list ComicInterface.t :=
  List.filter (fun c => String.eqb (ComicInterface.id c) id) (comics d).

(** [DatabaseBuilder(Tables.Comic).where({ id }).first()]. *)
Definition select_comic (id : string) (d : Database)
  : Database * option ComicInterface.t :=
  (d, first (where_id id d)).

(** [DatabaseBuilder(Tables.Resource).where({ id: key }).first()]; no row
    has an absent id. *)
Definition select_resource (key : option string) (d : Database)
  : Database * option ResourceInterface.t :=
  (d, match key with
      | Some k =>
          first (List.filter
                   (fun r => String.eqb (ResourceInterface.id r) k)
                   (resources d))
      | None => None
      end).

(** The rows of [Tables.ComicTag] a tag id names. *)
Definition tag_rows (tagId : string) (d : Database)
  : list ComicTagInterface.t :=
  List.filter (fun t2 => String.eqb (ComicTagInterface.id t2) tagId)
    (comic_tags d).

(** The join of [getComic]: the rows of [Tables.ComicBookTag] of the comic,
    each paired with the rows of [Tables.ComicTag] of its tag. *)
Definition select_tags (id : string) (d : Database) : Database * list Tag :=
  (d, List.flat_map
        (fun t1 =>
           if String.eqb (ComicBookTagInterface.comicId t1) id
           then List.map
                  (fun t2 => mkTag (ComicBookTagInterface.tagId t1)
                                   (ComicTagInterface.keyword t2))
                  (tag_rows (ComicBookTagInterface.tagId t1) d)
           else [])
        (comic_book_tags d)).

(** The [update] of [updateComic]; a column whose new value is [undefined]
    is left as it is. *)
Definition update_comic (id name description : string) (updatedAt : Date)
  (slug author category : string) (thumbnail : option string)
  (d : Database) : Database * unit :=
  (set_comics d
     (List.map
        (fun c =>
           if String.eqb (ComicInterface.id c) id
           then {| ComicInterface.id := ComicInterface.id c;
                   ComicInterface.name := name;
                   ComicInterface.description := description;
                   ComicInterface.postedBy := ComicInterface.postedBy c;
                   ComicInterface.thumbnail :=
                     match thumbnail with
                     | Some t => Some t
                     | None => ComicInterface.thumbnail c
                     end;
                   ComicInterface.createdAt := ComicInterface.createdAt c;
                   ComicInterface.updatedAt := updatedAt;
                   ComicInterface.slug := slug;
                   ComicInterface.likes := ComicInterface.likes c;
                   ComicInterface.views := ComicInterface.views c;
                   ComicInterface.author := author;
                   ComicInterface.category := category |}
           else c)
        (comics d)), tt).

Definition delete_comic (id : string) (d : Database) : Database * unit :=
  (set_comics d
     (List.filter (fun c => negb (String.eqb (ComicInterface.id c) id))
        (comics d)), tt).

(** [update({ views: raw("views + 1") })]. *)
Definition increment_views (id : string) (d : Database) : Database * unit :=
  (set_comics d
     (List.map
        (fun c =>
           if String.eqb (ComicInterface.id c) id
           then {| ComicInterface.id := ComicInterface.id c;
                   ComicInterface.name := ComicInterface.name c;
                   ComicInterface.description := ComicInterface.description c;
                   ComicInterface.postedBy := ComicInterface.postedBy c;
                   ComicInterface.thumbnail := ComicInterface.thumbnail c;
                   ComicInterface.createdAt := ComicInterface.createdAt c;
                   ComicInterface.updatedAt := ComicInterface.updatedAt c;
                   ComicInterface.slug := ComicInterface.slug c;
                   ComicInterface.likes := ComicInterface.likes c;
                   ComicInterface.views := (ComicInterface.views c + 1)%Z;
                   ComicInterface.author := ComicInterface.author c;
                   ComicInterface.category := ComicInterface.category c |}
           else c)
        (comics d)), tt).

(** The rows [where({ slug }).orWhere({ id })] matches. *)
Definition where_slug_or_id (slug id : string) (d : Database)
  : list ComicInterface.t :=
  List.filter
    (fun c => String.eqb (ComicInterface.slug c) slug
              || String.eqb (ComicInterface.id c) id)
    (comics d).

(** [where({ slug }).orWhere({ id }).first()]: the query has no ORDER BY,
    and [k] is the choice of the engine among the rows that match. *)
Definition select_slug_or_id (k : nat) (slug id : string) (d : Database)
  : Database * option ComicInterface.t :=
  (d, first_unordered k (where_slug_or_id slug id d)).

Section WithCharMap.
Variable charMap : ascii -> option string.

Definition createComic (name description postedBy author category : string)
  (tags : option (list string)) (thumbnail : option string)
  : M ComicInterface.t :=
  id <- uuid ;;
  createdAt <- new_Date ;;
  updatedAt <- new_Date ;;
  let comic :=
    {| ComicInterface.id := id;
       ComicInterface.name := name;
       ComicInterface.description := description;
       ComicInterface.postedBy := postedBy;
       ComicInterface.thumbnail := thumbnail;
       ComicInterface.createdAt := createdAt;
       ComicInterface.updatedAt := updatedAt;
       ComicInterface.slug :=
         Slugify.slugify charMap name Slugify.comic_options;
       ComicInterface.likes := 0%Z;
       ComicInterface.views := 0%Z;
       ComicInterface.author := author;
       ComicInterface.category := category |} in
  transaction ;;;
  try_catch
    (trx_query (Insert TComic) (insert_comic comic) ;;;
     insertTags <- tags_map (fun _tag => ComicBookTagInterface.mk id _tag)
                     tags ;;
     trx_insert_comic_book_tags insertTags ;;;
     commit)
    (fun e => rollback ;;; throw e) ;;;
  ret comic.

Definition updateComic (id name description author category : string)
  (tags : option (list string)) (thumbnail : option string) : M unit :=
  if Validator.bad_id id then throw id_is_required
  else
    transaction ;;;
    try_catch
      (updatedAt <- new_Date ;;
       trx_query (Update TComic)
         (update_comic id name description updatedAt
            (Slugify.slugify charMap name Slugify.comic_options)
            author category thumbnail) ;;;
       insertTags <- tags_map (fun _tag => ComicBookTagInterface.mk id _tag)
                       tags ;;
       trx_insert_comic_book_tags insertTags ;;;
       commit)
      (fun e => rollback ;;; throw e).

End WithCharMap.

Definition getComic (id : string) : M ComicWithTags :=
  if Validator.bad_id id then throw id_is_required
  else
    comic <- query (Select TComic) (select_comic id) ;;
    row <- deref comic ;;
    thumbnailInfo <- query (Select TResource)
                       (select_resource (ComicInterface.thumbnail row)) ;;
    tags <- query (Select TComicBookTag) (select_tags id) ;;
    info <- deref thumbnailInfo ;;
    ret {| comic := row;
           thumbnailImg := ResourceInterface.fileName info;
           tags := tags |}.

Definition deleteComic (id : string) : M unit :=
  if Validator.bad_id id then throw id_is_required
  else query (Delete TComic) (delete_comic id).

Definition updateViewComic (id : string) : M unit :=
  if Validator.bad_id id then throw id_is_required
  else query (Update TComic) (increment_views id).

Definition hasComic (id : string) : M bool :=
  if Validator.bad_id id then throw id_is_required
  else
    comic <- query (Select TComic) (select_comic id) ;;
    ret (match comic with Some _ => true | None => false end).

Definition searchComic (q : SearchQuery) : M (option ComicInterface.t) :=
  let slug := match slug q with Some s => s | None => "" end in
  let id := match search_id q with Some i => i | None => "" end in
  k <- engine_choice ;;
  query (Select TComic) (select_slug_or_id k slug id).

(** A row of what [getAllComics] returns: the columns of the comic [t1],
    the id and the file name of the resource [t2] it is joined with, and
    the tag ids of the comic in one string. *)
Record ComicListing := {
  listed : ComicInterface.t;
  listed_thumbnail : string;
  listed_thumbnailImg : string;
  listed_tags : option string
}.

(** [GROUP_CONCAT(value SEPARATOR ',')]: [NULL] over no row; the result is
    cut at the length the server allows. *)
Definition group_concat (max_len : nat) (values : list string)
  : option string :=
  match values with
  | [] => None
  | _ => Some (String.substring 0 max_len (String.concat "," values))
  end.

(** The tag ids of the join rows of a comic, in the order of the rows. *)
Definition tag_ids (id : string) (d : Database) : list string :=
  List.map ComicBookTagInterface.tagId
    (List.filter
       (fun t3 => String.eqb (ComicBookTagInterface.comicId t3) id)
       (comic_book_tags d)).

(** The query of [getAllComics]: the comics joined with the resources on
    [t1.thumbnail = t2.id]. *)
Definition select_all_comics (max_len : nat) (d : Database)
  : Database * list ComicListing :=
  (d, List.flat_map
        (fun t1 =>
           match ComicInterface.thumbnail t1 with
           | Some k =>
               List.map
                 (fun t2 =>
                    {| listed := t1;
                       listed_thumbnail := ResourceInterface.id t2;
                       listed_thumbnailImg := ResourceInterface.fileName t2;
                       listed_tags :=
                         group_concat max_len
                           (tag_ids (ComicInterface.id t1) d) |})
                 (List.filter
                    (fun t2 => String.eqb (ResourceInterface.id t2) k)
                    (resources d))
           | None => []
           end)
        (comics d)).

Section WithServer.
(** The server variable [group_concat_max_len]. *)
Variable group_concat_max_len : nat.

Definition getAllComics : M (list ComicListing) :=
  query (Select TComic) (select_all_comics group_concat_max_len).

End WithServer.

End ComicController.

(* ===================================================================== *)
(** ** ComicChapterController *)
(* ===================================================================== *)

Module ComicChapterController.

Inductive Order := asc | desc.

(** The optional second argument of [getChaptersFromComic]. *)
Record Filter := {
  limit : option Z;
  page : option Z;
  sortedBy : option string;
  order : option Order
}.

(** The query [getChaptersFromComic] builds. *)
Record ChapterQuery := {
  q_comicId : string;
  q_limit : Z;
  q_offset : Z;
  q_column : string;
  q_order : Order
}.

(** [filter?.field]. *)
Definition field {A} (filter : option Filter) (f : Filter -> option A)
  : option A :=
  match filter with Some x => f x | None => None end.

(** The numbers of a filter are integers here: [z] stands for the number
    of that value. JavaScript holds the integers up to [MAX_SAFE_INTEGER]
    in size exactly: their products within that range are exact, and they
    print as their decimal digits. Beyond, a product is rounded, and a
    number prints rounded to its shortest digits, in exponent notation from
    10^21 on. What the platform gives there is a parameter:
    - [rounded_product x y]: [x * y] when the exact product is out of
      range;
    - [parsed_print z]: [parseInt(String(z), 10)] when [z] is out of
      range. *)
Record Numbers := {
  rounded_product : Z -> Z -> Z;
  parsed_print : Z -> Z
}.

Definition MAX_SAFE_INTEGER : Z := 9007199254740991.

Definition is_safe (z : Z) : bool := Z.leb (Z.abs z) MAX_SAFE_INTEGER.

(** [n || d] on a number that may be [undefined]: zero is falsy too. *)
Definition number_or (n : option Z) (d : Z) : Z :=
  match n with
  | Some z => if Z.eqb z 0 then d else z
  | None => d
  end.

Section WithNumbers.
Variable numbers : Numbers.

(** [x * y]. *)
Definition multiply (x y : Z) : Z :=
  if is_safe (x * y) then (x * y)%Z else rounded_product numbers x y.

(** [a * b] on numbers that may be [undefined]: the product is [NaN], here
    [None], as soon as one of them is. *)
Definition times (a b : option Z) : option Z :=
  match a, b with
  | Some x, Some y => Some (multiply x y)
  | _, _ => None
  end.

(** [parseInt(value, 10)] on a number, which knex's [limit] and [offset]
    apply to their argument: the number is printed, and the digits before
    a point or an exponent are read back. *)
Definition parseInt (z : Z) : Z :=
  if is_safe z then z else parsed_print numbers z.

End WithNumbers.

(** [s || d] on a string that may be [undefined]. *)
Definition string_or (s : option string) (d : string) : string :=
  match s with
  | Some x => if JsString.falsy x then d else x
  | None => d
  end.

Definition order_or (o : option Order) (d : Order) : Order :=
  match o with Some x => x | None => d end.

(** [.where({ comicId }).limit(filter?.limit || 3)
     .offset(filter?.page * filter?.limit || 0)
     .orderBy(filter?.sortedBy || 'createdAt', filter?.order || 'asc')]:
    what knex keeps of each argument. *)
Definition build_query (numbers : Numbers) (comicId : string)
  (filter : option Filter) : ChapterQuery :=
  {| q_comicId := comicId;
     q_limit := parseInt numbers (number_or (field filter limit) 3);
     q_offset :=
       parseInt numbers
         (number_or (times numbers (field filter page) (field filter limit))
            0);
     q_column := string_or (field filter sortedBy) "createdAt";
     q_order := order_or (field filter order) asc |}.

(** The order a column of [Tables.ComicChapter] sorts by, smallest first;
    [None] for a name that is no column. Strings compare code unit by code
    unit. *)
Definition column_leb (column : string)
  : option (ComicChapterInterface.t -> ComicChapterInterface.t -> bool) :=
  let by_Z (f : ComicChapterInterface.t -> Z) :=
    Some (fun a b => Z.leb (f a) (f b)) in
  let by_string (f : ComicChapterInterface.t -> string) :=
    Some (fun a b => String.leb (f a) (f b)) in
  if String.eqb column "createdAt" then by_Z ComicChapterInterface.createdAt
  else if String.eqb column "updatedAt"
       then by_Z ComicChapterInterface.updatedAt
  else if String.eqb column "length" then by_Z ComicChapterInterface.length
  else if String.eqb column "viewType"
       then by_Z ComicChapterInterface.viewType
  else if String.eqb column "id" then by_string ComicChapterInterface.id
  else if String.eqb column "name" then by_string ComicChapterInterface.name
  else if String.eqb column "comicId"
       then by_string ComicChapterInterface.comicId
  else if String.eqb column "postedBy"
       then by_string ComicChapterInterface.postedBy
  else None.

Section Sorting.
Variable A : Type.
Variable leb : A -> A -> bool.

Fixpoint insert_sorted (x : A) (l : list A) : list A :=
  match l with
  | [] => [x]
  | y :: l' => if leb x y then x :: l else y :: insert_sorted x l'
  end.

(** [ORDER BY]: a stable sort, smallest first. *)
Fixpoint order_by (l : list A) : list A :=
  match l with
  | [] => []
  | x :: l' => insert_sorted x (order_by l')
  end.
End Sorting.

Definition directed (o : Order)
  (leb : ComicChapterInterface.t -> ComicChapterInterface.t -> bool)
  : ComicChapterInterface.t -> ComicChapterInterface.t -> bool :=
  match o with
  | asc => leb
  | desc => fun a b => leb b a
  end.

(** [WHERE comicId = ? ORDER BY column direction LIMIT limit OFFSET offset]
    on the rows of [Tables.ComicChapter]. *)
Definition select_chapters (q : ChapterQuery)
  (leb : ComicChapterInterface.t -> ComicChapterInterface.t -> bool)
  (d : Database) : Database * list ComicChapterInterface.t :=
  (d, List.firstn (Z.to_nat (q_limit q))
        (List.skipn (Z.to_nat (q_offset q))
           (order_by (directed (q_order q) leb)
              (List.filter
                 (fun c => String.eqb (ComicChapterInterface.comicId c)
                             (q_comicId q))
                 (comic_chapters d))))).

(** A statement the database refuses whatever the tables hold. *)
Definition refused {A} (s : Statement) : M A :=
  fun w => (with_log w (log w ++ [s]), Throw (DbError (List.length (log w)))).

(** Running the query. knex's [offset] throws on a negative number while
    the query is built: nothing is sent. A negative limit, or a column
    that does not exist, is an error of the statement. *)
Definition run_query (q : ChapterQuery) : M (list ComicChapterInterface.t) :=
  if Z.ltb (q_offset q) 0
  then throw (JsError "A non-negative integer must be provided to offset.")
  else
    match column_leb (q_column q) with
    | Some leb =>
        if Z.ltb (q_limit q) 0
        then refused (Select TComicChapter)
        else query (Select TComicChapter) (select_chapters q leb)
    | None => refused (Select TComicChapter)
    end.

Definition insert_chapter (c : ComicChapterInterface.t) (d : Database)
  : Database * unit :=
  (set_comic_chapters d (comic_chapters d ++ [c]), tt).

Definition select_chapter (id : string) (d : Database)
  : Database * option ComicChapterInterface.t :=
  (d, first (List.filter
               (fun c => String.eqb (ComicChapterInterface.id c) id)
               (comic_chapters d))).

Definition update_length (chapterId : string) (length : Z) (d : Database)
  : Database * unit :=
  (set_comic_chapters d
     (List.map
        (fun c =>
           if String.eqb (ComicChapterInterface.id c) chapterId
           then {| ComicChapterInterface.id := ComicChapterInterface.id c;
                   ComicChapterInterface.name := ComicChapterInterface.name c;
                   ComicChapterInterface.comicId :=
                     ComicChapterInterface.comicId c;
                   ComicChapterInterface.postedBy :=
                     ComicChapterInterface.postedBy c;
                   ComicChapterInterface.viewType :=
                     ComicChapterInterface.viewType c;
                   ComicChapterInterface.createdAt :=
                     ComicChapterInterface.createdAt c;
                   ComicChapterInterface.updatedAt :=
                     ComicChapterInterface.updatedAt c;
                   ComicChapterInterface.length := length |}
           else c)
        (comic_chapters d)), tt).

Definition createChapter (name comicId postedBy : string) (viewType : Z)
  : M ComicChapterInterface.t :=
  if JsString.falsy name || JsString.falsy comicId || JsString.falsy postedBy
  then throw (JsError "Missing parameters")
  else if negb (Validator.isUUID comicId)
  then throw (JsError "Comic id must be a uuid")
  else if negb (Validator.isUUID postedBy)
  then throw (JsError "Posted by must be a uuid")
  else
    id <- uuid ;;
    createdAt <- new_Date ;;
    updatedAt <- new_Date ;;
    let chapter :=
      {| ComicChapterInterface.id := id;
         ComicChapterInterface.name := name;
         ComicChapterInterface.comicId := comicId;
         ComicChapterInterface.postedBy := postedBy;
         ComicChapterInterface.viewType := viewType;
         ComicChapterInterface.createdAt := createdAt;
         ComicChapterInterface.updatedAt := updatedAt;
         ComicChapterInterface.length := 0%Z |} in
    query (Insert TComicChapter) (insert_chapter chapter) ;;;
    ret chapter.

Definition getChaptersFromComic (numbers : Numbers) (comicId : string)
  (filter : option Filter) : M (list ComicChapterInterface.t) :=
  if Validator.bad_id comicId then throw id_is_required
  else run_query (build_query numbers comicId filter).

Definition getChapter (id : string) : M (option ComicChapterInterface.t) :=
  if Validator.bad_id id then throw id_is_required
  else query (Select TComicChapter) (select_chapter id).

Definition updateChapterLength (chapterId : string) (length : Z) : M unit :=
  if Validator.bad_id chapterId then throw id_is_required
  else query (Update TComicChapter) (update_length chapterId length).

End ComicChapterController.

(* ===================================================================== *)
(** ** Users: permissions, the user controller and the router *)
(* ===================================================================== *)

Module Locale.
(** Modelled from the spec: the table [Locale.HttpResponseMessage] is not
    among the sources. Each entry the router names is one constructor; the
    spec quotes [UserAlreadyExists], [UserNotFound] and [IncorrectPassword]
    as three messages of their own (user already exists, user not found,
    incorrect password). *)
Inductive HttpResponseMessage :=
| MissingRequiredFields
| InvalidNickname
| InvalidEmail
| InvalidIntroduction
| UserAlreadyExists
| UserNotFound
| IncorrectPassword
| NoTokenProvided
| Unauthorized.
End Locale.

Module PermissionInterface.
(** Modelled from the spec: [PermissionEnum] is not among the sources. The
    router names one flag, [USER_UPDATE_PROFILE]; the others are a numbered
    family. *)
Inductive PermissionEnum :=
| USER_UPDATE_PROFILE
| OTHER_PERMISSION (n : nat).

Definition eqb (a b : PermissionEnum) : bool :=
  match a, b with
  | USER_UPDATE_PROFILE, USER_UPDATE_PROFILE => true
  | OTHER_PERMISSION n, OTHER_PERMISSION m => Nat.eqb n m
  | _, _ => false
  end.
End PermissionInterface.

Module User.
Import PermissionInterface.

(** A permission group with the permissions it grants. *)
Record PermissionGroup := {
  group_name : string;
  group_permissions : list PermissionEnum
}.

(** Modelled from the spec: the class [User] is not among the sources. A
    user object carries the public columns of its row and belongs to one
    permission group; its permission query resolves that group to the
    permissions of the group. *)
Record t := mk {
  id : string;
  username : string;
  email : string;
  nickname : string;
  permissionGroup : PermissionGroup
}.

Definition getPermissions (u : t) : list PermissionEnum :=
  group_permissions (permissionGroup u).

(** Modelled from the spec: [hasPermission], which the router uses as a
    boolean: whether the permission set of the user's group holds the
    flag. *)
Definition hasPermission (u : t) (p : PermissionEnum) : bool :=
  List.existsb (PermissionInterface.eqb p) (getPermissions u).
End User.

Module UserController.

Definition where_username (username : string) (d : Database)
  : list UserInterface.t :=
  List.filter (fun u => String.eqb (UserInterface.username u) username)
    (users d).

Definition select_username (username : string) (d : Database)
  : Database * option UserInterface.t :=
  (d, first (where_username username d)).

Definition insert_user (u : UserInterface.t) (d : Database)
  : Database * unit :=
  (set_users d (users d ++ [u]), tt).

(** A column whose new value is [undefined] is left as it is. *)
Definition update_profile (id : string) (nickname introduction : option string)
  (d : Database) : Database * unit :=
  (set_users d
     (List.map
        (fun u =>
           if String.eqb (UserInterface.id u) id
           then {| UserInterface.id := UserInterface.id u;
                   UserInterface.username := UserInterface.username u;
                   UserInterface.password := UserInterface.password u;
                   UserInterface.email := UserInterface.email u;
                   UserInterface.nickname :=
                     match nickname with
                     | Some n => n
                     | None => UserInterface.nickname u
                     end;
                   UserInterface.introduction :=
                     match introduction with
                     | Some i => i
                     | None => UserInterface.introduction u
                     end |}
           else u)
        (users d)), tt).

(** Modelled from the spec: [UserController.getUserFromUsername] is not
    among the sources; signin looks the user up by username. *)
Definition getUserFromUsername (username : string)
  : M (option UserInterface.t) :=
  query (Select TUser) (select_username username).

(** Modelled from the spec: [UserController.hasUserByUsername] is not among
    the sources; whether a row of the users table has the username. *)
Definition hasUserByUsername (username : string) : M bool :=
  user <- getUserFromUsername username ;;
  ret (match user with Some _ => true | None => false end).

(** Modelled from the spec: [UserController.createUser] is not among the
    sources; it stores the row with a hashed password and returns it. *)
Definition createUser (hashSync : string -> string)
  (username password email nickname introduction : string)
  : M UserInterface.t :=
  id <- uuid ;;
  let user :=
    {| UserInterface.id := id;
       UserInterface.username := username;
       UserInterface.password := hashSync password;
       UserInterface.email := email;
       UserInterface.nickname := nickname;
       UserInterface.introduction := introduction |} in
  query (Insert TUser) (insert_user user) ;;;
  ret user.

(** Modelled from the spec: [UserController.updateUserProfile] is not among
    the sources; it persists the nickname and the introduction of the
    user's row. *)
Definition updateUserProfile (id : string)
  (nickname introduction : option string) : M unit :=
  query (Update TUser) (update_profile id nickname introduction).

End UserController.

Module UserRouter.
Import Locale PermissionInterface.

(** [new MiddlewareError(message, status)]; the message is an entry of the
    locale table or a literal. *)
Inductive Message :=
| Localized (m : HttpResponseMessage)
| Literal (s : string).

Record MiddlewareError := { message : Message; status : Z }.

(** The token the signin route signs: [{ id, generatedAt }]. *)
Record Token := { token_id : string; generatedAt : Date }.

(** The user [signup] answers with: the created row without its
    password. *)
Record CreatedUser := {
  created_id : string;
  created_username : string;
  created_email : string;
  created_nickname : string;
  created_introduction : string
}.

Inductive Body :=
| UserBody (u : CreatedUser)
| TokenBody (t : Token).

(** How a handler answers: [next(error)], [res.status(s).json(body)] or
    [res.status(s).end()]. *)
Inductive Response :=
| next (e : MiddlewareError)
| json (status : Z) (body : Body)
| end_ (status : Z).

(** The fields the routes read from [req.body]. *)
Record RequestBody := {
  username : option string;
  password : option string;
  email : option string;
  nickname : option string;
  introduction : option string
}.

(** A request after the [getAuth] middleware. *)
Record Request := {
  TokenRequest : option Token;
  UserRequest : option User.t;
  body : RequestBody
}.

Definition next_error (m : HttpResponseMessage) (s : Z) : M Response :=
  ret (next {| message := Localized m; status := s |}).

(** [o || ""]. *)
Definition or_empty (o : option string) : string :=
  match o with Some s => s | None => "" end.

Section WithLibraries.
(** The validators of [ValidatorUtils] and of the [validator] package, and
    the two functions of [bcryptjs]. *)
Variable isValidNickname : string -> bool.
Variable isValidIntroduction : option string -> bool.
Variable isEmail : string -> bool.
Variable hashSync : string -> string.
Variable compareSync : string -> string -> bool.

(** [router.post("/signup")]. *)
Definition signup (req : Request) : M Response :=
  let b := body req in
  try_catch
    (if JsString.falsy_opt (username b) || JsString.falsy_opt (password b)
        || JsString.falsy_opt (email b) || JsString.falsy_opt (nickname b)
     then next_error MissingRequiredFields 400
     else if negb (isValidNickname (or_empty (nickname b)))
     then next_error InvalidNickname 400
     else if negb (isEmail (or_empty (email b)))
     then next_error InvalidEmail 400
     else if negb (isValidIntroduction (introduction b))
     then next_error InvalidIntroduction 400
     else
       exists_ <- UserController.hasUserByUsername (or_empty (username b)) ;;
       if exists_ then next_error UserAlreadyExists 400
       else
         responseUser <- UserController.createUser hashSync
                           (or_empty (username b)) (or_empty (password b))
                           (or_empty (email b)) (or_empty (nickname b))
                           (or_empty (introduction b)) ;;
         ret (json 201
                (UserBody
                   {| created_id := UserInterface.id responseUser;
                      created_username := UserInterface.username responseUser;
                      created_email := UserInterface.email responseUser;
                      created_nickname := UserInterface.nickname responseUser;
                      created_introduction :=
                        UserInterface.introduction responseUser |})))
    (fun _ => ret (next {| message := Literal "UnexpectedError";
                           status := 500 |})).

(** [router.post("/signin")]. *)
Definition signin (req : Request) : M Response :=
  let b := body req in
  if JsString.falsy_opt (username b) || JsString.falsy_opt (password b)
  then next_error MissingRequiredFields 400
  else
    user <- UserController.getUserFromUsername (or_empty (username b)) ;;
    match user with
    | None => next_error UserNotFound 400
    | Some user =>
        if negb (compareSync (or_empty (password b))
                   (UserInterface.password user))
        then next_error IncorrectPassword 400
        else
          generatedAt <- new_Date ;;
          ret (json 200
                 (TokenBody {| token_id := UserInterface.id user;
                               generatedAt := generatedAt |}))
    end.

(** [router.put("/profile")]. *)
Definition put_profile (req : Request) : M Response :=
  match TokenRequest req with
  | None => next_error NoTokenProvided 400
  | Some _ =>
      match UserRequest req with
      | None => next_error Unauthorized 401
      | Some userRequest =>
          let nickname := nickname (body req) in
          let introduction := introduction (body req) in
          if negb (User.hasPermission userRequest USER_UPDATE_PROFILE)
          then next_error Unauthorized 401
          else if JsString.falsy_opt nickname
                  && JsString.falsy_opt introduction
          then ret (end_ 304)
          else if negb (JsString.falsy_opt nickname)
                  && negb (isValidNickname (or_empty nickname))
          then next_error InvalidNickname 400
          else if negb (JsString.falsy_opt introduction)
                  && negb (isValidIntroduction introduction)
          then next_error InvalidIntroduction 400
          else
            UserController.updateUserProfile (User.id userRequest)
              nickname introduction ;;;
            ret (end_ 204)
      end
  end.

End WithLibraries.

End UserRouter.

(* ===================================================================== *)
(** ** The id-taking operations of the two controllers *)
(* ===================================================================== *)

Module IdOperation.

(** One constructor per controller operation that takes an id, with the
    arguments it takes besides the id. *)
Inductive t :=
| getComic
| updateComic (name description author category : string)
    (tags : option (list string)) (thumbnail : option string)
| deleteComic
| updateViewComic
| hasComic
| searchComic (slug : option string)
| getChapter
| getChaptersFromComic (filter : option ComicChapterController.Filter)
| updateChapterLength (length : Z).

(** Runs a computation for its effects and whether it throws. *)
Definition discard {A} (m : M A) : M unit := _ <- m ;; ret tt.

(** Calls the operation on [id]. *)
Definition call (charMap : ascii -> option string)
  (numbers : ComicChapterController.Numbers) (op : t) (id : string)
  : M unit :=
  match op with
  | getComic => discard (ComicController.getComic id)
  | updateComic name description author category tags thumbnail =>
      ComicController.updateComic charMap id name description author
        category tags thumbnail
  | deleteComic => ComicController.deleteComic id
  | updateViewComic => ComicController.updateViewComic id
  | hasComic => discard (ComicController.hasComic id)
  | searchComic slug =>
      discard (ComicController.searchComic
                 {| ComicController.slug := slug;
                    ComicController.search_id := Some id |})
  | getChapter => discard (ComicChapterController.getChapter id)
  | getChaptersFromComic filter =>
      discard (ComicChapterController.getChaptersFromComic numbers id filter)
  | updateChapterLength length =>
      ComicChapterController.updateChapterLength id length
  end.

(** The operations that start with the id guard: all but [searchComic]. *)
Definition guarded (op : t) : bool :=
  match op with
  | searchComic _ => false
  | _ => true
  end.

End IdOperation.

(* ===================================================================== *)
(** ** Sequences of calls *)
(* ===================================================================== *)

Module Scenario.

(** [n] calls of [m] in a row, each awaited; the first that throws ends the
    sequence. *)
Fixpoint repeat_call (n : nat) (m : M unit) : M unit :=
  match n with
  | O => ret tt
  | S n' => m ;;; repeat_call n' m
  end.

(** A comic row with another count of views. *)
Definition with_views (c : ComicInterface.t) (views : Z) : ComicInterface.t :=
  {| ComicInterface.id := ComicInterface.id c;
     ComicInterface.name := ComicInterface.name c;
     ComicInterface.description := ComicInterface.description c;
     ComicInterface.postedBy := ComicInterface.postedBy c;
     ComicInterface.thumbnail := ComicInterface.thumbnail c;
     ComicInterface.createdAt := ComicInterface.createdAt c;
     ComicInterface.updatedAt := ComicInterface.updatedAt c;
     ComicInterface.slug := ComicInterface.slug c;
     ComicInterface.likes := ComicInterface.likes c;
     ComicInterface.views := views;
     ComicInterface.author := ComicInterface.author c;
     ComicInterface.category := ComicInterface.category c |}.

(** [n] more views for the rows of [id]. *)
Definition add_views (id : string) (n : Z) (c : ComicInterface.t)
  : ComicInterface.t :=
  if String.eqb (ComicInterface.id c) id
  then with_views c (ComicInterface.views c + n)
  else c.

(** A chapter row with another length. *)
Definition with_length (c : ComicChapterInterface.t) (length : Z)
  : ComicChapterInterface.t :=
  {| ComicChapterInterface.id := ComicChapterInterface.id c;
     ComicChapterInterface.name := ComicChapterInterface.name c;
     ComicChapterInterface.comicId := ComicChapterInterface.comicId c;
     ComicChapterInterface.postedBy := ComicChapterInterface.postedBy c;
     ComicChapterInterface.viewType := ComicChapterInterface.viewType c;
     ComicChapterInterface.createdAt := ComicChapterInterface.createdAt c;
     ComicChapterInterface.updatedAt := ComicChapterInterface.updatedAt c;
     ComicChapterInterface.length := length |}.

(** The operations that only read. *)
Definition read_only (op : IdOperation.t) : bool :=
  match op with
  | IdOperation.getComic | IdOperation.hasComic | IdOperation.searchComic _
  | IdOperation.getChapter | IdOperation.getChaptersFromComic _ => true
  | _ => false
  end.

(** A computation that leaves the committed tables and the open
    transaction as they are, whatever it returns or throws. *)
Definition keeps_tables {A} (m : M A) : Prop :=
  forall w, db (fst (m w)) = db w /\ trx (fst (m w)) = trx w.

(** Reads [k] pages of [limit] chapters one after the other, from page
    [start] on, and puts them end to end. *)
Fixpoint read_pages (numbers : ComicChapterController.Numbers)
  (comicId : string) (limit : Z)
  (sortedBy : option string) (order : option ComicChapterController.Order)
  (start k : nat) : M (list ComicChapterInterface.t) :=
  match k with
  | O => ret []
  | S k' =>
      rows <- ComicChapterController.getChaptersFromComic numbers comicId
                (Some {| ComicChapterController.limit := Some limit;
                         ComicChapterController.page :=
                           Some (Z.of_nat start);
                         ComicChapterController.sortedBy := sortedBy;
                         ComicChapterController.order := order |}) ;;
      rest <- read_pages numbers comicId limit sortedBy order (S start) k' ;;
      ret (rows ++ rest)
  end.

(** The columns of a chapter that hold a number or a date, by name. *)
Definition numeric_column (column : string)
  : option (ComicChapterInterface.t -> Z) :=
  if String.eqb column "createdAt" then Some ComicChapterInterface.createdAt
  else if String.eqb column "updatedAt"
       then Some ComicChapterInterface.updatedAt
  else if String.eqb column "length" then Some ComicChapterInterface.length
  else if String.eqb column "viewType"
       then Some ComicChapterInterface.viewType
  else None.

(** [a] may come before [b] in the direction [o] of a sort by [key]. *)
Definition in_order (o : ComicChapterController.Order)
  (key : ComicChapterInterface.t -> Z) (a b : ComicChapterInterface.t)
  : Prop :=
  match o with
  | ComicChapterController.asc => (key a <= key b)%Z
  | ComicChapterController.desc => (key b <= key a)%Z
  end.

(** [length] for the rows of [chapterId]. *)
Definition set_length (chapterId : string) (length : Z)
  (c : ComicChapterInterface.t) : ComicChapterInterface.t :=
  if String.eqb (ComicChapterInterface.id c) chapterId
  then with_length c length
  else c.

(** A code unit that is no blank. *)
Definition no_space (c : ascii) : bool := negb (JsString.is_space c).

(** A code unit the comic writers remove, or a blank. *)
Definition removed_or_space (c : ascii) : bool :=
  Slugify.comic_remove c || JsString.is_space c.

(** The statements sent from index [n] on, [k] of them, all go through. *)
Definition no_fault_from (w : World) (n k : nat) : Prop :=
  forall i, i < k -> fault w (n + i) = false.

End Scenario.

(* ===================================================================== *)
(** ** Sample worlds *)
(* ===================================================================== *)

Module Sample.

(** Three ids for [uuid()] to hand out. *)
Definition uuid_values (n : nat) : string :=
  match n with
  | O => "3f2504e0-4f89-41d3-9a0c-0305e82c3301"
  | S O => "3f2504e0-4f89-41d3-9a0c-0305e82c3302"
  | _ => "3f2504e0-4f89-41d3-9a0c-0305e82c3303"
  end.

Definition no_fault (n : nat) : bool := false.

(** An engine that hands out the oldest of the rows that match. *)
Definition first_choice (n : nat) : nat := 0.

(** An engine that hands out the second oldest of them. *)
Definition second_choice (n : nat) : nat := 1.

(** The first decimal digit of a positive integer of at most [fuel]
    digits. *)
Fixpoint first_digit (fuel : nat) (z : Z) : Z :=
  match fuel with
  | O => z
  | S fuel' => if Z.ltb z 10 then z else first_digit fuel' (z / 10)
  end.

(** Stand-ins for what the platform does with numbers beyond the safe
    integers, right on the numbers the examples use: a power of ten times
    a digit is a number up to 10^22, so that the products that give one are
    exact, and it prints as its digits below 10^21 and as its first digit
    and an exponent from there on. *)
Definition numbers : ComicChapterController.Numbers :=
  {| ComicChapterController.rounded_product := Z.mul;
     ComicChapterController.parsed_print :=
       fun z =>
         if Z.ltb (Z.abs z) (10 ^ 21) then z
         else (Z.sgn z * first_digit 400 (Z.abs z))%Z |}.

Definition empty : Database :=
  {| comics := []; resources := []; comic_tags := [];
     comic_book_tags := []; comic_chapters := []; users := [] |}.

Definition world (d : Database) : World :=
  {| db := d; trx := None; log := []; fault := no_fault;
     choice := first_choice;
     uuids := uuid_values; uuid_next := 0; clock := 1650000000000%Z |}.

(** A world whose database fails the statement of index [k]. *)
Definition faulty_world (k : nat) (d : Database) : World :=
  {| db := d; trx := None; log := []; fault := Nat.eqb k;
     choice := first_choice;
     uuids := uuid_values; uuid_next := 0; clock := 1650000000000%Z |}.


(** A store with one thumbnail and two tags. *)
Definition library : Database :=
  {| comics := [];
     resources := [ResourceInterface.mk "r1" "cover.png"];
     comic_tags := [ComicTagInterface.mk "t1" "action";
                    ComicTagInterface.mk "t2" "drama"];
     comic_book_tags := []; comic_chapters := []; users := [] |}.


(** The comic the examples create in [world library]. *)
Definition one_piece : ComicInterface.t :=
  {| ComicInterface.id := uuid_values 0;
     ComicInterface.name := "One Piece";
     ComicInterface.description := "pirates";
     ComicInterface.postedBy := "u1";
     ComicInterface.thumbnail := Some "r1";
     ComicInterface.createdAt := 1650000000000%Z;
     ComicInterface.updatedAt := 1650000000000%Z;
     ComicInterface.slug := "one-piece";
     ComicInterface.likes := 0%Z;
     ComicInterface.views := 0%Z;
     ComicInterface.author := "Oda";
     ComicInterface.category := "Comic" |}.

(** [world library] after that comic was created with the tags [t2] and
    [t1]. *)
Definition after_create : World :=
  {| db := set_comic_book_tags (set_comics library [one_piece])
             [ComicBookTagInterface.mk (uuid_values 0) "t2";
              ComicBookTagInterface.mk (uuid_values 0) "t1"];
     trx := None;
     log := [Begin; Insert TComic; Insert TComicBookTag; Commit];
     fault := no_fault; choice := first_choice;
     uuids := uuid_values; uuid_next := 1; clock := 1650000000000%Z |}.

Definition chapter (id : string) (createdAt : Z) : ComicChapterInterface.t :=
  {| ComicChapterInterface.id := id;
     ComicChapterInterface.name := "chapter";
     ComicChapterInterface.comicId := "3f2504e0-4f89-41d3-9a0c-0305e82c3301";
     ComicChapterInterface.postedBy := "u1";
     ComicChapterInterface.viewType := 1;
     ComicChapterInterface.createdAt := createdAt;
     ComicChapterInterface.updatedAt := createdAt;
     ComicChapterInterface.length := 0 |}.

(** A store with five chapters of one comic, not in order of creation. *)
Definition chapters : Database :=
  set_comic_chapters empty
    [chapter "c3" 30; chapter "c1" 10; chapter "c5" 50; chapter "c2" 20;
     chapter "c4" 40].

(** A store with three chapters whose ids are well formed. *)
Definition numbered_chapters : Database :=
  set_comic_chapters empty
    [chapter (uuid_values 1) 10; chapter (uuid_values 2) 20;
     chapter (uuid_values 0) 30].

(** Stand-ins for the library functions the router calls, to run the
    handlers on examples. *)
Definition hashSync (p : string) : string := "hash:" ++ p.
Definition compareSync (p h : string) : bool := String.eqb (hashSync p) h.
Definition isValidNickname (s : string) : bool := negb (JsString.falsy s).
Definition isValidIntroduction (o : option string) : bool := true.
Definition isEmail (s : string) : bool := JsString.mem "@"%char s.

Definition ann : UserInterface.t :=
  {| UserInterface.id := "3f2504e0-4f89-41d3-9a0c-0305e82c33aa";
     UserInterface.username := "ann";
     UserInterface.password := hashSync "p@ssW0rd";
     UserInterface.email := "ann@x.com";
     UserInterface.nickname := "Ann";
     UserInterface.introduction := "" |}.

(** A store whose only user is [ann]. *)
Definition with_ann : Database := set_users empty [ann].

Definition token : UserRouter.Token :=
  {| UserRouter.token_id := UserInterface.id ann;
     UserRouter.generatedAt := 1650000000000%Z |}.

Definition user_of (permissions : list PermissionInterface.PermissionEnum)
  : User.t :=
  {| User.id := UserInterface.id ann;
     User.username := "ann";
     User.email := "ann@x.com";
     User.nickname := "Ann";
     User.permissionGroup :=
       {| User.group_name := "USER"; User.group_permissions := permissions |}
  |}.

Definition body_of (username password email nickname introduction
                    : option string) : UserRouter.RequestBody :=
  {| UserRouter.username := username; UserRouter.password := password;
     UserRouter.email := email; UserRouter.nickname := nickname;
     UserRouter.introduction := introduction |}.

(** A request that went through [getAuth] with a valid token. *)
Definition authenticated (u : User.t) (b : UserRouter.RequestBody)
  : UserRouter.Request :=
  {| UserRouter.TokenRequest := Some token;
     UserRouter.UserRequest := Some u;
     UserRouter.body := b |}.

(** [world with_ann] after [ann] changed her nickname to Annie. *)
Definition after_rename : World :=
  with_db (with_log (world with_ann) [Update TUser])
    (fst (UserController.update_profile (UserInterface.id ann)
            (Some "Annie") None with_ann)).

(** [after_create] after the comic was deleted: its join rows stay. *)
Definition after_delete : World :=
  with_db (with_log after_create (log after_create ++ [Delete TComic]))
    (set_comics (db after_create) []).

(** A second comic whose name gives the slug of [one_piece]. *)
Definition one_piece_again : ComicInterface.t :=
  {| ComicInterface.id := uuid_values 1;
     ComicInterface.name := "One Piece!";
     ComicInterface.description := "more pirates";
     ComicInterface.postedBy := "u2";
     ComicInterface.thumbnail := Some "r1";
     ComicInterface.createdAt := 1650000000000%Z;
     ComicInterface.updatedAt := 1650000000000%Z;
     ComicInterface.slug := "one-piece";
     ComicInterface.likes := 0%Z;
     ComicInterface.views := 0%Z;
     ComicInterface.author := "Oda";
     ComicInterface.category := "Comic" |}.

(** [after_create] after that second comic was created, with the tag
    [t1]. *)
Definition after_create_again : World :=
  {| db := set_comic_book_tags
             (set_comics library [one_piece; one_piece_again])
             [ComicBookTagInterface.mk (uuid_values 0) "t2";
              ComicBookTagInterface.mk (uuid_values 0) "t1";
              ComicBookTagInterface.mk (uuid_values 1) "t1"];
     trx := None;
     log := [Begin; Insert TComic; Insert TComicBookTag; Commit;
             Begin; Insert TComic; Insert TComicBookTag; Commit];
     fault := no_fault; choice := first_choice;
     uuids := uuid_values; uuid_next := 2; clock := 1650000000000%Z |}.

(** The tables of [after_create_again] on an engine that hands out the
    second oldest of the rows that match. *)
Definition after_create_again_elsewhere : World :=
  {| db := db after_create_again;
     trx := None;
     log := log after_create_again;
     fault := no_fault; choice := second_choice;
     uuids := uuid_values; uuid_next := 2; clock := 1650000000000%Z |}.

(** [after_create] after the comic was updated with a new description,
    the tag [t1] again and no thumbnail. *)
Definition after_retag : World :=
  {| db := set_comic_book_tags
             (set_comics library
                [{| ComicInterface.id := uuid_values 0;
                    ComicInterface.name := "One Piece";
                    ComicInterface.description := "pirates!";
                    ComicInterface.postedBy := "u1";
                    ComicInterface.thumbnail := Some "r1";
                    ComicInterface.createdAt := 1650000000000%Z;
                    ComicInterface.updatedAt := 1650000000000%Z;
                    ComicInterface.slug := "one-piece";
                    ComicInterface.likes := 0%Z;
                    ComicInterface.views := 0%Z;
                    ComicInterface.author := "Oda";
                    ComicInterface.category := "Comic" |}])
             [ComicBookTagInterface.mk (uuid_values 0) "t2";
              ComicBookTagInterface.mk (uuid_values 0) "t1";
              ComicBookTagInterface.mk (uuid_values 0) "t1"];
     trx := None;
     log := [Begin; Insert TComic; Insert TComicBookTag; Commit;
             Begin; Update TComic; Insert TComicBookTag; Commit];
     fault := no_fault; choice := first_choice;
     uuids := uuid_values; uuid_next := 1; clock := 1650000000000%Z |}.

(** Where [faulty_world 2 library] is left when an update failed on its
    insert of tags and was rolled back. *)
Definition rolled_back_update : World :=
  {| db := library; trx := None;
     log := [Begin; Update TComic; Insert TComicBookTag; Rollback];
     fault := Nat.eqb 2; choice := first_choice;
     uuids := uuid_values; uuid_next := 0; clock := 1650000000000%Z |}.

(** [after_create] once the resource of the cover is gone. *)
Definition after_cover_removed : World :=
  {| db := {| comics := [one_piece]; resources := [];
              comic_tags := comic_tags library;
              comic_book_tags := comic_book_tags (db after_create);
              comic_chapters := []; users := [] |};
     trx := None;
     log := log after_create;
     fault := no_fault; choice := first_choice;
     uuids := uuid_values; uuid_next := 1; clock := 1650000000000%Z |}.

(** A request with no token. *)
Definition anonymous (b : UserRouter.RequestBody) : UserRouter.Request :=
  {| UserRouter.TokenRequest := None;
     UserRouter.UserRequest := None;
     UserRouter.body := b |}.

End Sample.

(* ===================================================================== *)
(** * Properties *)
(* ===================================================================== *)

Unset Implicit Arguments.

Example isUUID_ok :
  Validator.isUUID "3f2504e0-4f89-11d3-9a0c-0305e82c3301" = true.
Proof. reflexivity. Qed.

Example isUUID_short : Validator.isUUID "abc" = false.
Proof. reflexivity. Qed.

Example isUUID_trailing :
  Validator.isUUID "3f2504e0-4f89-11d3-9a0c-0305e82c3301x" = false.
Proof. reflexivity. Qed.

Example slugify_sample :
  Slugify.slugify Slugify.charMap_ascii "  One Piece: Vol.1 (New!) & more "
    Slugify.comic_options = "one-piece-vol1-new-and-more".
Proof. reflexivity. Qed.

(* --------------------------------------------------------------------- *)
(** ** The id guard *)
(* --------------------------------------------------------------------- *)

Lemma bind_throw {A B} (m : M A) (k : A -> M B) (w w1 : World) (e : Error) :
  m w = (w1, Throw e) -> bind m k w = (w1, Throw e).
Proof. intros H. unfold bind. rewrite H. reflexivity. Qed.

Lemma bind_ok {A B} (m : M A) (k : A -> M B) (w w1 : World) (a : A) :
  m w = (w1, Ok a) -> bind m k w = k a w1.
Proof. intros H. unfold bind. rewrite H. reflexivity. Qed.

Lemma isUUID_not_falsy (id : string) :
  Validator.isUUID id = true -> JsString.falsy id = false.
Proof. destruct id; [discriminate | reflexivity]. Qed.

Lemma isUUID_good_id (id : string) :
  Validator.isUUID id = true -> Validator.bad_id id = false.
Proof.
  intros H. unfold Validator.bad_id.
  rewrite (isUUID_not_falsy _ H), H. reflexivity.
Qed.

(** C2, as amended. Every id-taking operation of the comic and chapter
    controllers other than [searchComic] (getComic, updateComic,
    deleteComic, updateViewComic, hasComic, getChapter,
    getChaptersFromComic, updateChapterLength), called on an id that is
    empty or not a well-formed UUID, throws the error [id is required] and
    leaves the world as it was: nothing is sent to the database. *)
Theorem guarded_operation_rejects_bad_id
  (charMap : ascii -> option string)
  (numbers : ComicChapterController.Numbers) (op : IdOperation.t)
  (id : string) (w : World) :
  IdOperation.guarded op = true ->
  Validator.bad_id id = true ->
  IdOperation.call charMap numbers op id w = (w, Throw id_is_required).
Proof.
  intros Hop Hid.
  destruct op; simpl in Hop; try discriminate; simpl;
    unfold IdOperation.discard, ComicController.getComic,
      ComicController.updateComic, ComicController.deleteComic,
      ComicController.updateViewComic, ComicController.hasComic,
      ComicChapterController.getChapter,
      ComicChapterController.getChaptersFromComic,
      ComicChapterController.updateChapterLength;
    try (apply bind_throw); rewrite Hid; reflexivity.
Qed.

Lemma guarded_operation_rejects_bad_id_witness :
  IdOperation.guarded (IdOperation.updateChapterLength 12) = true /\
  Validator.bad_id "chapter-7" = true /\
  IdOperation.call Slugify.charMap_ascii Sample.numbers
    (IdOperation.updateChapterLength 12) "chapter-7"
    (Sample.world Sample.chapters)
  = (Sample.world Sample.chapters, Throw id_is_required).
Proof.
  split; [reflexivity | split; [reflexivity |]].
  apply (guarded_operation_rejects_bad_id Slugify.charMap_ascii
           Sample.numbers (IdOperation.updateChapterLength 12) "chapter-7"
           (Sample.world Sample.chapters)); reflexivity.
Defined.

(** C2, as stated, fails on [searchComic]: called on the id [abc], which is
    no UUID, it does not throw, and one [SELECT] on the comics table has
    been sent. *)
Lemma searchComic_accepts_bad_id :
  Validator.bad_id "abc" = true /\
  IdOperation.call Slugify.charMap_ascii Sample.numbers
    (IdOperation.searchComic None) "abc" (Sample.world Sample.library)
  = (with_log (Sample.world Sample.library) [Select TComic], Ok tt).
Proof. split; reflexivity. Qed.

(* --------------------------------------------------------------------- *)
(** ** Reading a comic that is not there *)
(* --------------------------------------------------------------------- *)

Lemma filter_none {A} (p : A -> bool) (l : list A) :
  (forall x, In x l -> p x = false) -> List.filter p l = [].
Proof.
  induction l as [| x l IH]; intros H; simpl; [reflexivity |].
  rewrite (H x (or_introl eq_refl)). apply IH.
  intros y Hy. apply H. right. exact Hy.
Qed.

Lemma where_id_absent (id : string) (d : Database) :
  (forall c, In c (comics d) -> ComicInterface.id c <> id) ->
  ComicController.where_id id d = [].
Proof.
  intros H. unfold ComicController.where_id. apply filter_none.
  intros c Hc. apply String.eqb_neq. apply H. exact Hc.
Qed.

Lemma query_fault {A} (s : Statement) (run : Database -> Database * A)
  (w : World) :
  fault w (List.length (log w)) = true ->
  query s run w
  = (with_log w (log w ++ [s]), Throw (DbError (List.length (log w)))).
Proof. intros H. unfold query. rewrite H. reflexivity. Qed.

Lemma query_ok {A} (s : Statement) (run : Database -> Database * A)
  (w : World) :
  fault w (List.length (log w)) = false ->
  query s run w
  = (with_db (with_log w (log w ++ [s])) (fst (run (db w))),
     Ok (snd (run (db w)))).
Proof.
  intros H. unfold query. rewrite H. destruct (run (db w)). reflexivity.
Qed.

(** A statement that only reads leaves the tables as they were. *)
Lemma with_db_same (w : World) (l : list Statement) :
  with_db (with_log w l) (db w) = with_log w l.
Proof. destruct w; reflexivity. Qed.

Lemma getComic_lookup_fails (id : string) (w : World) :
  Validator.isUUID id = true ->
  fault w (List.length (log w)) = true ->
  ComicController.getComic id w
  = (with_log w (log w ++ [Select TComic]),
     Throw (DbError (List.length (log w)))).
Proof.
  intros Hid Hf. unfold ComicController.getComic.
  rewrite (isUUID_good_id _ Hid).
  apply bind_throw. apply query_fault. exact Hf.
Qed.

Lemma getComic_absent (id : string) (w : World) :
  Validator.isUUID id = true ->
  (forall c, In c (comics (db w)) -> ComicInterface.id c <> id) ->
  fault w (List.length (log w)) = false ->
  ComicController.getComic id w
  = (with_log w (log w ++ [Select TComic]), Throw TypeError).
Proof.
  intros Hid Habsent Hf. unfold ComicController.getComic.
  rewrite (isUUID_good_id _ Hid).
  rewrite (bind_ok _ _ _ _ _ (query_ok _ _ _ Hf)).
  unfold ComicController.select_comic. simpl fst. simpl snd.
  rewrite (where_id_absent _ _ Habsent), with_db_same.
  reflexivity.
Qed.

(** C10. For a well-formed UUID that is the id of no stored comic,
    [getComic] throws: it never returns a record, empty or not. When the
    database answers the lookup, the error is the [TypeError] of reading
    [thumbnail] from the absent row, and the lookup is the only statement
    sent. *)
Theorem getComic_absent_throws (id : string) (w : World) :
  Validator.isUUID id = true ->
  (forall c, In c (comics (db w)) -> ComicInterface.id c <> id) ->
  exists e,
    snd (ComicController.getComic id w) = Throw e /\
    (fault w (List.length (log w)) = false ->
     e = TypeError /\
     fst (ComicController.getComic id w)
     = with_log w (log w ++ [Select TComic])).
Proof.
  intros Hid Habsent.
  destruct (fault w (List.length (log w))) eqn:Hf.
  - rewrite (getComic_lookup_fails id w Hid Hf).
    eexists. split; [reflexivity | discriminate].
  - rewrite (getComic_absent id w Hid Habsent Hf).
    exists TypeError. split; [reflexivity | intros _; split; reflexivity].
Qed.

Lemma getComic_absent_throws_witness :
  Validator.isUUID "3f2504e0-4f89-41d3-9a0c-0305e82c3301" = true /\
  (forall c, In c (comics (db (Sample.world Sample.library))) ->
             ComicInterface.id c <> "3f2504e0-4f89-41d3-9a0c-0305e82c3301") /\
  exists e,
    snd (ComicController.getComic "3f2504e0-4f89-41d3-9a0c-0305e82c3301"
           (Sample.world Sample.library)) = Throw e /\
    (fault (Sample.world Sample.library)
       (List.length (log (Sample.world Sample.library))) = false ->
     e = TypeError /\
     fst (ComicController.getComic "3f2504e0-4f89-41d3-9a0c-0305e82c3301"
            (Sample.world Sample.library))
     = with_log (Sample.world Sample.library)
         (log (Sample.world Sample.library) ++ [Select TComic])).
Proof.
  split; [reflexivity |].
  split; [intros c Hc; simpl in Hc; contradiction |].
  apply (getComic_absent_throws "3f2504e0-4f89-41d3-9a0c-0305e82c3301"
           (Sample.world Sample.library)).
  - reflexivity.
  - intros c Hc. simpl in Hc. contradiction.
Defined.


(* --------------------------------------------------------------------- *)
(** ** Creating a comic is all or nothing *)
(* --------------------------------------------------------------------- *)

(** Splits a run of controller code on every test it depends on. *)
Ltac split_run H :=
  repeat (match type of H with
          | context [match List.map _ ?tags with
                     | nil => _
                     | cons _ _ => _
                     end] =>
              destruct tags eqn:?
          | context [if ?c then _ else _] => destruct c eqn:?
          | context [match ?t with Some _ => _ | None => _ end] =>
              destruct t eqn:?
          end; simpl in H).

Ltac unfold_run H :=
  unfold ComicController.createComic, ComicController.updateComic,
    ComicController.trx_insert_comic_book_tags,
    uuid, new_Date, transaction, try_catch, bind, trx_query, commit,
    rollback, ComicController.tags_map, throw, ret in H;
  simpl in H.



(** What a successful [createComic] returns and leaves behind. *)
Lemma createComic_ok
  (charMap : ascii -> option string)
  (name description postedBy author category : string)
  (tags : option (list string)) (thumbnail : option string)
  (w w' : World) (c : ComicInterface.t) :
  ComicController.createComic charMap name description postedBy author
    category tags thumbnail w = (w', Ok c) ->
  ComicInterface.id c = uuids w (uuid_next w) /\
  ComicInterface.thumbnail c = thumbnail /\
  ComicInterface.slug c = Slugify.slugify charMap name Slugify.comic_options /\
  (exists l,
     tags = Some l /\
     db w' = set_comic_book_tags
               (set_comics (db w) (comics (db w) ++ [c]))
               (comic_book_tags (db w)
                ++ List.map (ComicBookTagInterface.mk (ComicInterface.id c))
                     l)) /\
  trx w' = None /\
  fault w' = fault w /\
  log w' = log w ++ [Begin; Insert TComic; Insert TComicBookTag; Commit].
Proof.
  intros H. unfold_run H.
  split_run H; try discriminate.
  injection H as <- <-. simpl.
  repeat split; try reflexivity.
  - eexists. split; reflexivity.
  - rewrite <- !app_assoc. reflexivity.
Qed.




(* --------------------------------------------------------------------- *)
(** ** Reading back the tags of a new comic *)
(* --------------------------------------------------------------------- *)

Lemma bind_ret {A B} (a : A) (k : A -> M B) (w : World) :
  bind (ret a) k w = k a w.
Proof. reflexivity. Qed.









(** A comic created without a thumbnail cannot be read back: [getComic]
    finds the row, finds no resource, and throws when it reads the file
    name. *)
Lemma getComic_without_thumbnail_throws :
  exists w1 c,
    ComicController.createComic Slugify.charMap_ascii "One Piece" "pirates"
      "u1" "Oda" "Comic" (Some ["t1"]) None
      (Sample.world Sample.library) = (w1, Ok c) /\
    snd (ComicController.getComic (ComicInterface.id c) w1) = Throw TypeError.
Proof.
  do 2 eexists. split; [lazy; reflexivity | reflexivity].
Qed.

(* --------------------------------------------------------------------- *)
(** ** The slug of a comic *)
(* --------------------------------------------------------------------- *)

Module SlugFacts.
Import JsString.
Import Slugify (kept).

Lemma all_append (p : ascii -> bool) (a b : string) :
  all p (a ++ b)%string = all p a && all p b.
Proof.
  induction a as [| c a IH]; simpl; [reflexivity |].
  rewrite IH. apply andb_assoc.
Qed.

Lemma all_filter (p : ascii -> bool) (s : string) :
  all p (filter p s) = true.
Proof.
  induction s as [| c s IH]; simpl; [reflexivity |].
  destruct (p c) eqn:E; simpl; [rewrite E |]; exact IH.
Qed.

Lemma all_trimStart (p : ascii -> bool) (s : string) :
  all p s = true -> all p (trimStart s) = true.
Proof.
  induction s as [| c s IH]; simpl; intros H; [reflexivity |].
  apply andb_prop in H. destruct H as [Hc Hs].
  destruct (is_space c); [apply IH; exact Hs |].
  simpl. rewrite Hc. exact Hs.
Qed.

Lemma all_trimEnd (p : ascii -> bool) (s : string) :
  all p s = true -> all p (trimEnd s) = true.
Proof.
  induction s as [| c s IH]; simpl; intros H; [reflexivity |].
  apply andb_prop in H. destruct H as [Hc Hs].
  destruct (is_space c && is_empty (trimEnd s)); [reflexivity |].
  simpl. rewrite Hc. apply IH. exact Hs.
Qed.

Lemma all_replace_spaces (p : ascii -> bool) (rep : string) (s : string) :
  all p rep = true ->
  all p s = true ->
  forall in_run, all p (replace_spaces rep in_run s) = true.
Proof.
  intros Hrep. induction s as [| c s IH]; simpl; intros H in_run;
    [reflexivity |].
  apply andb_prop in H. destruct H as [Hc Hs].
  destruct (is_space c).
  - destruct in_run; [apply IH; exact Hs |].
    rewrite all_append, Hrep. apply IH. exact Hs.
  - simpl. rewrite Hc. apply IH. exact Hs.
Qed.

Lemma kept_lower_char (c : ascii) : kept (lower_char c) = kept c.
Proof. destruct c as [[] [] [] [] [] [] [] []]; reflexivity. Qed.

Lemma lower_char_idempotent (c : ascii) :
  lower_char (lower_char c) = lower_char c.
Proof. destruct c as [[] [] [] [] [] [] [] []]; reflexivity. Qed.

Lemma all_kept_toLowerCase (s : string) :
  all kept s = true -> all kept (toLowerCase s) = true.
Proof.
  induction s as [| c s IH]; simpl; intros H; [reflexivity |].
  apply andb_prop in H. destruct H as [Hc Hs].
  rewrite kept_lower_char, Hc. apply IH. exact Hs.
Qed.

Lemma toLowerCase_idempotent (s : string) :
  toLowerCase (toLowerCase s) = toLowerCase s.
Proof.
  induction s as [| c s IH]; simpl; [reflexivity |].
  rewrite lower_char_idempotent, IH. reflexivity.
Qed.

Lemma all_kept_reduce (charMap : ascii -> option string) (s : string) :
  all kept (Slugify.reduce charMap Slugify.comic_options s) = true.
Proof.
  induction s as [| c s IH]; simpl; [reflexivity |].
  rewrite all_append, IH, andb_true_r.
  unfold Slugify.append_char. simpl. apply (all_filter kept).
Qed.

(** The slug of a name is in lower case. *)
Lemma slug_lowercase (charMap : ascii -> option string) (name : string) :
  toLowerCase (Slugify.slugify charMap name Slugify.comic_options)
  = Slugify.slugify charMap name Slugify.comic_options.
Proof. unfold Slugify.slugify. simpl. apply toLowerCase_idempotent. Qed.

(** The slug of a name holds none of the removed characters. *)
Lemma slug_stripped (charMap : ascii -> option string) (name : string) :
  all kept (Slugify.slugify charMap name Slugify.comic_options) = true.
Proof.
  unfold Slugify.slugify. simpl.
  apply all_kept_toLowerCase, all_replace_spaces; [reflexivity |].
  apply all_trimEnd, all_trimStart, all_kept_reduce.
Qed.

Lemma all_In (p : ascii -> bool) (s : string) (c : ascii) :
  all p s = true -> In c (list_ascii_of_string s) -> p c = true.
Proof.
  induction s as [| d s IH]; simpl; intros H Hc; [contradiction |].
  apply andb_prop in H. destruct H as [Hd Hs].
  destruct Hc as [<- | Hc]; [exact Hd | exact (IH Hs Hc)].
Qed.

Lemma lower_char_not_capital (c : ascii) :
  is_upper_ascii (lower_char c) = false.
Proof. destruct c as [[] [] [] [] [] [] [] []]; reflexivity. Qed.

Lemma toLowerCase_no_capital (s : string) :
  all (fun c => negb (is_upper_ascii c)) (toLowerCase s) = true.
Proof.
  induction s as [| c s IH]; simpl; [reflexivity |].
  rewrite lower_char_not_capital, IH. reflexivity.
Qed.

(** The slug of a name holds no capital letter A-Z. *)
Lemma slug_no_capital (charMap : ascii -> option string) (name : string) :
  all (fun c => negb (is_upper_ascii c))
    (Slugify.slugify charMap name Slugify.comic_options) = true.
Proof. unfold Slugify.slugify. simpl. apply toLowerCase_no_capital. Qed.

End SlugFacts.

(** What a successful [updateComic] leaves behind. *)
Lemma updateComic_ok
  (charMap : ascii -> option string)
  (id name description author category : string)
  (tags : option (list string)) (thumbnail : option string)
  (w w' : World) :
  ComicController.updateComic charMap id name description author category
    tags thumbnail w = (w', Ok tt) ->
  exists l,
    tags = Some l /\
    db w' = set_comic_book_tags
              (fst (ComicController.update_comic id name description
                      (clock w)
                      (Slugify.slugify charMap name Slugify.comic_options)
                      author category thumbnail (db w)))
              (comic_book_tags (db w)
               ++ List.map (ComicBookTagInterface.mk id) l).
Proof.
  intros H. unfold_run H.
  split_run H; try discriminate.
  all: injection H as <-; subst; simpl; eexists; split; reflexivity.
Qed.

(** C6. The slug both comic writers store is [slugify] of the name with
    the options [lower] and [remove]. It is in lower case: [toLowerCase]
    leaves it as it is and no code unit of it is a capital letter A-Z
    (codes 65 to 90). None of the eleven characters [* + ~ . ( ) ' ! : @]
    and the double quote (code 34) occurs in it. A comic [createComic]
    returns is stored with that slug, and after [updateComic] with a name,
    every row of the id carries the name and the slug derived from it in
    the same way. *)
Theorem comic_slug_is_slugified_name
  (charMap : ascii -> option string) (name : string) :
  let slug := Slugify.slugify charMap name Slugify.comic_options in
  JsString.toLowerCase slug = slug /\
  (forall c, In c (list_ascii_of_string slug) ->
             ~ (65 <= nat_of_ascii c /\ nat_of_ascii c <= 90)) /\
  (forall c, In c ["*"; "+"; "~"; "."; "("; ")"; "'"; ascii_of_nat 34;
                   "!"; ":"; "@"]%char ->
             ~ In c (list_ascii_of_string slug)) /\
  (forall description postedBy author category tags thumbnail w w' c,
      ComicController.createComic charMap name description postedBy author
        category tags thumbnail w = (w', Ok c) ->
      In c (comics (db w')) /\ ComicInterface.slug c = slug) /\
  (forall id description author category tags thumbnail w w',
      ComicController.updateComic charMap id name description author
        category tags thumbnail w = (w', Ok tt) ->
      forall c, In c (comics (db w')) ->
                ComicInterface.id c = id ->
                ComicInterface.name c = name /\
                ComicInterface.slug c = slug).
Proof.
  intros slug. subst slug.
  split; [apply SlugFacts.slug_lowercase |].
  split.
  { intros c Hc [Hlo Hhi].
    pose proof (SlugFacts.all_In _ _ c
                  (SlugFacts.slug_no_capital charMap name) Hc) as H.
    unfold JsString.is_upper_ascii, JsString.between, JsString.code in H.
    apply Nat.leb_le in Hlo, Hhi. rewrite Hlo, Hhi in H. discriminate H. }
  split.
  { intros c Hc Hin.
    pose proof (SlugFacts.all_In _ _ c
                  (SlugFacts.slug_stripped charMap name) Hin) as H.
    simpl in Hc.
    repeat (destruct Hc as [<- | Hc]; [discriminate H |]).
    contradiction. }
  split.
  - intros description postedBy author category tags thumbnail w w' c H.
    destruct (createComic_ok _ _ _ _ _ _ _ _ _ _ _ H)
      as (_ & _ & Hslug & (l & _ & Hdb) & _).
    split; [| exact Hslug].
    rewrite Hdb. simpl. apply in_or_app. right. left. reflexivity.
  - intros id description author category tags thumbnail w w' H c Hc Hid.
    destruct (updateComic_ok _ _ _ _ _ _ _ _ _ _ H) as (l & _ & Hdb).
    rewrite Hdb in Hc. simpl in Hc.
    apply in_map_iff in Hc. destruct Hc as (c0 & Hc0 & _).
    destruct (String.eqb_spec (ComicInterface.id c0) id) as [_ | Hne].
    + subst c. split; reflexivity.
    + subst c. contradiction.
Qed.

(** Every one of the eleven characters is dropped from a name, and capital
    letters come out in lower case. *)
Example slugify_removes_the_eleven :
  Slugify.slugify Slugify.charMap_ascii
    (String (ascii_of_nat 34) "A*b+C~d.E(f)G'h!I:j@K")
    Slugify.comic_options = "abcdefghijk".
Proof. reflexivity. Qed.

Lemma comic_slug_is_slugified_name_witness :
  ComicController.createComic Slugify.charMap_ascii "One Piece" "pirates"
    "u1" "Oda" "Comic" (Some ["t2"; "t1"]) (Some "r1")
    (Sample.world Sample.library)
  = (Sample.after_create, Ok Sample.one_piece) /\
  ComicController.updateComic Slugify.charMap_ascii
    (ComicInterface.id Sample.one_piece) "One Piece" "pirates!" "Oda"
    "Comic" (Some ["t1"]) None Sample.after_create
  = (Sample.after_retag, Ok tt) /\
  (In Sample.one_piece (comics (db Sample.after_create)) /\
   ComicInterface.slug Sample.one_piece
   = Slugify.slugify Slugify.charMap_ascii "One Piece"
       Slugify.comic_options) /\
  (forall c, In c (comics (db Sample.after_retag)) ->
             ComicInterface.id c = ComicInterface.id Sample.one_piece ->
             ComicInterface.name c = "One Piece" /\
             ComicInterface.slug c
             = Slugify.slugify Slugify.charMap_ascii "One Piece"
                 Slugify.comic_options).
Proof.
  assert (H1 : ComicController.createComic Slugify.charMap_ascii "One Piece"
                 "pirates" "u1" "Oda" "Comic" (Some ["t2"; "t1"])
                 (Some "r1") (Sample.world Sample.library)
               = (Sample.after_create, Ok Sample.one_piece)) by reflexivity.
  assert (H2 : ComicController.updateComic Slugify.charMap_ascii
                 (ComicInterface.id Sample.one_piece) "One Piece" "pirates!"
                 "Oda" "Comic" (Some ["t1"]) None Sample.after_create
               = (Sample.after_retag, Ok tt)) by reflexivity.
  destruct (comic_slug_is_slugified_name Slugify.charMap_ascii "One Piece")
    as (_ & _ & _ & Hcreate & Hupdate).
  split; [exact H1 |]. split; [exact H2 |].
  split.
  - exact (Hcreate _ _ _ _ _ _ _ _ _ H1).
  - exact (Hupdate _ _ _ _ _ _ _ _ H2).
Defined.


(* --------------------------------------------------------------------- *)
(** ** Listing the chapters of a comic *)
(* --------------------------------------------------------------------- *)

Section OrderBy.
Import ComicChapterController.
Variable A : Type.
Variable leb : A -> A -> bool.
Hypothesis leb_total : forall a b, leb a b = true \/ leb b a = true.
Hypothesis leb_trans :
  forall a b c, leb a b = true -> leb b c = true -> leb a c = true.

Let R (a b : A) : Prop := leb a b = true.

Lemma Forall_insert_sorted (P : A -> Prop) (x : A) (l : list A) :
  P x -> Forall P l -> Forall P (insert_sorted leb x l).
Proof.
  intros Hx Hl. induction Hl as [| y l Hy Hl IH]; simpl.
  - constructor; [exact Hx | constructor].
  - destruct (leb x y).
    + constructor; [exact Hx |]. constructor; assumption.
    + constructor; assumption.
Qed.

Lemma insert_sorted_sorted (x : A) (l : list A) :
  StronglySorted R l -> StronglySorted R (insert_sorted leb x l).
Proof.
  intros Hl. induction Hl as [| y l Hl IH Hy]; simpl.
  - constructor; constructor.
  - destruct (leb x y) eqn:E.
    + constructor; [constructor; assumption |].
      constructor; [exact E |].
      eapply Forall_impl; [| exact Hy].
      intros z Hz. exact (leb_trans x y z E Hz).
    + constructor; [exact IH |].
      apply Forall_insert_sorted; [| exact Hy].
      destruct (leb_total x y) as [H | H]; [congruence | exact H].
Qed.

Lemma order_by_sorted (l : list A) : StronglySorted R (order_by leb l).
Proof.
  induction l as [| x l IH]; simpl.
  - constructor.
  - apply insert_sorted_sorted. exact IH.
Qed.

Lemma insert_sorted_perm (x : A) (l : list A) :
  Permutation (x :: l) (insert_sorted leb x l).
Proof.
  induction l as [| y l IH]; simpl; [reflexivity |].
  destruct (leb x y); [reflexivity |].
  rewrite perm_swap. constructor. exact IH.
Qed.

(** [ORDER BY] keeps the rows it is given. *)
Lemma order_by_perm (l : list A) : Permutation l (order_by leb l).
Proof.
  induction l as [| x l IH]; simpl; [reflexivity |].
  rewrite <- insert_sorted_perm. constructor. exact IH.
Qed.

End OrderBy.

Lemma StronglySorted_skipn {A} (R : A -> A -> Prop) (n : nat) (l : list A) :
  StronglySorted R l -> StronglySorted R (List.skipn n l).
Proof.
  revert l. induction n as [| n IH]; intros l H; simpl; [exact H |].
  destruct H as [| x l H _]; [constructor | apply IH; exact H].
Qed.

Lemma In_firstn {A} (n : nat) (l : list A) (y : A) :
  In y (List.firstn n l) -> In y l.
Proof.
  revert l. induction n as [| n IH]; intros [| x l] H; simpl in H;
    try contradiction.
  destruct H as [-> | H]; [left; reflexivity | right; apply IH; exact H].
Qed.

Lemma StronglySorted_firstn {A} (R : A -> A -> Prop) (n : nat) (l : list A) :
  StronglySorted R l -> StronglySorted R (List.firstn n l).
Proof.
  revert l. induction n as [| n IH]; intros l H; simpl; [constructor |].
  destruct H as [| x l H Hx]; [constructor |].
  constructor; [apply IH; exact H |].
  rewrite Forall_forall in *. intros y Hy. apply Hx.
  apply (In_firstn n). exact Hy.
Qed.

Lemma sorted_by_createdAt (l : list ComicChapterInterface.t) :
  StronglySorted
    (fun a b => Z.leb (ComicChapterInterface.createdAt a)
                  (ComicChapterInterface.createdAt b) = true) l ->
  StronglySorted
    (fun a b => (ComicChapterInterface.createdAt a
                 <= ComicChapterInterface.createdAt b)%Z) l.
Proof.
  induction 1 as [| x l _ IH Hx]; constructor; [exact IH |].
  eapply Forall_impl; [| exact Hx].
  intros y Hy. apply Z.leb_le. exact Hy.
Qed.

(** Within the safe integers the platform multiplies exactly and
    [parseInt] reads a number back as it is. *)
Lemma is_safe_range (z : Z) :
  (0 <= z <= ComicChapterController.MAX_SAFE_INTEGER)%Z ->
  ComicChapterController.is_safe z = true.
Proof.
  intros H. unfold ComicChapterController.is_safe. apply Z.leb_le. lia.
Qed.

Lemma multiply_safe (numbers : ComicChapterController.Numbers) (x y : Z) :
  ComicChapterController.is_safe (x * y) = true ->
  ComicChapterController.multiply numbers x y = (x * y)%Z.
Proof.
  intros H. unfold ComicChapterController.multiply. rewrite H. reflexivity.
Qed.

Lemma parseInt_safe (numbers : ComicChapterController.Numbers) (z : Z) :
  ComicChapterController.is_safe z = true ->
  ComicChapterController.parseInt numbers z = z.
Proof.
  intros H. unfold ComicChapterController.parseInt. rewrite H. reflexivity.
Qed.

(** The limit and the offset of the query built from a limit [L] and a
    page [P], when [L] and [P * L] are safe integers that are not
    negative. *)
Lemma build_query_safe (numbers : ComicChapterController.Numbers)
  (comicId : string) (L P : Z)
  (sortedBy : option string) (order : option ComicChapterController.Order) :
  (0 <= L <= ComicChapterController.MAX_SAFE_INTEGER)%Z ->
  (0 <= P * L <= ComicChapterController.MAX_SAFE_INTEGER)%Z ->
  let q :=
    ComicChapterController.build_query numbers comicId
      (Some {| ComicChapterController.limit := Some L;
               ComicChapterController.page := Some P;
               ComicChapterController.sortedBy := sortedBy;
               ComicChapterController.order := order |}) in
  ComicChapterController.q_limit q = (if Z.eqb L 0 then 3 else L)%Z /\
  ComicChapterController.q_offset q = (P * L)%Z.
Proof.
  intros HL HPL. simpl.
  cbn [ComicChapterController.field ComicChapterController.limit
       ComicChapterController.page ComicChapterController.times
       ComicChapterController.number_or].
  rewrite (multiply_safe numbers P L (is_safe_range _ HPL)).
  split.
  - destruct (Z.eqb_spec L 0) as [_ | _]; apply parseInt_safe.
    + reflexivity.
    + apply is_safe_range. exact HL.
  - destruct (Z.eqb_spec (P * L) 0) as [E | _].
    + rewrite E. apply parseInt_safe. reflexivity.
    + apply parseInt_safe, is_safe_range. exact HPL.
Qed.

(** C7, as amended. Called with a well-formed comic id and a filter that
    gives a limit [L] and a page [P], both integers that are not negative,
    with [L] and [P * L] no more than [MAX_SAFE_INTEGER], 2^53 - 1,
    [getChaptersFromComic] runs the query of that comic with offset
    [P * L]: pages count from zero. The limit of the query is [L], or 3 when
    [L] is 0. When the filter gives neither [sortedBy] nor [order], the
    query sorts by [createdAt], ascending; it returns whenever the database
    answers, and what it returns is the page cut at offset [P * L] out of
    the chapters of the comic put by ascending [createdAt], so the rows
    come by ascending [createdAt]. *)
Theorem getChaptersFromComic_offset_and_order
  (numbers : ComicChapterController.Numbers)
  (comicId : string) (L P : Z)
  (sortedBy : option string) (order : option ComicChapterController.Order) :
  Validator.isUUID comicId = true ->
  (0 <= L <= ComicChapterController.MAX_SAFE_INTEGER)%Z ->
  (0 <= P)%Z ->
  (P * L <= ComicChapterController.MAX_SAFE_INTEGER)%Z ->
  let filter :=
    Some {| ComicChapterController.limit := Some L;
            ComicChapterController.page := Some P;
            ComicChapterController.sortedBy := sortedBy;
            ComicChapterController.order := order |} in
  let q := ComicChapterController.build_query numbers comicId filter in
  (forall w,
      ComicChapterController.getChaptersFromComic numbers comicId filter w
      = ComicChapterController.run_query q w) /\
  ComicChapterController.q_comicId q = comicId /\
  ComicChapterController.q_offset q = (P * L)%Z /\
  ComicChapterController.q_limit q = (if Z.eqb L 0 then 3 else L)%Z /\
  (sortedBy = None -> order = None ->
   ComicChapterController.q_column q = "createdAt" /\
   ComicChapterController.q_order q = ComicChapterController.asc /\
   forall w,
     (fault w (List.length (log w)) = false ->
      exists rows,
        ComicChapterController.getChaptersFromComic numbers comicId filter w
        = (with_log w (log w ++ [Select TComicChapter]), Ok rows)) /\
     (forall w' rows,
         ComicChapterController.getChaptersFromComic numbers comicId filter w
         = (w', Ok rows) ->
         (exists sorted,
            Permutation
              (List.filter
                 (fun c => String.eqb (ComicChapterInterface.comicId c)
                             comicId)
                 (comic_chapters (db w)))
              sorted /\
            StronglySorted
              (fun a b => (ComicChapterInterface.createdAt a
                           <= ComicChapterInterface.createdAt b)%Z) sorted /\
            rows
            = List.firstn (Z.to_nat (if Z.eqb L 0 then 3 else L)%Z)
                (List.skipn (Z.to_nat (P * L)) sorted)) /\
         StronglySorted
           (fun a b => (ComicChapterInterface.createdAt a
                        <= ComicChapterInterface.createdAt b)%Z) rows)).
Proof.
  intros Hid HL HP HPL filter q.
  assert (HPL0 : (0 <= P * L <= ComicChapterController.MAX_SAFE_INTEGER)%Z)
    by (split; [nia | exact HPL]).
  destruct (build_query_safe numbers comicId L P sortedBy order HL HPL0)
    as [Hlim Hoff].
  fold filter in Hlim, Hoff. fold q in Hlim, Hoff.
  split.
  { intros w. unfold ComicChapterController.getChaptersFromComic.
    rewrite (isUUID_good_id _ Hid). reflexivity. }
  split; [reflexivity |].
  split; [exact Hoff |].
  split; [exact Hlim |].
  intros -> ->.
  split; [reflexivity |]. split; [reflexivity |].
  intros w.
  unfold ComicChapterController.getChaptersFromComic.
  rewrite (isUUID_good_id _ Hid).
  unfold ComicChapterController.run_query.
  change (ComicChapterController.column_leb
            (ComicChapterController.q_column
               (ComicChapterController.build_query numbers comicId filter)))
    with (Some (fun a b => Z.leb (ComicChapterInterface.createdAt a)
                             (ComicChapterInterface.createdAt b))).
  fold q. rewrite Hoff, Hlim.
  assert (Hlimit : ((if Z.eqb L 0 then 3 else L) <? 0)%Z = false).
  { destruct (Z.eqb_spec L 0); apply Z.ltb_ge; lia. }
  assert (Hoffset : (P * L <? 0)%Z = false) by (apply Z.ltb_ge; lia).
  rewrite Hlimit, Hoffset.
  assert (Hsorted :
            StronglySorted
              (fun a b => (ComicChapterInterface.createdAt a
                           <= ComicChapterInterface.createdAt b)%Z)
              (ComicChapterController.order_by
                 (fun a b => Z.leb (ComicChapterInterface.createdAt a)
                               (ComicChapterInterface.createdAt b))
                 (List.filter
                    (fun c => String.eqb (ComicChapterInterface.comicId c)
                                comicId)
                    (comic_chapters (db w))))).
  { apply sorted_by_createdAt, order_by_sorted.
    - intros a b.
      destruct (Z.leb_spec (ComicChapterInterface.createdAt a)
                  (ComicChapterInterface.createdAt b));
        [left; reflexivity | right; apply Z.leb_le; lia].
    - intros a b c Hab Hbc.
      apply Z.leb_le. apply Z.leb_le in Hab, Hbc. lia. }
  split.
  - intros Hf. rewrite (query_ok _ _ _ Hf).
    unfold ComicChapterController.select_chapters. simpl fst.
    rewrite with_db_same. eexists. reflexivity.
  - intros w' rows Hrun.
    unfold query in Hrun.
    destruct (fault w (List.length (log w))); [discriminate |].
    unfold ComicChapterController.select_chapters in Hrun.
    injection Hrun as _ Hrows.
    change (ComicChapterController.parseInt numbers
              (if (L =? 0)%Z then 3%Z else L))
      with (ComicChapterController.q_limit q) in Hrows.
    change (ComicChapterController.parseInt numbers
              (if (ComicChapterController.multiply numbers P L =? 0)%Z
               then 0%Z
               else ComicChapterController.multiply numbers P L))
      with (ComicChapterController.q_offset q) in Hrows.
    rewrite Hoff, Hlim in Hrows.
    subst rows. split.
    + eexists. split; [apply order_by_perm |].
      split; [exact Hsorted | reflexivity].
    + apply StronglySorted_firstn, StronglySorted_skipn. exact Hsorted.
Qed.

Example getChaptersFromComic_second_page :
  snd (ComicChapterController.getChaptersFromComic Sample.numbers
         (Sample.uuid_values 0)
         (Some {| ComicChapterController.limit := Some 2%Z;
                  ComicChapterController.page := Some 1%Z;
                  ComicChapterController.sortedBy := None;
                  ComicChapterController.order := None |})
         (Sample.world Sample.chapters))
  = Ok [Sample.chapter "c3" 30; Sample.chapter "c4" 40].
Proof. reflexivity. Qed.

Example getChaptersFromComic_no_filter :
  snd (ComicChapterController.getChaptersFromComic Sample.numbers
         (Sample.uuid_values 0) None (Sample.world Sample.chapters))
  = Ok [Sample.chapter "c1" 10; Sample.chapter "c2" 20;
        Sample.chapter "c3" 30].
Proof. reflexivity. Qed.

Lemma getChaptersFromComic_offset_and_order_witness :
  Validator.isUUID (Sample.uuid_values 0) = true /\
  (0 <= 2 <= ComicChapterController.MAX_SAFE_INTEGER)%Z /\
  (0 <= 1)%Z /\
  (1 * 2 <= ComicChapterController.MAX_SAFE_INTEGER)%Z /\
  ComicChapterController.q_offset
    (ComicChapterController.build_query Sample.numbers (Sample.uuid_values 0)
       (Some {| ComicChapterController.limit := Some 2%Z;
                ComicChapterController.page := Some 1%Z;
                ComicChapterController.sortedBy := None;
                ComicChapterController.order := None |}))
  = (1 * 2)%Z /\
  ComicChapterController.getChaptersFromComic Sample.numbers
    (Sample.uuid_values 0)
    (Some {| ComicChapterController.limit := Some 2%Z;
             ComicChapterController.page := Some 1%Z;
             ComicChapterController.sortedBy := None;
             ComicChapterController.order := None |})
    (Sample.world Sample.chapters)
  = (with_log (Sample.world Sample.chapters) [Select TComicChapter],
     Ok [Sample.chapter "c3" 30; Sample.chapter "c4" 40]) /\
  StronglySorted
    (fun a b => (ComicChapterInterface.createdAt a
                 <= ComicChapterInterface.createdAt b)%Z)
    [Sample.chapter "c3" 30; Sample.chapter "c4" 40].
Proof.
  assert (H1 : (0 <= 2 <= ComicChapterController.MAX_SAFE_INTEGER)%Z)
    by (unfold ComicChapterController.MAX_SAFE_INTEGER; lia).
  assert (H2 : (0 <= 1)%Z) by lia.
  assert (H3 : (1 * 2 <= ComicChapterController.MAX_SAFE_INTEGER)%Z)
    by (unfold ComicChapterController.MAX_SAFE_INTEGER; lia).
  split; [reflexivity |].
  split; [exact H1 |]. split; [exact H2 |]. split; [exact H3 |].
  destruct (getChaptersFromComic_offset_and_order Sample.numbers
              (Sample.uuid_values 0) 2%Z 1%Z None None eq_refl H1 H2 H3)
    as (_ & _ & Hoffset & _ & Hdefault).
  split; [exact Hoffset |].
  destruct (Hdefault eq_refl eq_refl) as (_ & _ & Hrun).
  destruct (Hrun (Sample.world Sample.chapters)) as (_ & Hrows).
  split; [reflexivity |].
  exact (proj2 (Hrows _ _ eq_refl)).
Defined.

(** C7, as stated, fails outside the safe integers that are not negative.
    With limit 2 and page -1 there is no query: knex's [offset] throws while
    the query is built, and nothing is sent. With limit 2 and page 5 * 10^20
    the product is 10^21, which prints as 1e+21, and the offset knex keeps
    is 1; a limit of 10^21 is kept as 1 in the same way. *)
Lemma getChaptersFromComic_offset_out_of_range :
  Validator.isUUID (Sample.uuid_values 0) = true /\
  ComicChapterController.getChaptersFromComic Sample.numbers
    (Sample.uuid_values 0)
    (Some {| ComicChapterController.limit := Some 2%Z;
             ComicChapterController.page := Some (-1)%Z;
             ComicChapterController.sortedBy := None;
             ComicChapterController.order := None |})
    (Sample.world Sample.chapters)
  = (Sample.world Sample.chapters,
     Throw (JsError "A non-negative integer must be provided to offset.")) /\
  ComicChapterController.q_offset
    (ComicChapterController.build_query Sample.numbers (Sample.uuid_values 0)
       (Some {| ComicChapterController.limit := Some 2%Z;
                ComicChapterController.page := Some (5 * 10 ^ 20)%Z;
                ComicChapterController.sortedBy := None;
                ComicChapterController.order := None |}))
  = 1%Z /\
  (5 * 10 ^ 20 * 2 <> 1)%Z /\
  ComicChapterController.q_limit
    (ComicChapterController.build_query Sample.numbers (Sample.uuid_values 0)
       (Some {| ComicChapterController.limit := Some (10 ^ 21)%Z;
                ComicChapterController.page := Some 0%Z;
                ComicChapterController.sortedBy := None;
                ComicChapterController.order := None |}))
  = 1%Z.
Proof.
  split; [reflexivity |].
  split; [reflexivity |].
  split; [vm_compute; reflexivity |].
  split; [intros H; vm_compute in H; discriminate H |].
  vm_compute. reflexivity.
Qed.


(* --------------------------------------------------------------------- *)
(** ** Updating a profile *)
(* --------------------------------------------------------------------- *)

Lemma permission_eqb_eq (a b : PermissionInterface.PermissionEnum) :
  PermissionInterface.eqb a b = true <-> a = b.
Proof.
  destruct a as [| n], b as [| m]; simpl; split; intros H;
    try reflexivity; try discriminate.
  - apply Nat.eqb_eq in H. subst. reflexivity.
  - injection H as ->. apply Nat.eqb_refl.
Qed.

Lemma hasPermission_In (u : User.t) (p : PermissionInterface.PermissionEnum) :
  User.hasPermission u p = true <-> In p (User.getPermissions u).
Proof.
  unfold User.hasPermission. rewrite existsb_exists. split.
  - intros (x & Hx & E). apply permission_eqb_eq in E. subst. exact Hx.
  - intros H. exists p. split; [exact H | apply permission_eqb_eq; reflexivity].
Qed.

Lemma put_profile_denied
  (isValidNickname : string -> bool)
  (isValidIntroduction : option string -> bool)
  (req : UserRouter.Request) (token : UserRouter.Token) (user : User.t)
  (w : World) :
  UserRouter.TokenRequest req = Some token ->
  UserRouter.UserRequest req = Some user ->
  User.hasPermission user PermissionInterface.USER_UPDATE_PROFILE = false ->
  UserRouter.put_profile isValidNickname isValidIntroduction req w
  = (w, Ok (UserRouter.next
              {| UserRouter.message :=
                   UserRouter.Localized Locale.Unauthorized;
                 UserRouter.status := 401 |})).
Proof.
  intros Ht Hu Hp. unfold UserRouter.put_profile.
  rewrite Ht, Hu, Hp. reflexivity.
Qed.

(** C1. On [PUT /profile] from an authenticated user whose permission set
    does not hold [USER_UPDATE_PROFILE], the handler answers with the
    [Unauthorized] error, status 401, and leaves the world as it was: no
    statement is sent, no row changes. Whenever the handler does change
    anything, the user holds the permission. *)
Theorem put_profile_requires_permission
  (isValidNickname : string -> bool)
  (isValidIntroduction : option string -> bool)
  (req : UserRouter.Request) (token : UserRouter.Token) (user : User.t)
  (w : World) :
  UserRouter.TokenRequest req = Some token ->
  UserRouter.UserRequest req = Some user ->
  (~ In PermissionInterface.USER_UPDATE_PROFILE (User.getPermissions user) ->
   UserRouter.put_profile isValidNickname isValidIntroduction req w
   = (w, Ok (UserRouter.next
               {| UserRouter.message :=
                    UserRouter.Localized Locale.Unauthorized;
                  UserRouter.status := 401 |}))) /\
  (forall w' r,
      UserRouter.put_profile isValidNickname isValidIntroduction req w
      = (w', r) ->
      w' <> w ->
      In PermissionInterface.USER_UPDATE_PROFILE (User.getPermissions user)).
Proof.
  intros Ht Hu.
  destruct (User.hasPermission user PermissionInterface.USER_UPDATE_PROFILE)
    eqn:Hp.
  - apply hasPermission_In in Hp. split.
    + intros Hn. contradiction.
    + intros _ _ _ _. exact Hp.
  - pose proof (put_profile_denied isValidNickname isValidIntroduction
                  req token user w Ht Hu Hp) as Hrun.
    split.
    + intros _. exact Hrun.
    + intros w' r H Hw. rewrite Hrun in H. injection H as <- _.
      contradiction.
Qed.

Lemma put_profile_requires_permission_witness :
  ~ In PermissionInterface.USER_UPDATE_PROFILE
      (User.getPermissions
         (Sample.user_of [PermissionInterface.OTHER_PERMISSION 3])) /\
  UserRouter.put_profile Sample.isValidNickname Sample.isValidIntroduction
    (Sample.authenticated (Sample.user_of [PermissionInterface.OTHER_PERMISSION 3])
       (Sample.body_of None None None (Some "Annie") None))
    (Sample.world Sample.with_ann)
  = (Sample.world Sample.with_ann,
     Ok (UserRouter.next
           {| UserRouter.message := UserRouter.Localized Locale.Unauthorized;
              UserRouter.status := 401 |})) /\
  UserRouter.put_profile Sample.isValidNickname Sample.isValidIntroduction
    (Sample.authenticated
       (Sample.user_of [PermissionInterface.USER_UPDATE_PROFILE])
       (Sample.body_of None None None (Some "Annie") None))
    (Sample.world Sample.with_ann)
  = (Sample.after_rename, Ok (UserRouter.end_ 204)) /\
  Sample.after_rename <> Sample.world Sample.with_ann /\
  In PermissionInterface.USER_UPDATE_PROFILE
    (User.getPermissions
       (Sample.user_of [PermissionInterface.USER_UPDATE_PROFILE])).
Proof.
  assert (Hn : ~ In PermissionInterface.USER_UPDATE_PROFILE
                 (User.getPermissions
                    (Sample.user_of [PermissionInterface.OTHER_PERMISSION 3]))).
  { simpl. intros [H | []]. discriminate. }
  assert (Hrun : UserRouter.put_profile Sample.isValidNickname
                   Sample.isValidIntroduction
                   (Sample.authenticated
                      (Sample.user_of
                         [PermissionInterface.USER_UPDATE_PROFILE])
                      (Sample.body_of None None None (Some "Annie") None))
                   (Sample.world Sample.with_ann)
                 = (Sample.after_rename, Ok (UserRouter.end_ 204)))
    by reflexivity.
  assert (Hw : Sample.after_rename <> Sample.world Sample.with_ann)
    by (intros H; discriminate H).
  split; [exact Hn |].
  split.
  { exact (proj1 (put_profile_requires_permission Sample.isValidNickname
                    Sample.isValidIntroduction
                    (Sample.authenticated
                       (Sample.user_of
                          [PermissionInterface.OTHER_PERMISSION 3])
                       (Sample.body_of None None None (Some "Annie") None))
                    Sample.token
                    (Sample.user_of [PermissionInterface.OTHER_PERMISSION 3])
                    (Sample.world Sample.with_ann) eq_refl eq_refl) Hn). }
  split; [exact Hrun |]. split; [exact Hw |].
  exact (proj2 (put_profile_requires_permission Sample.isValidNickname
                  Sample.isValidIntroduction
                  (Sample.authenticated
                     (Sample.user_of
                        [PermissionInterface.USER_UPDATE_PROFILE])
                     (Sample.body_of None None None (Some "Annie") None))
                  Sample.token
                  (Sample.user_of [PermissionInterface.USER_UPDATE_PROFILE])
                  (Sample.world Sample.with_ann) eq_refl eq_refl)
           Sample.after_rename (Ok (UserRouter.end_ 204)) Hrun Hw).
Defined.

Example put_profile_renames :
  users (db Sample.after_rename)
  = [{| UserInterface.id := UserInterface.id Sample.ann;
        UserInterface.username := "ann";
        UserInterface.password := UserInterface.password Sample.ann;
        UserInterface.email := "ann@x.com";
        UserInterface.nickname := "Annie";
        UserInterface.introduction := "" |}].
Proof. reflexivity. Qed.

(** C9, as amended. On [PUT /profile] from an authenticated user who holds
    [USER_UPDATE_PROFILE], with neither a nickname nor an introduction in
    the body (absent or empty), the handler answers 304 and leaves the
    world as it was: no statement is sent and no field of any row
    changes. *)
Theorem put_profile_without_fields
  (isValidNickname : string -> bool)
  (isValidIntroduction : option string -> bool)
  (req : UserRouter.Request) (token : UserRouter.Token) (user : User.t)
  (w : World) :
  UserRouter.TokenRequest req = Some token ->
  UserRouter.UserRequest req = Some user ->
  In PermissionInterface.USER_UPDATE_PROFILE (User.getPermissions user) ->
  JsString.falsy_opt (UserRouter.nickname (UserRouter.body req)) = true ->
  JsString.falsy_opt (UserRouter.introduction (UserRouter.body req)) = true ->
  UserRouter.put_profile isValidNickname isValidIntroduction req w
  = (w, Ok (UserRouter.end_ 304)).
Proof.
  intros Ht Hu Hp Hn Hi. apply hasPermission_In in Hp.
  unfold UserRouter.put_profile. rewrite Ht, Hu, Hp, Hn, Hi. reflexivity.
Qed.

Lemma put_profile_without_fields_witness :
  In PermissionInterface.USER_UPDATE_PROFILE
    (User.getPermissions
       (Sample.user_of [PermissionInterface.USER_UPDATE_PROFILE])) /\
  UserRouter.put_profile Sample.isValidNickname Sample.isValidIntroduction
    (Sample.authenticated
       (Sample.user_of [PermissionInterface.USER_UPDATE_PROFILE])
       (Sample.body_of None None None None (Some "")))
    (Sample.world Sample.with_ann)
  = (Sample.world Sample.with_ann, Ok (UserRouter.end_ 304)).
Proof.
  assert (Hp : In PermissionInterface.USER_UPDATE_PROFILE
                 (User.getPermissions
                    (Sample.user_of
                       [PermissionInterface.USER_UPDATE_PROFILE])))
    by (left; reflexivity).
  split; [exact Hp |].
  exact (put_profile_without_fields Sample.isValidNickname
           Sample.isValidIntroduction
           (Sample.authenticated
              (Sample.user_of [PermissionInterface.USER_UPDATE_PROFILE])
              (Sample.body_of None None None None (Some "")))
           Sample.token
           (Sample.user_of [PermissionInterface.USER_UPDATE_PROFILE])
           (Sample.world Sample.with_ann) eq_refl eq_refl Hp eq_refl eq_refl).
Defined.

(** C9, as stated, fails for an authenticated user without the permission:
    with no field in the body the answer is the 401 error, not 304. *)
Lemma put_profile_without_fields_unauthorized :
  UserRouter.put_profile Sample.isValidNickname Sample.isValidIntroduction
    (Sample.authenticated (Sample.user_of [])
       (Sample.body_of None None None None None))
    (Sample.world Sample.with_ann)
  = (Sample.world Sample.with_ann,
     Ok (UserRouter.next
           {| UserRouter.message := UserRouter.Localized Locale.Unauthorized;
              UserRouter.status := 401 |})).
Proof. reflexivity. Qed.


(* --------------------------------------------------------------------- *)
(** ** Signing in *)
(* --------------------------------------------------------------------- *)

(** The lookup by username, when the database answers it. *)
Lemma getUserFromUsername_ok (username : string) (w : World) :
  fault w (List.length (log w)) = false ->
  UserController.getUserFromUsername username w
  = (with_log w (log w ++ [Select TUser]),
     Ok (first (UserController.where_username username (db w)))).
Proof.
  intros Hf. unfold UserController.getUserFromUsername.
  rewrite (query_ok _ _ _ Hf). unfold UserController.select_username.
  simpl fst. simpl snd. rewrite with_db_same. reflexivity.
Qed.

Lemma where_username_absent (username : string) (d : Database) :
  (forall x, In x (users d) -> UserInterface.username x <> username) ->
  UserController.where_username username d = [].
Proof.
  intros H. unfold UserController.where_username. apply filter_none.
  intros x Hx. apply String.eqb_neq. apply H. exact Hx.
Qed.

Lemma where_username_present (username : string) (d : Database)
  (user : UserInterface.t) :
  In user (users d) ->
  UserInterface.username user = username ->
  exists found,
    first (UserController.where_username username d) = Some found /\
    In found (users d) /\ UserInterface.username found = username.
Proof.
  intros Hin Hname.
  assert (H : In user (UserController.where_username username d)).
  { unfold UserController.where_username. apply filter_In.
    split; [exact Hin | apply String.eqb_eq; exact Hname]. }
  destruct (UserController.where_username username d) as [| found rest] eqn:E;
    [contradiction |].
  exists found. split; [reflexivity |].
  assert (Hf : In found (UserController.where_username username d))
    by (rewrite E; left; reflexivity).
  unfold UserController.where_username in Hf. apply filter_In in Hf.
  destruct Hf as [Hf1 Hf2]. split; [exact Hf1 |].
  apply String.eqb_eq. exact Hf2.
Qed.

(** C4, as amended. On a signin request with a username and a password,
    the lookup going through: when no user has the username the answer is
    the error [UserNotFound] with status 400; when a user has it and the
    password does not match the stored hash the answer is the error
    [IncorrectPassword] with status 400. The status is the same, the
    messages are not: the answer tells whether the username exists. *)
Theorem signin_rejections
  (compareSync : string -> string -> bool)
  (req : UserRouter.Request) (w : World) :
  JsString.falsy_opt (UserRouter.username (UserRouter.body req)) = false ->
  JsString.falsy_opt (UserRouter.password (UserRouter.body req)) = false ->
  fault w (List.length (log w)) = false ->
  let username := UserRouter.or_empty (UserRouter.username (UserRouter.body req)) in
  let password := UserRouter.or_empty (UserRouter.password (UserRouter.body req)) in
  let rejected m :=
    (with_log w (log w ++ [Select TUser]),
     Ok (UserRouter.next {| UserRouter.message := UserRouter.Localized m;
                            UserRouter.status := 400 |})) in
  ((forall x, In x (users (db w)) -> UserInterface.username x <> username) ->
   UserRouter.signin compareSync req w = rejected Locale.UserNotFound) /\
  (forall user,
      first (UserController.where_username username (db w)) = Some user ->
      compareSync password (UserInterface.password user) = false ->
      UserRouter.signin compareSync req w
      = rejected Locale.IncorrectPassword) /\
  rejected Locale.UserNotFound <> rejected Locale.IncorrectPassword.
Proof.
  intros Hu Hp Hf username password rejected.
  unfold UserRouter.signin, bind. rewrite Hu, Hp.
  cbv beta iota delta [orb]. rewrite (getUserFromUsername_ok _ _ Hf).
  fold username. fold password.
  split; [| split].
  - intros Habsent. rewrite (where_username_absent _ _ Habsent).
    reflexivity.
  - intros user Hfound Hwrong. rewrite Hfound, Hwrong. reflexivity.
  - unfold rejected. intros H. discriminate H.
Qed.

Lemma signin_rejections_witness :
  JsString.falsy_opt (Some "ann") = false /\
  JsString.falsy_opt (Some "letmein") = false /\
  fault (Sample.world Sample.with_ann)
    (List.length (log (Sample.world Sample.with_ann))) = false /\
  first (UserController.where_username "ann"
           (db (Sample.world Sample.with_ann))) = Some Sample.ann /\
  Sample.compareSync "letmein" (UserInterface.password Sample.ann) = false /\
  UserRouter.signin Sample.compareSync
    (Sample.anonymous
       (Sample.body_of (Some "ann") (Some "letmein") None None None))
    (Sample.world Sample.with_ann)
  = (with_log (Sample.world Sample.with_ann) [Select TUser],
     Ok (UserRouter.next
           {| UserRouter.message :=
                UserRouter.Localized Locale.IncorrectPassword;
              UserRouter.status := 400 |})) /\
  (forall x, In x (users (db (Sample.world Sample.empty))) ->
             UserInterface.username x <> "ann") /\
  UserRouter.signin Sample.compareSync
    (Sample.anonymous
       (Sample.body_of (Some "ann") (Some "letmein") None None None))
    (Sample.world Sample.empty)
  = (with_log (Sample.world Sample.empty) [Select TUser],
     Ok (UserRouter.next
           {| UserRouter.message := UserRouter.Localized Locale.UserNotFound;
              UserRouter.status := 400 |})).
Proof.
  assert (Hnone : forall x, In x (users (db (Sample.world Sample.empty))) ->
                            UserInterface.username x <> "ann")
    by (intros x Hx; simpl in Hx; contradiction).
  do 5 (split; [reflexivity |]).
  split.
  { exact (proj1 (proj2 (signin_rejections Sample.compareSync
                           (Sample.anonymous
                              (Sample.body_of (Some "ann") (Some "letmein")
                                 None None None))
                           (Sample.world Sample.with_ann)
                           eq_refl eq_refl eq_refl))
             Sample.ann eq_refl eq_refl). }
  split; [exact Hnone |].
  exact (proj1 (signin_rejections Sample.compareSync
                  (Sample.anonymous
                     (Sample.body_of (Some "ann") (Some "letmein")
                        None None None))
                  (Sample.world Sample.empty)
                  eq_refl eq_refl eq_refl) Hnone).
Defined.

(** C4, as stated, fails: the same request with a wrong password gets the
    error [IncorrectPassword] where the username exists and the error
    [UserNotFound] where it does not. *)
Lemma signin_reveals_username :
  snd (UserRouter.signin Sample.compareSync
         (Sample.anonymous
            (Sample.body_of (Some "ann") (Some "letmein") None None None))
         (Sample.world Sample.with_ann))
  = Ok (UserRouter.next
          {| UserRouter.message :=
               UserRouter.Localized Locale.IncorrectPassword;
             UserRouter.status := 400 |}) /\
  snd (UserRouter.signin Sample.compareSync
         (Sample.anonymous
            (Sample.body_of (Some "ann") (Some "letmein") None None None))
         (Sample.world Sample.empty))
  = Ok (UserRouter.next
          {| UserRouter.message := UserRouter.Localized Locale.UserNotFound;
             UserRouter.status := 400 |}) /\
  snd (UserRouter.signin Sample.compareSync
         (Sample.anonymous
            (Sample.body_of (Some "ann") (Some "letmein") None None None))
         (Sample.world Sample.with_ann))
  <> snd (UserRouter.signin Sample.compareSync
            (Sample.anonymous
               (Sample.body_of (Some "ann") (Some "letmein") None None None))
            (Sample.world Sample.empty)).
Proof.
  split; [reflexivity |]. split; [reflexivity |].
  intros H. discriminate H.
Qed.

Example signin_correct_password :
  snd (UserRouter.signin Sample.compareSync
         (Sample.anonymous
            (Sample.body_of (Some "ann") (Some "p@ssW0rd") None None None))
         (Sample.world Sample.with_ann))
  = Ok (UserRouter.json 200 (UserRouter.TokenBody Sample.token)).
Proof. reflexivity. Qed.

(* --------------------------------------------------------------------- *)
(** ** Signing up *)
(* --------------------------------------------------------------------- *)

Lemma hasUserByUsername_ok (username : string) (w : World) :
  fault w (List.length (log w)) = false ->
  UserController.hasUserByUsername username w
  = (with_log w (log w ++ [Select TUser]),
     Ok (match first (UserController.where_username username (db w)) with
         | Some _ => true
         | None => false
         end)).
Proof.
  intros Hf. unfold UserController.hasUserByUsername, bind.
  rewrite (getUserFromUsername_ok _ _ Hf). reflexivity.
Qed.

Lemma hasUserByUsername_fault (username : string) (w : World) :
  fault w (List.length (log w)) = true ->
  UserController.hasUserByUsername username w
  = (with_log w (log w ++ [Select TUser]),
     Throw (DbError (List.length (log w)))).
Proof.
  intros Hf. unfold UserController.hasUserByUsername, bind,
    UserController.getUserFromUsername.
  rewrite (query_fault _ _ _ Hf). reflexivity.
Qed.

Lemma with_log_same (w : World) : with_log w (log w) = w.
Proof. destruct w; reflexivity. Qed.

(** C8, as amended. On a signup request whose username is the one of a
    stored user, nothing is written: the tables stay as they were, and the
    answer is an error of status 400 or, when the lookup fails, 500. When
    the request also passes the checks that come first (the four required
    fields, the nickname, the email, the introduction) and the lookup goes
    through, the answer is the error [UserAlreadyExists] with status
    400. *)
Theorem signup_existing_username
  (isValidNickname : string -> bool)
  (isValidIntroduction : option string -> bool)
  (isEmail : string -> bool) (hashSync : string -> string)
  (req : UserRouter.Request) (w : World) (user : UserInterface.t) :
  In user (users (db w)) ->
  UserRouter.username (UserRouter.body req)
  = Some (UserInterface.username user) ->
  let b := UserRouter.body req in
  let run :=
    UserRouter.signup isValidNickname isValidIntroduction isEmail hashSync
      req w in
  (db (fst run) = db w /\
   exists m s,
     snd run = Ok (UserRouter.next {| UserRouter.message := m;
                                      UserRouter.status := s |}) /\
     (s = 400%Z \/ s = 500%Z)) /\
  (JsString.falsy_opt (UserRouter.username b) = false ->
   JsString.falsy_opt (UserRouter.password b) = false ->
   JsString.falsy_opt (UserRouter.email b) = false ->
   JsString.falsy_opt (UserRouter.nickname b) = false ->
   isValidNickname (UserRouter.or_empty (UserRouter.nickname b)) = true ->
   isEmail (UserRouter.or_empty (UserRouter.email b)) = true ->
   isValidIntroduction (UserRouter.introduction b) = true ->
   fault w (List.length (log w)) = false ->
   run = (with_log w (log w ++ [Select TUser]),
          Ok (UserRouter.next
                {| UserRouter.message :=
                     UserRouter.Localized Locale.UserAlreadyExists;
                   UserRouter.status := 400 |}))).
Proof.
  intros Hin Hname b run.
  assert (Hb : UserRouter.username b = Some (UserInterface.username user))
    by exact Hname.
  destruct (where_username_present (UserInterface.username user) (db w) user
              Hin eq_refl) as (found & Hfound & _).
  assert (Hlookup :
            forall (x : World * Result UserRouter.Response) l m s,
              x = (with_log w l,
                   Ok (UserRouter.next {| UserRouter.message := m;
                                          UserRouter.status := s |})) ->
              s = 400%Z \/ s = 500%Z ->
              db (fst x) = db w /\
              exists m s,
                snd x = Ok (UserRouter.next {| UserRouter.message := m;
                                               UserRouter.status := s |}) /\
                (s = 400%Z \/ s = 500%Z)).
  { intros x l m s -> Hs. split; [reflexivity |].
    exists m, s. split; [reflexivity | exact Hs]. }
  assert (Hexists :
            fault w (List.length (log w)) = false ->
            (exists_ <- UserController.hasUserByUsername
                          (UserInterface.username user) ;;
             if exists_
             then UserRouter.next_error Locale.UserAlreadyExists 400
             else
               responseUser <- UserController.createUser hashSync
                                 (UserInterface.username user)
                                 (UserRouter.or_empty (UserRouter.password b))
                                 (UserRouter.or_empty (UserRouter.email b))
                                 (UserRouter.or_empty (UserRouter.nickname b))
                                 (UserRouter.or_empty
                                    (UserRouter.introduction b)) ;;
               ret (UserRouter.json 201
                      (UserRouter.UserBody
                         {| UserRouter.created_id :=
                              UserInterface.id responseUser;
                            UserRouter.created_username :=
                              UserInterface.username responseUser;
                            UserRouter.created_email :=
                              UserInterface.email responseUser;
                            UserRouter.created_nickname :=
                              UserInterface.nickname responseUser;
                            UserRouter.created_introduction :=
                              UserInterface.introduction responseUser |})))%js
              w
            = (with_log w (log w ++ [Select TUser]),
               Ok (UserRouter.next
                     {| UserRouter.message :=
                          UserRouter.Localized Locale.UserAlreadyExists;
                        UserRouter.status := 400 |}))).
  { intros Hf. unfold bind at 1.
    rewrite (hasUserByUsername_ok _ _ Hf), Hfound. reflexivity. }
  split.
  - subst run. unfold UserRouter.signup, try_catch. fold b.
    rewrite Hb. cbn [UserRouter.or_empty].
    destruct (JsString.falsy_opt (Some (UserInterface.username user))
              || JsString.falsy_opt (UserRouter.password b)
              || JsString.falsy_opt (UserRouter.email b)
              || JsString.falsy_opt (UserRouter.nickname b)).
    { apply (Hlookup _ (log w) (UserRouter.Localized
                                Locale.MissingRequiredFields) 400%Z);
        [ rewrite with_log_same; reflexivity | left; reflexivity ]. }
    destruct (negb (isValidNickname
                      (UserRouter.or_empty (UserRouter.nickname b)))).
    { apply (Hlookup _ (log w) (UserRouter.Localized Locale.InvalidNickname)
               400%Z);
        [ rewrite with_log_same; reflexivity | left; reflexivity ]. }
    destruct (negb (isEmail (UserRouter.or_empty (UserRouter.email b)))).
    { apply (Hlookup _ (log w) (UserRouter.Localized Locale.InvalidEmail)
               400%Z);
        [ rewrite with_log_same; reflexivity | left; reflexivity ]. }
    destruct (negb (isValidIntroduction (UserRouter.introduction b))).
    { apply (Hlookup _ (log w) (UserRouter.Localized
                                Locale.InvalidIntroduction) 400%Z);
        [ rewrite with_log_same; reflexivity | left; reflexivity ]. }
    destruct (fault w (List.length (log w))) eqn:Hf.
    + apply (Hlookup _ (log w ++ [Select TUser])
               (UserRouter.Literal "UnexpectedError") 500%Z);
        [| right; reflexivity ].
      unfold bind at 1. rewrite (hasUserByUsername_fault _ _ Hf).
      reflexivity.
    + apply (Hlookup _ (log w ++ [Select TUser])
               (UserRouter.Localized Locale.UserAlreadyExists) 400%Z);
        [| left; reflexivity ].
      rewrite (Hexists eq_refl). reflexivity.
  - intros Hu Hp He Hn Hnick Hemail Hintro Hf.
    subst run. unfold UserRouter.signup, try_catch. fold b.
    rewrite Hu, Hp, He, Hn, Hnick, Hemail, Hintro.
    cbv beta iota delta [orb negb].
    rewrite Hb. cbn [UserRouter.or_empty].
    rewrite (Hexists Hf). reflexivity.
Qed.

Lemma signup_existing_username_witness :
  In Sample.ann (users (db (Sample.world Sample.with_ann))) /\
  UserRouter.signup Sample.isValidNickname Sample.isValidIntroduction
    Sample.isEmail Sample.hashSync
    (Sample.anonymous
       (Sample.body_of (Some "ann") (Some "hunter2") (Some "ann@y.org")
          (Some "Other Ann") None))
    (Sample.world Sample.with_ann)
  = (with_log (Sample.world Sample.with_ann) [Select TUser],
     Ok (UserRouter.next
           {| UserRouter.message :=
                UserRouter.Localized Locale.UserAlreadyExists;
              UserRouter.status := 400 |})).
Proof.
  assert (Hin : In Sample.ann (users (db (Sample.world Sample.with_ann))))
    by (left; reflexivity).
  split; [exact Hin |].
  exact (proj2 (signup_existing_username Sample.isValidNickname
                  Sample.isValidIntroduction Sample.isEmail Sample.hashSync
                  (Sample.anonymous
                     (Sample.body_of (Some "ann") (Some "hunter2")
                        (Some "ann@y.org") (Some "Other Ann") None))
                  (Sample.world Sample.with_ann) Sample.ann Hin eq_refl)
           eq_refl eq_refl eq_refl eq_refl eq_refl eq_refl eq_refl eq_refl).
Defined.

(** C8, as stated, fails on a request that names a stored user and leaves
    the password out: the answer is the error [MissingRequiredFields], not
    [UserAlreadyExists]. *)
Lemma signup_existing_username_missing_password :
  In Sample.ann (users (db (Sample.world Sample.with_ann))) /\
  UserRouter.signup Sample.isValidNickname Sample.isValidIntroduction
    Sample.isEmail Sample.hashSync
    (Sample.anonymous
       (Sample.body_of (Some "ann") None (Some "ann@y.org")
          (Some "Other Ann") None))
    (Sample.world Sample.with_ann)
  = (Sample.world Sample.with_ann,
     Ok (UserRouter.next
           {| UserRouter.message :=
                UserRouter.Localized Locale.MissingRequiredFields;
              UserRouter.status := 400 |})).
Proof. split; [left; reflexivity | reflexivity]. Qed.

Example signup_new_user :
  snd (UserRouter.signup Sample.isValidNickname Sample.isValidIntroduction
         Sample.isEmail Sample.hashSync
         (Sample.anonymous
            (Sample.body_of (Some "bob") (Some "hunter2") (Some "bob@y.org")
               (Some "Bob") None))
         (Sample.world Sample.with_ann))
  = Ok (UserRouter.json 201
          (UserRouter.UserBody
             {| UserRouter.created_id := Sample.uuid_values 0;
                UserRouter.created_username := "bob";
                UserRouter.created_email := "bob@y.org";
                UserRouter.created_nickname := "Bob";
                UserRouter.created_introduction := "" |})).
Proof. reflexivity. Qed.


(* ===================================================================== *)
(** * Further properties of the controllers *)
(* ===================================================================== *)

(* --------------------------------------------------------------------- *)
(** ** Counting views *)
(* --------------------------------------------------------------------- *)

Lemma set_comics_same (d : Database) : set_comics d (comics d) = d.
Proof. destruct d; reflexivity. Qed.

Lemma set_comics_twice (d : Database) (l1 l2 : list ComicInterface.t) :
  set_comics (set_comics d l1) l2 = set_comics d l2.
Proof. reflexivity. Qed.

Lemma with_views_same (c : ComicInterface.t) :
  Scenario.with_views c (ComicInterface.views c) = c.
Proof. destruct c; reflexivity. Qed.

Lemma add_views_zero (id : string) (c : ComicInterface.t) :
  Scenario.add_views id 0 c = c.
Proof.
  unfold Scenario.add_views. destruct (String.eqb (ComicInterface.id c) id);
    [| reflexivity].
  rewrite Z.add_0_r. apply with_views_same.
Qed.

Lemma add_views_add (id : string) (n m : Z) (c : ComicInterface.t) :
  Scenario.add_views id m (Scenario.add_views id n c)
  = Scenario.add_views id (n + m) c.
Proof.
  unfold Scenario.add_views.
  destruct (String.eqb (ComicInterface.id c) id) eqn:E; simpl.
  - rewrite E. unfold Scenario.with_views. simpl. f_equal. lia.
  - rewrite E. reflexivity.
Qed.

(** One call of [updateViewComic] that goes through. *)
Lemma updateViewComic_ok (id : string) (w : World) :
  Validator.isUUID id = true ->
  fault w (List.length (log w)) = false ->
  ComicController.updateViewComic id w
  = (with_db (with_log w (log w ++ [Update TComic]))
       (set_comics (db w)
          (List.map (Scenario.add_views id 1) (comics (db w)))),
     Ok tt).
Proof.
  intros Hid Hf. unfold ComicController.updateViewComic.
  rewrite (isUUID_good_id _ Hid), (query_ok _ _ _ Hf). reflexivity.
Qed.

Lemma no_fault_from_head (w : World) (n k : nat) :
  Scenario.no_fault_from w n (S k) -> fault w n = false.
Proof. intros H. rewrite <- (H 0) by lia. f_equal. lia. Qed.

Lemma no_fault_from_tail (w : World) (n k : nat) :
  Scenario.no_fault_from w n (S k) -> Scenario.no_fault_from w (S n) k.
Proof.
  intros H i Hi. rewrite <- (H (S i)) by lia. f_equal. lia.
Qed.

(** [updateViewComic] called [n] times in a row on a well-formed id, every
    statement going through, adds exactly [n] to the views of the rows of
    that id and changes nothing else in the tables; it sends [n] updates. *)
Theorem updateViewComic_n_times (id : string) (n : nat) (w : World) :
  Validator.isUUID id = true ->
  Scenario.no_fault_from w (List.length (log w)) n ->
  exists w',
    Scenario.repeat_call n (ComicController.updateViewComic id) w
    = (w', Ok tt) /\
    db w' = set_comics (db w)
              (List.map (Scenario.add_views id (Z.of_nat n))
                 (comics (db w))) /\
    log w' = log w ++ List.repeat (Update TComic) n.
Proof.
  intros Hid. revert w.
  induction n as [| n IH]; intros w Hf.
  - exists w. split; [reflexivity |]. split.
    + rewrite (map_ext _ (fun c => c) (add_views_zero id)), map_id.
      symmetry. apply set_comics_same.
    + simpl. symmetry. apply app_nil_r.
  - pose proof (updateViewComic_ok id w Hid (no_fault_from_head _ _ _ Hf))
      as Hstep.
    set (w1 := with_db (with_log w (log w ++ [Update TComic]))
                 (set_comics (db w)
                    (List.map (Scenario.add_views id 1) (comics (db w)))))
      in Hstep.
    destruct (IH w1) as (w' & Hrun & Hdb & Hlog).
    { simpl. rewrite length_app. simpl. rewrite Nat.add_1_r.
      apply no_fault_from_tail. exact Hf. }
    exists w'. split; [| split].
    + simpl. rewrite (bind_ok _ _ _ _ _ Hstep). exact Hrun.
    + rewrite Hdb. subst w1.
      change (db (with_db (with_log w (log w ++ [Update TComic]))
                    (set_comics (db w)
                       (List.map (Scenario.add_views id 1)
                          (comics (db w))))))
        with (set_comics (db w)
                (List.map (Scenario.add_views id 1) (comics (db w)))).
      rewrite set_comics_twice.
      change (comics (set_comics (db w)
                        (List.map (Scenario.add_views id 1)
                           (comics (db w)))))
        with (List.map (Scenario.add_views id 1) (comics (db w))).
      rewrite map_map. f_equal.
      apply map_ext. intros c. rewrite add_views_add. f_equal. lia.
    + rewrite Hlog. simpl. rewrite <- app_assoc. reflexivity.
Qed.

Lemma updateViewComic_n_times_witness :
  Validator.isUUID (Sample.uuid_values 0) = true /\
  Scenario.no_fault_from Sample.after_create
    (List.length (log Sample.after_create)) 3 /\
  exists w',
    Scenario.repeat_call 3
      (ComicController.updateViewComic (Sample.uuid_values 0))
      Sample.after_create = (w', Ok tt) /\
    db w' = set_comics (db Sample.after_create)
              (List.map (Scenario.add_views (Sample.uuid_values 0)
                           (Z.of_nat 3))
                 (comics (db Sample.after_create))) /\
    log w' = log Sample.after_create ++ List.repeat (Update TComic) 3.
Proof.
  assert (Hf : Scenario.no_fault_from Sample.after_create
                 (List.length (log Sample.after_create)) 3)
    by (intros i _; reflexivity).
  split; [reflexivity |]. split; [exact Hf |].
  exact (updateViewComic_n_times (Sample.uuid_values 0) 3
           Sample.after_create eq_refl Hf).
Defined.

(* --------------------------------------------------------------------- *)
(** ** Looking comics up and deleting them *)
(* --------------------------------------------------------------------- *)

Lemma where_id_In (id : string) (d : Database) (c : ComicInterface.t) :
  In c (ComicController.where_id id d)
  <-> In c (comics d) /\ ComicInterface.id c = id.
Proof.
  unfold ComicController.where_id. rewrite filter_In, String.eqb_eq.
  reflexivity.
Qed.

(** What [hasComic] answers when its lookup goes through. *)
Lemma hasComic_lookup (id : string) (w : World) :
  Validator.isUUID id = true ->
  fault w (List.length (log w)) = false ->
  exists b,
    ComicController.hasComic id w
    = (with_log w (log w ++ [Select TComic]), Ok b) /\
    (b = true <->
     exists c, In c (comics (db w)) /\ ComicInterface.id c = id).
Proof.
  intros Hid Hf. unfold ComicController.hasComic.
  rewrite (isUUID_good_id _ Hid).
  rewrite (bind_ok _ _ _ _ _ (query_ok _ _ _ Hf)).
  unfold ComicController.select_comic. simpl fst. simpl snd.
  rewrite with_db_same.
  destruct (ComicController.where_id id (db w)) as [| c rest] eqn:E; simpl.
  - exists false. split; [reflexivity |]. split; [discriminate |].
    intros (c & Hc). apply where_id_In in Hc. rewrite E in Hc.
    contradiction.
  - exists true. split; [reflexivity |]. split; [| reflexivity].
    intros _. exists c. apply where_id_In. rewrite E. left. reflexivity.
Qed.

(** [hasComic] on a well-formed id answers whether a comic row has that
    id, and leaves the tables alone. *)
Theorem hasComic_iff_stored (id : string) (w : World) :
  Validator.isUUID id = true ->
  fault w (List.length (log w)) = false ->
  exists b,
    ComicController.hasComic id w
    = (with_log w (log w ++ [Select TComic]), Ok b) /\
    (b = true <->
     exists c, In c (comics (db w)) /\ ComicInterface.id c = id).
Proof. exact (hasComic_lookup id w). Qed.

Lemma hasComic_iff_stored_witness :
  Validator.isUUID (Sample.uuid_values 0) = true /\
  fault Sample.after_create (List.length (log Sample.after_create)) = false /\
  exists b,
    ComicController.hasComic (Sample.uuid_values 0) Sample.after_create
    = (with_log Sample.after_create
         (log Sample.after_create ++ [Select TComic]), Ok b) /\
    (b = true <->
     exists c, In c (comics (db Sample.after_create)) /\
               ComicInterface.id c = Sample.uuid_values 0).
Proof.
  split; [reflexivity |]. split; [reflexivity |].
  exact (hasComic_iff_stored (Sample.uuid_values 0) Sample.after_create
           eq_refl eq_refl).
Defined.

(** One call of [deleteComic] that goes through. *)
Lemma deleteComic_ok (id : string) (w : World) :
  Validator.isUUID id = true ->
  fault w (List.length (log w)) = false ->
  ComicController.deleteComic id w
  = (with_db (with_log w (log w ++ [Delete TComic]))
       (set_comics (db w)
          (List.filter
             (fun c => negb (String.eqb (ComicInterface.id c) id))
             (comics (db w)))),
     Ok tt).
Proof.
  intros Hid Hf. unfold ComicController.deleteComic.
  rewrite (isUUID_good_id _ Hid), (query_ok _ _ _ Hf). reflexivity.
Qed.

(** After [deleteComic] on a well-formed id, [hasComic] on that id answers
    [false]; the comics of every other id are all still there, and no
    comic was added. *)
Theorem deleteComic_then_hasComic (id : string) (w : World) :
  Validator.isUUID id = true ->
  Scenario.no_fault_from w (List.length (log w)) 2 ->
  exists w1 w2,
    ComicController.deleteComic id w = (w1, Ok tt) /\
    ComicController.hasComic id w1 = (w2, Ok false) /\
    (forall c, In c (comics (db w1))
               <-> In c (comics (db w)) /\ ComicInterface.id c <> id).
Proof.
  intros Hid Hf.
  pose proof (deleteComic_ok id w Hid (no_fault_from_head _ _ _ Hf)) as Hdel.
  set (w1 := with_db (with_log w (log w ++ [Delete TComic]))
               (set_comics (db w)
                  (List.filter
                     (fun c => negb (String.eqb (ComicInterface.id c) id))
                     (comics (db w))))) in Hdel.
  assert (Hkept : forall c, In c (comics (db w1))
                            <-> In c (comics (db w))
                                /\ ComicInterface.id c <> id).
  { intros c. simpl. rewrite filter_In, negb_true_iff, String.eqb_neq.
    reflexivity. }
  assert (Hf1 : fault w1 (List.length (log w1)) = false).
  { simpl. rewrite length_app. simpl. rewrite Nat.add_1_r.
    exact (no_fault_from_head _ _ _ (no_fault_from_tail _ _ _ Hf)). }
  destruct (hasComic_lookup id w1 Hid Hf1) as (b & Hhas & Hb).
  exists w1. eexists. split; [exact Hdel |]. split; [| exact Hkept].
  rewrite Hhas. f_equal. f_equal.
  destruct b; [| reflexivity].
  destruct (proj1 Hb eq_refl) as (c & Hc & Hcid).
  apply Hkept in Hc. destruct Hc as [_ Hne]. contradiction.
Qed.

Lemma deleteComic_then_hasComic_witness :
  Validator.isUUID (Sample.uuid_values 0) = true /\
  Scenario.no_fault_from Sample.after_create
    (List.length (log Sample.after_create)) 2 /\
  exists w1 w2,
    ComicController.deleteComic (Sample.uuid_values 0) Sample.after_create
    = (w1, Ok tt) /\
    ComicController.hasComic (Sample.uuid_values 0) w1 = (w2, Ok false) /\
    (forall c, In c (comics (db w1))
               <-> In c (comics (db Sample.after_create))
                   /\ ComicInterface.id c <> Sample.uuid_values 0).
Proof.
  assert (Hf : Scenario.no_fault_from Sample.after_create
                 (List.length (log Sample.after_create)) 2)
    by (intros i _; reflexivity).
  split; [reflexivity |]. split; [exact Hf |].
  exact (deleteComic_then_hasComic (Sample.uuid_values 0)
           Sample.after_create eq_refl Hf).
Defined.


(** [deleteComic] does not cascade: the join rows that tie the comic to
    its tags and the chapters of the comic are all still stored after
    it. *)
Theorem deleteComic_keeps_tags_and_chapters (id : string) (w w' : World) :
  Validator.isUUID id = true ->
  ComicController.deleteComic id w = (w', Ok tt) ->
  comic_book_tags (db w') = comic_book_tags (db w) /\
  ComicController.tag_ids id (db w') = ComicController.tag_ids id (db w) /\
  comic_chapters (db w') = comic_chapters (db w) /\
  resources (db w') = resources (db w).
Proof.
  intros Hid Hrun. unfold ComicController.deleteComic in Hrun.
  rewrite (isUUID_good_id _ Hid) in Hrun. unfold query in Hrun.
  destruct (fault w (List.length (log w))); [discriminate |].
  injection Hrun as <-. repeat split; reflexivity.
Qed.

Lemma deleteComic_keeps_tags_and_chapters_witness :
  Validator.isUUID (Sample.uuid_values 0) = true /\
  ComicController.deleteComic (Sample.uuid_values 0) Sample.after_create
  = (Sample.after_delete, Ok tt) /\
  ComicController.tag_ids (Sample.uuid_values 0) (db Sample.after_delete)
  = ["t2"; "t1"] /\
  comics (db Sample.after_delete) = [].
Proof.
  assert (H : ComicController.deleteComic (Sample.uuid_values 0)
                Sample.after_create = (Sample.after_delete, Ok tt))
    by reflexivity.
  split; [reflexivity |]. split; [exact H |].
  destruct (deleteComic_keeps_tags_and_chapters (Sample.uuid_values 0)
              Sample.after_create Sample.after_delete eq_refl H)
    as (_ & Htags & _).
  split; [rewrite Htags; reflexivity | reflexivity].
Defined.

(* --------------------------------------------------------------------- *)
(** ** Searching *)
(* --------------------------------------------------------------------- *)

Lemma bind_engine_choice {B} (k : nat -> M B) (w : World) :
  bind engine_choice k w = k (choice w (List.length (log w))) w.
Proof. reflexivity. Qed.

(** What [searchComic] answers when its lookup goes through. *)
Lemma searchComic_ok (q : ComicController.SearchQuery) (w : World) :
  fault w (List.length (log w)) = false ->
  ComicController.searchComic q w
  = (with_log w (log w ++ [Select TComic]),
     Ok (first_unordered (choice w (List.length (log w)))
           (ComicController.where_slug_or_id
              (match ComicController.slug q with
               | Some s => s | None => "" end)
              (match ComicController.search_id q with
               | Some i => i | None => "" end)
              (db w)))).
Proof.
  intros Hf. unfold ComicController.searchComic.
  rewrite bind_engine_choice.
  rewrite (query_ok _ _ _ Hf). simpl fst. rewrite with_db_same.
  reflexivity.
Qed.

(** Whatever the engine chooses, the first of the rows that match is one
    of them, and there is one as soon as a row matches. *)
Lemma first_unordered_In {A} (k : nat) (rows : list A) (x : A) :
  first_unordered k rows = Some x -> In x rows.
Proof. unfold first_unordered. apply nth_error_In. Qed.

Lemma first_unordered_some {A} (k : nat) (rows : list A) :
  rows <> [] -> exists x, first_unordered k rows = Some x.
Proof.
  intros Hrows. unfold first_unordered.
  destruct (nth_error rows (k mod List.length rows)) as [x |] eqn:E.
  - exists x. reflexivity.
  - apply nth_error_None in E.
    assert (Hlen : List.length rows <> 0)
      by (destruct rows; [contradiction | discriminate]).
    pose proof (Nat.mod_upper_bound k (List.length rows) Hlen). lia.
Qed.

Lemma where_slug_or_id_In (slug id : string) (d : Database)
  (c : ComicInterface.t) :
  In c (ComicController.where_slug_or_id slug id d) <->
  In c (comics d) /\
  (ComicInterface.slug c = slug \/ ComicInterface.id c = id).
Proof.
  unfold ComicController.where_slug_or_id. rewrite filter_In.
  rewrite orb_true_iff, !String.eqb_eq. reflexivity.
Qed.

(** [searchComic] answers with a stored comic whose slug or id is the one
    asked for, and with nothing only when no stored comic has that slug or
    that id; an absent slug or id counts as the empty string. The tables
    are not changed. Which of several matches is found is the choice of the
    engine: the query has no ORDER BY. *)
Theorem searchComic_finds_a_match
  (q : ComicController.SearchQuery) (w w' : World)
  (r : option ComicInterface.t) :
  ComicController.searchComic q w = (w', Ok r) ->
  let slug := match ComicController.slug q with
              | Some s => s | None => "" end in
  let id := match ComicController.search_id q with
            | Some i => i | None => "" end in
  w' = with_log w (log w ++ [Select TComic]) /\
  match r with
  | Some found =>
      In found (comics (db w)) /\
      (ComicInterface.slug found = slug \/ ComicInterface.id found = id)
  | None =>
      forall c, In c (comics (db w)) ->
                ComicInterface.slug c <> slug /\ ComicInterface.id c <> id
  end.
Proof.
  intros Hrun slug id.
  destruct (fault w (List.length (log w))) eqn:Hf.
  { unfold ComicController.searchComic in Hrun.
    rewrite bind_engine_choice in Hrun.
    rewrite (query_fault _ _ _ Hf) in Hrun.
    discriminate. }
  rewrite (searchComic_ok q w Hf) in Hrun.
  injection Hrun as <- <-. split; [reflexivity |].
  fold slug. fold id.
  destruct (first_unordered (choice w (List.length (log w)))
              (ComicController.where_slug_or_id slug id (db w)))
    as [found |] eqn:E.
  - apply first_unordered_In in E. apply where_slug_or_id_In in E. exact E.
  - intros c Hc.
    destruct (ComicController.where_slug_or_id slug id (db w))
      as [| x rows] eqn:Erows.
    + assert (Hno : ~ In c (ComicController.where_slug_or_id slug id (db w)))
        by (rewrite Erows; intros []).
      rewrite where_slug_or_id_In in Hno.
      split; intros Heq; apply Hno; split; auto.
    + destruct (first_unordered_some (choice w (List.length (log w)))
                  (x :: rows)) as (y & Hy); [discriminate |].
      rewrite Hy in E. discriminate.
Qed.

(** A comic [createComic] has just stored is found: [hasComic] on its id
    answers [true], and [searchComic] by its slug finds a comic with that
    slug (or one whose id is empty, which the search also matches when no
    id is given). *)
Theorem createComic_then_found
  (charMap : ascii -> option string)
  (name description postedBy author category : string)
  (tags : option (list string)) (thumbnail : option string)
  (w w1 : World) (c : ComicInterface.t) :
  ComicController.createComic charMap name description postedBy author
    category tags thumbnail w = (w1, Ok c) ->
  Validator.isUUID (ComicInterface.id c) = true ->
  fault w1 (List.length (log w1)) = false ->
  ComicController.hasComic (ComicInterface.id c) w1
  = (with_log w1 (log w1 ++ [Select TComic]), Ok true) /\
  exists found,
    ComicController.searchComic
      {| ComicController.slug := Some (ComicInterface.slug c);
         ComicController.search_id := None |} w1
    = (with_log w1 (log w1 ++ [Select TComic]), Ok (Some found)) /\
    In found (comics (db w1)) /\
    (ComicInterface.slug found = ComicInterface.slug c
     \/ ComicInterface.id found = "").
Proof.
  intros Hcreate Hid Hf.
  destruct (createComic_ok _ _ _ _ _ _ _ _ _ _ _ Hcreate)
    as (_ & _ & _ & (l & _ & Hdb) & _).
  assert (Hin : In c (comics (db w1))).
  { rewrite Hdb. simpl. apply in_or_app. right. left. reflexivity. }
  split.
  - destruct (hasComic_lookup _ w1 Hid Hf) as (b & Hhas & Hb).
    rewrite Hhas. f_equal. f_equal. apply Hb. exists c.
    split; [exact Hin | reflexivity].
  - rewrite (searchComic_ok _ w1 Hf). simpl.
    assert (Hc : In c (ComicController.where_slug_or_id
                         (ComicInterface.slug c) "" (db w1))).
    { apply where_slug_or_id_In. split; [exact Hin | left; reflexivity]. }
    destruct (first_unordered_some (choice w1 (List.length (log w1)))
                (ComicController.where_slug_or_id
                   (ComicInterface.slug c) "" (db w1)))
      as (found & Hfound).
    { intros E. rewrite E in Hc. contradiction. }
    exists found. rewrite Hfound. split; [reflexivity |].
    apply first_unordered_In in Hfound.
    apply where_slug_or_id_In in Hfound. exact Hfound.
Qed.

Lemma searchComic_finds_a_match_witness :
  ComicController.createComic Slugify.charMap_ascii "One Piece!"
    "more pirates" "u2" "Oda" "Comic" (Some ["t1"]) (Some "r1")
    Sample.after_create
  = (Sample.after_create_again, Ok Sample.one_piece_again) /\
  ComicController.searchComic
    {| ComicController.slug := Some "one-piece";
       ComicController.search_id := None |} Sample.after_create_again
  = (with_log Sample.after_create_again
       (log Sample.after_create_again ++ [Select TComic]),
     Ok (Some Sample.one_piece)) /\
  In Sample.one_piece (comics (db Sample.after_create_again)) /\
  (ComicInterface.slug Sample.one_piece = "one-piece"
   \/ ComicInterface.id Sample.one_piece = "").
Proof.
  assert (H : ComicController.searchComic
                {| ComicController.slug := Some "one-piece";
                   ComicController.search_id := None |}
                Sample.after_create_again
              = (with_log Sample.after_create_again
                   (log Sample.after_create_again ++ [Select TComic]),
                 Ok (Some Sample.one_piece))) by reflexivity.
  split; [reflexivity |]. split; [exact H |].
  exact (proj2 (searchComic_finds_a_match _ _ _ _ H)).
Defined.

(** Two stored comics have the slug [one-piece]: an engine that hands out
    the second of the rows that match finds the other one. *)
Example searchComic_elsewhere :
  snd (ComicController.searchComic
         {| ComicController.slug := Some "one-piece";
            ComicController.search_id := None |}
         Sample.after_create_again_elsewhere)
  = Ok (Some Sample.one_piece_again).
Proof. reflexivity. Qed.

Lemma createComic_then_found_witness :
  ComicController.createComic Slugify.charMap_ascii "One Piece" "pirates"
    "u1" "Oda" "Comic" (Some ["t2"; "t1"]) (Some "r1")
    (Sample.world Sample.library)
  = (Sample.after_create, Ok Sample.one_piece) /\
  Validator.isUUID (ComicInterface.id Sample.one_piece) = true /\
  ComicController.hasComic (ComicInterface.id Sample.one_piece)
    Sample.after_create
  = (with_log Sample.after_create
       (log Sample.after_create ++ [Select TComic]), Ok true).
Proof.
  assert (H : ComicController.createComic Slugify.charMap_ascii "One Piece"
                "pirates" "u1" "Oda" "Comic" (Some ["t2"; "t1"]) (Some "r1")
                (Sample.world Sample.library)
              = (Sample.after_create, Ok Sample.one_piece)) by reflexivity.
  split; [exact H |]. split; [reflexivity |].
  exact (proj1 (createComic_then_found Slugify.charMap_ascii "One Piece"
                  "pirates" "u1" "Oda" "Comic" (Some ["t2"; "t1"])
                  (Some "r1") (Sample.world Sample.library)
                  Sample.after_create Sample.one_piece H eq_refl eq_refl)).
Defined.


(* --------------------------------------------------------------------- *)
(** ** Updating a comic *)
(* --------------------------------------------------------------------- *)

Lemma tag_ids_app (id : string) (d : Database)
  (old new : list ComicBookTagInterface.t) :
  ComicController.tag_ids id (set_comic_book_tags d (old ++ new))
  = ComicController.tag_ids id (set_comic_book_tags d old)
    ++ ComicController.tag_ids id (set_comic_book_tags d new).
Proof.
  unfold ComicController.tag_ids. simpl.
  rewrite filter_app, map_app. reflexivity.
Qed.

Lemma tag_ids_own (id : string) (d : Database) (l : list string) :
  ComicController.tag_ids id
    (set_comic_book_tags d (List.map (ComicBookTagInterface.mk id) l)) = l.
Proof.
  unfold ComicController.tag_ids. simpl.
  induction l as [| t l IH]; simpl; [reflexivity |].
  rewrite String.eqb_refl. simpl. f_equal. exact IH.
Qed.

Lemma tag_ids_other (id id' : string) (d : Database) (l : list string) :
  id' <> id ->
  ComicController.tag_ids id'
    (set_comic_book_tags d (List.map (ComicBookTagInterface.mk id) l)) = [].
Proof.
  intros Hne. unfold ComicController.tag_ids. simpl.
  induction l as [| t l IH]; simpl; [reflexivity |].
  destruct (String.eqb_spec id id') as [E | _]; [| exact IH].
  exfalso. apply Hne. symmetry. exact E.
Qed.

(** [updateComic] adds the join rows of the tags it is given and removes
    none: afterwards the tag ids of the comic are the ones it had followed
    by the new list, so a tag sent again is there twice. The tags of the
    other comics do not change. *)
Theorem updateComic_appends_tags
  (charMap : ascii -> option string)
  (id name description author category : string)
  (tags : option (list string)) (thumbnail : option string)
  (w w' : World) :
  ComicController.updateComic charMap id name description author category
    tags thumbnail w = (w', Ok tt) ->
  exists l,
    tags = Some l /\
    ComicController.tag_ids id (db w')
    = ComicController.tag_ids id (db w) ++ l /\
    (forall id', id' <> id ->
                 ComicController.tag_ids id' (db w')
                 = ComicController.tag_ids id' (db w)).
Proof.
  intros H.
  destruct (updateComic_ok _ _ _ _ _ _ _ _ _ _ H) as (l & Hl & Hdb).
  exists l. split; [exact Hl |].
  assert (Hsplit :
            forall i, ComicController.tag_ids i (db w')
                      = ComicController.tag_ids i (db w)
                        ++ ComicController.tag_ids i
                             (set_comic_book_tags (db w)
                                (List.map (ComicBookTagInterface.mk id) l))).
  { intros i. rewrite Hdb. unfold ComicController.tag_ids. simpl.
    rewrite filter_app, map_app. reflexivity. }
  split.
  - rewrite Hsplit, tag_ids_own. reflexivity.
  - intros id' Hne. rewrite Hsplit, (tag_ids_other id id' _ _ Hne).
    apply app_nil_r.
Qed.

Lemma updateComic_appends_tags_witness :
  ComicController.updateComic Slugify.charMap_ascii
    (ComicInterface.id Sample.one_piece) "One Piece" "pirates!" "Oda"
    "Comic" (Some ["t1"]) None Sample.after_create
  = (Sample.after_retag, Ok tt) /\
  ComicController.tag_ids (ComicInterface.id Sample.one_piece)
    (db Sample.after_retag) = ["t2"; "t1"; "t1"].
Proof.
  assert (H : ComicController.updateComic Slugify.charMap_ascii
                (ComicInterface.id Sample.one_piece) "One Piece" "pirates!"
                "Oda" "Comic" (Some ["t1"]) None Sample.after_create
              = (Sample.after_retag, Ok tt)) by reflexivity.
  split; [exact H |].
  destruct (updateComic_appends_tags _ _ _ _ _ _ _ _ _ _ H)
    as (l & Hl & Hids & _).
  injection Hl as <-. rewrite Hids. reflexivity.
Defined.

(** [updateComic] is all or nothing: when it throws, whatever the step
    that failed, the committed tables are the ones it started from; a
    rejected id does not even open a transaction. *)
Theorem updateComic_atomic
  (charMap : ascii -> option string)
  (id name description author category : string)
  (tags : option (list string)) (thumbnail : option string)
  (w w' : World) (e : Error) :
  ComicController.updateComic charMap id name description author category
    tags thumbnail w = (w', Throw e) ->
  db w' = db w /\
  (Validator.bad_id id = true -> w' = w) /\
  (Validator.bad_id id = false ->
   log w' = log w ++ [Begin] \/
   exists sent, log w' = log w ++ Begin :: sent ++ [Rollback]).
Proof.
  intros H. unfold_run H.
  split_run H; try discriminate; injection H as <- <-; simpl.
  all: split; [reflexivity |].
  all: split; [intros Hb; first [reflexivity | discriminate Hb] |].
  all: intros Hg.
  all: first
         [ congruence
         | left; reflexivity
         | right; exists [Update TComic];
           rewrite <- !app_assoc; reflexivity
         | right; exists [Update TComic; Insert TComicBookTag];
           rewrite <- !app_assoc; reflexivity
         | right; exists [Update TComic; Insert TComicBookTag; Commit];
           rewrite <- !app_assoc; reflexivity ].
Qed.

Lemma updateComic_atomic_witness :
  ComicController.updateComic Slugify.charMap_ascii
    (Sample.uuid_values 0) "One Piece" "pirates!" "Oda" "Comic"
    (Some ["t1"]) None (Sample.faulty_world 2 Sample.library)
  = (Sample.rolled_back_update, Throw (DbError 2)) /\
  db Sample.rolled_back_update = Sample.library.
Proof.
  assert (H : ComicController.updateComic Slugify.charMap_ascii
                (Sample.uuid_values 0) "One Piece" "pirates!" "Oda" "Comic"
                (Some ["t1"]) None (Sample.faulty_world 2 Sample.library)
              = (Sample.rolled_back_update, Throw (DbError 2)))
    by reflexivity.
  split; [exact H |].
  exact (proj1 (updateComic_atomic _ _ _ _ _ _ _ _ _ _ _ H)).
Defined.

(** What [updateComic] does to a comic row: the rows of the id get the new
    name, description, author, category and date of update, and the new
    thumbnail when one is given; they keep their id, owner, date of
    creation, likes, views, and their thumbnail when none is given. Rows
    of other ids are left as they are, and no row is added or removed. *)
Theorem updateComic_row_by_row
  (charMap : ascii -> option string)
  (id name description author category : string)
  (tags : option (list string)) (thumbnail : option string)
  (w w' : World) :
  ComicController.updateComic charMap id name description author category
    tags thumbnail w = (w', Ok tt) ->
  Forall2
    (fun c c' =>
       if String.eqb (ComicInterface.id c) id
       then ComicInterface.id c' = ComicInterface.id c /\
            ComicInterface.postedBy c' = ComicInterface.postedBy c /\
            ComicInterface.createdAt c' = ComicInterface.createdAt c /\
            ComicInterface.likes c' = ComicInterface.likes c /\
            ComicInterface.views c' = ComicInterface.views c /\
            ComicInterface.name c' = name /\
            ComicInterface.description c' = description /\
            ComicInterface.author c' = author /\
            ComicInterface.category c' = category /\
            ComicInterface.updatedAt c' = clock w /\
            ComicInterface.thumbnail c'
            = match thumbnail with
              | Some t => Some t
              | None => ComicInterface.thumbnail c
              end
       else c' = c)
    (comics (db w)) (comics (db w')).
Proof.
  intros H.
  destruct (updateComic_ok _ _ _ _ _ _ _ _ _ _ H) as (l & _ & Hdb).
  rewrite Hdb. simpl.
  induction (comics (db w)) as [| c cs IH]; simpl; constructor;
    [| exact IH].
  destruct (String.eqb (ComicInterface.id c) id); simpl;
    [repeat split; reflexivity | reflexivity].
Qed.

Lemma updateComic_row_by_row_witness :
  ComicController.updateComic Slugify.charMap_ascii
    (ComicInterface.id Sample.one_piece) "One Piece" "pirates!" "Oda"
    "Comic" (Some ["t1"]) None Sample.after_create
  = (Sample.after_retag, Ok tt) /\
  Forall2
    (fun c c' =>
       if String.eqb (ComicInterface.id c)
            (ComicInterface.id Sample.one_piece)
       then ComicInterface.id c' = ComicInterface.id c /\
            ComicInterface.postedBy c' = ComicInterface.postedBy c /\
            ComicInterface.createdAt c' = ComicInterface.createdAt c /\
            ComicInterface.likes c' = ComicInterface.likes c /\
            ComicInterface.views c' = ComicInterface.views c /\
            ComicInterface.name c' = "One Piece" /\
            ComicInterface.description c' = "pirates!" /\
            ComicInterface.author c' = "Oda" /\
            ComicInterface.category c' = "Comic" /\
            ComicInterface.updatedAt c' = clock Sample.after_create /\
            ComicInterface.thumbnail c' = ComicInterface.thumbnail c
       else c' = c)
    (comics (db Sample.after_create)) (comics (db Sample.after_retag)).
Proof.
  assert (H : ComicController.updateComic Slugify.charMap_ascii
                (ComicInterface.id Sample.one_piece) "One Piece" "pirates!"
                "Oda" "Comic" (Some ["t1"]) None Sample.after_create
              = (Sample.after_retag, Ok tt)) by reflexivity.
  split; [exact H |].
  exact (updateComic_row_by_row Slugify.charMap_ascii
           (ComicInterface.id Sample.one_piece) "One Piece" "pirates!"
           "Oda" "Comic" (Some ["t1"]) None Sample.after_create
           Sample.after_retag H).
Defined.


Lemma map_unchanged {A} (f : A -> A) (l : list A) :
  (forall x, In x l -> f x = x) -> List.map f l = l.
Proof.
  induction l as [| x l IH]; intros H; simpl; [reflexivity |].
  rewrite (H x (or_introl eq_refl)). f_equal.
  apply IH. intros y Hy. apply H. right. exact Hy.
Qed.

(** The indices of the statements of a run that starts at [log w]. *)
Lemma no_fault_at (w : World) (k : nat) (sent : list Statement) (i : nat) :
  Scenario.no_fault_from w (List.length (log w)) k ->
  List.length sent = i ->
  i < k ->
  fault w (List.length (log w ++ sent)) = false.
Proof.
  intros H Hlen Hi. rewrite length_app, Hlen. apply H. exact Hi.
Qed.

(** With at least one tag and its four statements going through,
    [createComic] returns. *)
Lemma createComic_runs
  (charMap : ascii -> option string)
  (name description postedBy author category : string)
  (tags : list string) (thumbnail : option string) (w : World) :
  tags <> [] ->
  Scenario.no_fault_from w (List.length (log w)) 4 ->
  exists w' c,
    ComicController.createComic charMap name description postedBy author
      category (Some tags) thumbnail w = (w', Ok c).
Proof.
  intros Htags Hf.
  destruct tags as [| t tags]; [contradiction |]. clear Htags.
  assert (F0 : fault w (List.length (log w)) = false)
    by exact (no_fault_from_head w _ 3 Hf).
  assert (F1 : fault w (List.length (log w ++ [Begin])) = false)
    by (apply (no_fault_at w 4 _ 1 Hf); [reflexivity | lia]).
  assert (F2 : fault w (List.length ((log w ++ [Begin]) ++ [Insert TComic]))
               = false).
  { rewrite <- app_assoc.
    apply (no_fault_at w 4 _ 2 Hf); [reflexivity | lia]. }
  assert (F3 : fault w (List.length (((log w ++ [Begin]) ++ [Insert TComic])
                                     ++ [Insert TComicBookTag])) = false).
  { rewrite <- !app_assoc.
    apply (no_fault_at w 4 _ 3 Hf); [reflexivity | lia]. }
  unfold ComicController.createComic,
    ComicController.trx_insert_comic_book_tags,
    uuid, transaction, try_catch, bind, new_Date, trx_query, commit,
    ComicController.tags_map, ret.
  simpl. rewrite F0. simpl. rewrite F1. simpl. rewrite F2. simpl.
  rewrite F3. simpl. eexists. eexists. reflexivity.
Qed.

(** With a well-formed id, at least one tag and its four statements going
    through, [updateComic] returns. *)
Lemma updateComic_runs
  (charMap : ascii -> option string)
  (id name description author category : string)
  (tags : list string) (thumbnail : option string) (w : World) :
  Validator.isUUID id = true ->
  tags <> [] ->
  Scenario.no_fault_from w (List.length (log w)) 4 ->
  exists w',
    ComicController.updateComic charMap id name description author category
      (Some tags) thumbnail w = (w', Ok tt).
Proof.
  intros Hid Htags Hf.
  destruct tags as [| t tags]; [contradiction |]. clear Htags.
  assert (F0 : fault w (List.length (log w)) = false)
    by exact (no_fault_from_head w _ 3 Hf).
  assert (F1 : fault w (List.length (log w ++ [Begin])) = false)
    by (apply (no_fault_at w 4 _ 1 Hf); [reflexivity | lia]).
  assert (F2 : fault w (List.length ((log w ++ [Begin]) ++ [Update TComic]))
               = false).
  { rewrite <- app_assoc.
    apply (no_fault_at w 4 _ 2 Hf); [reflexivity | lia]. }
  assert (F3 : fault w (List.length (((log w ++ [Begin]) ++ [Update TComic])
                                     ++ [Insert TComicBookTag])) = false).
  { rewrite <- !app_assoc.
    apply (no_fault_at w 4 _ 3 Hf); [reflexivity | lia]. }
  unfold ComicController.updateComic.
  rewrite (isUUID_good_id _ Hid).
  unfold ComicController.trx_insert_comic_book_tags,
    transaction, try_catch, bind, new_Date, trx_query, commit,
    ComicController.tags_map, ret.
  simpl. rewrite F0. simpl. rewrite F1. simpl. rewrite F2. simpl.
  rewrite F3. simpl. eexists. reflexivity.
Qed.

(** After [updateComic], the rows of the id carry the new name and its
    slug. *)
Lemma updateComic_rows_of_id
  (charMap : ascii -> option string)
  (id name description author category : string)
  (tags : option (list string)) (thumbnail : option string)
  (w w' : World) (c : ComicInterface.t) :
  ComicController.updateComic charMap id name description author category
    tags thumbnail w = (w', Ok tt) ->
  In c (comics (db w')) ->
  ComicInterface.id c = id ->
  ComicInterface.name c = name /\
  ComicInterface.slug c = Slugify.slugify charMap name Slugify.comic_options.
Proof.
  intros H Hc Hid.
  destruct (updateComic_ok _ _ _ _ _ _ _ _ _ _ H) as (l & _ & Hdb).
  rewrite Hdb in Hc. simpl in Hc.
  apply in_map_iff in Hc. destruct Hc as (c0 & Hc0 & _).
  destruct (String.eqb_spec (ComicInterface.id c0) id) as [_ | Hne].
  - subst c. split; reflexivity.
  - subst c. contradiction.
Qed.

(** The tag list cannot be empty: knex refuses the insert of no row, so
    [createComic] and [updateComic] roll back what they wrote and throw,
    and nothing is stored. *)
Example createComic_without_tag :
  ComicController.createComic Slugify.charMap_ascii "One Piece" "pirates"
    "u1" "Oda" "Comic" (Some []) (Some "r1") (Sample.world Sample.library)
  = ({| db := Sample.library; trx := None;
        log := [Begin; Insert TComic; Rollback];
        fault := Sample.no_fault; choice := Sample.first_choice;
        uuids := Sample.uuid_values; uuid_next := 1;
        clock := 1650000000000%Z |},
     Throw (JsError "The query is empty")).
Proof. reflexivity. Qed.

Example updateComic_without_tag :
  ComicController.updateComic Slugify.charMap_ascii
    (ComicInterface.id Sample.one_piece) "One Piece" "pirates!" "Oda"
    "Comic" (Some []) None Sample.after_create
  = (with_log Sample.after_create
       (log Sample.after_create ++ [Begin; Update TComic; Rollback]),
     Throw (JsError "The query is empty")).
Proof. reflexivity. Qed.

(** [updateComic] does not check that the comic exists: on a well-formed
    id that no comic has, with a tag list that is not empty and its four
    statements going through, it returns without error, changes no comic
    row, and still stores one join row per tag for that id. *)
Theorem updateComic_unknown_id
  (charMap : ascii -> option string)
  (id name description author category : string)
  (tags : list string) (thumbnail : option string) (w : World) :
  Validator.isUUID id = true ->
  tags <> [] ->
  (forall c, In c (comics (db w)) -> ComicInterface.id c <> id) ->
  Scenario.no_fault_from w (List.length (log w)) 4 ->
  exists w',
    ComicController.updateComic charMap id name description author category
      (Some tags) thumbnail w = (w', Ok tt) /\
    comics (db w') = comics (db w) /\
    comic_book_tags (db w')
    = comic_book_tags (db w)
      ++ List.map (ComicBookTagInterface.mk id) tags.
Proof.
  intros Hid Htags Habsent Hf.
  destruct (updateComic_runs charMap id name description author category
              tags thumbnail w Hid Htags Hf) as (w' & Hrun).
  exists w'. split; [exact Hrun |].
  destruct (updateComic_ok _ _ _ _ _ _ _ _ _ _ Hrun) as (l & Hl & Hdb).
  injection Hl as <-. rewrite Hdb. simpl. split; [| reflexivity].
  apply map_unchanged. intros c Hc.
  destruct (String.eqb_spec (ComicInterface.id c) id) as [E | _];
    [| reflexivity].
  exfalso. exact (Habsent c Hc E).
Qed.

Lemma updateComic_unknown_id_witness :
  Validator.isUUID (Sample.uuid_values 1) = true /\
  ["t1"] <> [] /\
  (forall c, In c (comics (db Sample.after_create)) ->
             ComicInterface.id c <> Sample.uuid_values 1) /\
  Scenario.no_fault_from Sample.after_create
    (List.length (log Sample.after_create)) 4 /\
  exists w',
    ComicController.updateComic Slugify.charMap_ascii (Sample.uuid_values 1)
      "Naruto" "ninjas" "Kishimoto" "Comic" (Some ["t1"]) None
      Sample.after_create = (w', Ok tt) /\
    comics (db w') = comics (db Sample.after_create) /\
    comic_book_tags (db w')
    = comic_book_tags (db Sample.after_create)
      ++ List.map (ComicBookTagInterface.mk (Sample.uuid_values 1)) ["t1"].
Proof.
  assert (Habsent : forall c, In c (comics (db Sample.after_create)) ->
                              ComicInterface.id c <> Sample.uuid_values 1).
  { intros c [<- | []]. discriminate. }
  assert (Hf : Scenario.no_fault_from Sample.after_create
                 (List.length (log Sample.after_create)) 4)
    by (intros i _; reflexivity).
  assert (Htags : ["t1"] <> []) by discriminate.
  split; [reflexivity |]. split; [exact Htags |].
  split; [exact Habsent |]. split; [exact Hf |].
  exact (updateComic_unknown_id Slugify.charMap_ascii (Sample.uuid_values 1)
           "Naruto" "ninjas" "Kishimoto" "Comic" ["t1"] None
           Sample.after_create eq_refl Htags Habsent Hf).
Defined.

(* --------------------------------------------------------------------- *)
(** ** Comics and their thumbnails *)
(* --------------------------------------------------------------------- *)

(** A comic whose thumbnail is the id of no stored resource, or that has
    no thumbnail, cannot be read: [getComic] finds the row, sends its
    three statements, and throws the [TypeError] of reading the file name
    of a resource that is not there. *)
Theorem getComic_dangling_thumbnail
  (id : string) (row : ComicInterface.t) (w : World) :
  Validator.isUUID id = true ->
  first (ComicController.where_id id (db w)) = Some row ->
  snd (ComicController.select_resource (ComicInterface.thumbnail row) (db w))
  = None ->
  Scenario.no_fault_from w (List.length (log w)) 3 ->
  ComicController.getComic id w
  = (with_log w
       (log w ++ [Select TComic; Select TResource; Select TComicBookTag]),
     Throw TypeError).
Proof.
  intros Hid Hrow Hres Hf.
  set (wa := with_log w (log w ++ [Select TComic])).
  set (wb := with_log wa (log wa ++ [Select TResource])).
  assert (F0 : fault w (List.length (log w)) = false)
    by exact (no_fault_from_head w _ 2 Hf).
  assert (F1 : fault wa (List.length (log wa)) = false)
    by (apply (no_fault_at w 3 _ 1 Hf); [reflexivity | lia]).
  assert (F2 : fault wb (List.length (log wb)) = false).
  { simpl. rewrite <- app_assoc.
    apply (no_fault_at w 3 _ 2 Hf); [reflexivity | lia]. }
  unfold ComicController.getComic.
  rewrite (isUUID_good_id _ Hid).
  rewrite (bind_ok _ _ _ _ _ (query_ok _ _ w F0)).
  unfold ComicController.select_comic. simpl fst. simpl snd.
  rewrite Hrow, with_db_same. fold wa. simpl deref. rewrite bind_ret.
  rewrite (bind_ok _ _ _ _ _ (query_ok _ _ wa F1)).
  change (db wa) with (db w). rewrite Hres.
  change (fst (ComicController.select_resource
                 (ComicInterface.thumbnail row) (db w))) with (db wa).
  rewrite with_db_same. fold wb.
  rewrite (bind_ok _ _ _ _ _ (query_ok _ _ wb F2)).
  simpl deref. unfold bind, throw. simpl.
  rewrite <- !app_assoc. destruct w; reflexivity.
Qed.

Lemma getComic_dangling_thumbnail_witness :
  Validator.isUUID (Sample.uuid_values 0) = true /\
  first (ComicController.where_id (Sample.uuid_values 0)
           (db Sample.after_cover_removed)) = Some Sample.one_piece /\
  snd (ComicController.select_resource
         (ComicInterface.thumbnail Sample.one_piece)
         (db Sample.after_cover_removed)) = None /\
  Scenario.no_fault_from Sample.after_cover_removed
    (List.length (log Sample.after_cover_removed)) 3 /\
  ComicController.getComic (Sample.uuid_values 0)
    Sample.after_cover_removed
  = (with_log Sample.after_cover_removed
       (log Sample.after_cover_removed
        ++ [Select TComic; Select TResource; Select TComicBookTag]),
     Throw TypeError).
Proof.
  assert (Hf : Scenario.no_fault_from Sample.after_cover_removed
                 (List.length (log Sample.after_cover_removed)) 3)
    by (intros i _; reflexivity).
  split; [reflexivity |]. split; [reflexivity |]. split; [reflexivity |].
  split; [exact Hf |].
  exact (getComic_dangling_thumbnail (Sample.uuid_values 0) Sample.one_piece
           Sample.after_cover_removed eq_refl eq_refl eq_refl Hf).
Defined.

(** What [getAllComics] lists when its query goes through: one row per
    pair of a comic and a resource whose id is the thumbnail of the comic.
    So a comic is listed exactly when its thumbnail is the id of a stored
    resource; a comic without a thumbnail, or with one that is not stored,
    is left out. Each row carries the id and the file name of that
    resource, and the tables are left alone. *)
Theorem getAllComics_lists_comics_with_thumbnail
  (group_concat_max_len : nat) (w : World) :
  fault w (List.length (log w)) = false ->
  exists rows,
    ComicController.getAllComics group_concat_max_len w
    = (with_log w (log w ++ [Select TComic]), Ok rows) /\
    (forall c,
        In c (List.map ComicController.listed rows)
        <-> In c (comics (db w)) /\
            exists r, In r (resources (db w)) /\
                      ComicInterface.thumbnail c
                      = Some (ResourceInterface.id r)) /\
    (forall row,
        In row rows ->
        ComicInterface.thumbnail (ComicController.listed row)
        = Some (ComicController.listed_thumbnail row) /\
        In (ResourceInterface.mk (ComicController.listed_thumbnail row)
              (ComicController.listed_thumbnailImg row))
          (resources (db w))).
Proof.
  intros Hf. unfold ComicController.getAllComics.
  rewrite (query_ok _ _ _ Hf). simpl fst. rewrite with_db_same.
  eexists. split; [reflexivity |].
  unfold ComicController.select_all_comics. simpl snd.
  assert (Hrow :
            forall row,
              In row
                (List.flat_map
                   (fun t1 =>
                      match ComicInterface.thumbnail t1 with
                      | Some k =>
                          List.map
                            (fun t2 =>
                               {| ComicController.listed := t1;
                                  ComicController.listed_thumbnail :=
                                    ResourceInterface.id t2;
                                  ComicController.listed_thumbnailImg :=
                                    ResourceInterface.fileName t2;
                                  ComicController.listed_tags :=
                                    ComicController.group_concat
                                      group_concat_max_len
                                      (ComicController.tag_ids
                                         (ComicInterface.id t1) (db w)) |})
                            (List.filter
                               (fun t2 =>
                                  String.eqb (ResourceInterface.id t2) k)
                               (resources (db w)))
                      | None => []
                      end)
                   (comics (db w)))
              <-> exists t1 t2,
                  In t1 (comics (db w)) /\ In t2 (resources (db w)) /\
                  ComicInterface.thumbnail t1
                  = Some (ResourceInterface.id t2) /\
                  row = {| ComicController.listed := t1;
                           ComicController.listed_thumbnail :=
                             ResourceInterface.id t2;
                           ComicController.listed_thumbnailImg :=
                             ResourceInterface.fileName t2;
                           ComicController.listed_tags :=
                             ComicController.group_concat
                               group_concat_max_len
                               (ComicController.tag_ids
                                  (ComicInterface.id t1) (db w)) |}).
  { intros row. rewrite in_flat_map. split.
    - intros (t1 & Ht1 & Hin).
      destruct (ComicInterface.thumbnail t1) as [k |] eqn:Ek;
        [| contradiction].
      apply in_map_iff in Hin. destruct Hin as (t2 & <- & Ht2).
      apply filter_In in Ht2. destruct Ht2 as [Ht2 Hk].
      apply String.eqb_eq in Hk. subst k.
      exists t1, t2. repeat split; assumption.
    - intros (t1 & t2 & Ht1 & Ht2 & Hk & ->).
      exists t1. split; [exact Ht1 |]. rewrite Hk.
      apply in_map_iff. exists t2. split; [reflexivity |].
      apply filter_In. split; [exact Ht2 | apply String.eqb_refl]. }
  split.
  - intros c. rewrite in_map_iff. split.
    + intros (row & <- & Hin). apply Hrow in Hin.
      destruct Hin as (t1 & t2 & Ht1 & Ht2 & Hk & ->). simpl.
      split; [exact Ht1 |]. exists t2. split; assumption.
    + intros (Hc & r & Hr & Hk).
      eexists. split; [| apply Hrow; exists c, r; repeat split; eassumption].
      reflexivity.
  - intros row Hin. apply Hrow in Hin.
    destruct Hin as (t1 & t2 & Ht1 & Ht2 & Hk & ->). simpl.
    split; [exact Hk |]. destruct t2; exact Ht2.
Qed.

Lemma getAllComics_lists_comics_with_thumbnail_witness :
  fault Sample.after_cover_removed
    (List.length (log Sample.after_cover_removed)) = false /\
  ComicController.getAllComics 1024 Sample.after_cover_removed
  = (with_log Sample.after_cover_removed
       (log Sample.after_cover_removed ++ [Select TComic]), Ok []) /\
  ComicController.getAllComics 1024 Sample.after_create
  = (with_log Sample.after_create
       (log Sample.after_create ++ [Select TComic]),
     Ok [{| ComicController.listed := Sample.one_piece;
            ComicController.listed_thumbnail := "r1";
            ComicController.listed_thumbnailImg := "cover.png";
            ComicController.listed_tags := Some "t2,t1" |}]).
Proof.
  split; [reflexivity |].
  destruct (getAllComics_lists_comics_with_thumbnail 1024
              Sample.after_cover_removed eq_refl)
    as (rows & Hrun & Hlisted & _).
  split; [| reflexivity].
  rewrite Hrun. f_equal. f_equal.
  destruct rows as [| row rest]; [reflexivity |].
  destruct (proj1 (Hlisted (ComicController.listed row))
              (or_introl eq_refl)) as (_ & r & Hr & _).
  simpl in Hr. contradiction.
Defined.


(* --------------------------------------------------------------------- *)
(** ** Operations that only read *)
(* --------------------------------------------------------------------- *)

Lemma keeps_ret {A} (a : A) : Scenario.keeps_tables (ret a).
Proof. intros w. split; reflexivity. Qed.

Lemma keeps_throw {A} (e : Error) : Scenario.keeps_tables (@throw A e).
Proof. intros w. split; reflexivity. Qed.

Lemma keeps_bind {A B} (m : M A) (k : A -> M B) :
  Scenario.keeps_tables m ->
  (forall a, Scenario.keeps_tables (k a)) ->
  Scenario.keeps_tables (bind m k).
Proof.
  intros Hm Hk w. unfold bind. specialize (Hm w).
  destruct (m w) as [w1 [a | e]]; simpl in *.
  - destruct (Hk a w1) as [H1 H2]. destruct Hm as [H3 H4].
    split; congruence.
  - exact Hm.
Qed.

Lemma keeps_deref {A} (o : option A) : Scenario.keeps_tables (deref o).
Proof. destruct o; [apply keeps_ret | apply keeps_throw]. Qed.

(** A statement whose run hands the tables back as it got them. *)
Lemma keeps_select {A} (s : Statement) (run : Database -> Database * A) :
  (forall d, fst (run d) = d) ->
  Scenario.keeps_tables (query s run).
Proof.
  intros Hrun w. unfold query.
  destruct (fault w (List.length (log w))); [split; reflexivity |].
  specialize (Hrun (db w)). destruct (run (db w)) as [d a].
  simpl in *. subst d. split; reflexivity.
Qed.

Lemma keeps_refused {A} (s : Statement) :
  Scenario.keeps_tables (@ComicChapterController.refused A s).
Proof. intros w. split; reflexivity. Qed.

(** [getComic], [hasComic], [searchComic], [getChapter] and
    [getChaptersFromComic] only read: whatever the id, whether they return
    or throw, the committed tables and the open transaction are the ones
    they started from. *)
Theorem read_operations_keep_tables
  (charMap : ascii -> option string)
  (numbers : ComicChapterController.Numbers) (op : IdOperation.t)
  (id : string) :
  Scenario.read_only op = true ->
  Scenario.keeps_tables (IdOperation.call charMap numbers op id).
Proof.
  intros Hop. destruct op; simpl in Hop; try discriminate; simpl;
    unfold IdOperation.discard.
  - apply keeps_bind; [| intros; apply keeps_ret].
    unfold ComicController.getComic.
    destruct (Validator.bad_id id); [apply keeps_throw |].
    apply keeps_bind; [apply keeps_select; reflexivity | intros comic].
    apply keeps_bind; [apply keeps_deref | intros row].
    apply keeps_bind; [apply keeps_select; reflexivity | intros info].
    apply keeps_bind; [apply keeps_select; reflexivity | intros tags].
    apply keeps_bind; [apply keeps_deref | intros; apply keeps_ret].
  - apply keeps_bind; [| intros; apply keeps_ret].
    unfold ComicController.hasComic.
    destruct (Validator.bad_id id); [apply keeps_throw |].
    apply keeps_bind; [apply keeps_select; reflexivity |].
    intros; apply keeps_ret.
  - apply keeps_bind; [| intros; apply keeps_ret].
    unfold ComicController.searchComic.
    apply keeps_bind; [intros w; split; reflexivity | intros k].
    apply keeps_select. reflexivity.
  - apply keeps_bind; [| intros; apply keeps_ret].
    unfold ComicChapterController.getChapter.
    destruct (Validator.bad_id id); [apply keeps_throw |].
    apply keeps_select. reflexivity.
  - apply keeps_bind; [| intros; apply keeps_ret].
    unfold ComicChapterController.getChaptersFromComic.
    destruct (Validator.bad_id id); [apply keeps_throw |].
    unfold ComicChapterController.run_query.
    destruct (Z.ltb _ 0); [apply keeps_throw |].
    destruct (ComicChapterController.column_leb _);
      [| apply keeps_refused].
    destruct (Z.ltb _ 0); [apply keeps_refused |].
    apply keeps_select. reflexivity.
Qed.

Lemma read_operations_keep_tables_witness :
  Scenario.read_only IdOperation.getComic = true /\
  db (fst (IdOperation.call Slugify.charMap_ascii Sample.numbers
             IdOperation.getComic (Sample.uuid_values 0)
             Sample.after_cover_removed))
  = db Sample.after_cover_removed.
Proof.
  split; [reflexivity |].
  exact (proj1 (read_operations_keep_tables Slugify.charMap_ascii
                  Sample.numbers IdOperation.getComic
                  (Sample.uuid_values 0) eq_refl
                  Sample.after_cover_removed)).
Defined.

(* --------------------------------------------------------------------- *)
(** ** Chapters *)
(* --------------------------------------------------------------------- *)

(** [createChapter] checks its arguments in a fixed order and stops at the
    first that fails, before it draws an id or sends anything: an empty
    name, comic id or poster gives [Missing parameters]; then a comic id
    that is no UUID gives [Comic id must be a uuid]; then a poster that is
    no UUID gives [Posted by must be a uuid]. *)
Theorem createChapter_rejections
  (name comicId postedBy : string) (viewType : Z) (w : World) :
  (name = "" \/ comicId = "" \/ postedBy = "" ->
   ComicChapterController.createChapter name comicId postedBy viewType w
   = (w, Throw (JsError "Missing parameters"))) /\
  (name <> "" -> postedBy <> "" -> comicId <> "" ->
   Validator.isUUID comicId = false ->
   ComicChapterController.createChapter name comicId postedBy viewType w
   = (w, Throw (JsError "Comic id must be a uuid"))) /\
  (name <> "" -> postedBy <> "" ->
   Validator.isUUID comicId = true ->
   Validator.isUUID postedBy = false ->
   ComicChapterController.createChapter name comicId postedBy viewType w
   = (w, Throw (JsError "Posted by must be a uuid"))).
Proof.
  unfold ComicChapterController.createChapter.
  split; [| split].
  - intros [-> | [-> | ->]]; simpl;
      rewrite ?orb_true_r; reflexivity.
  - intros Hn Hp Hc Hu.
    destruct name; [contradiction |]. destruct comicId; [contradiction |].
    destruct postedBy; [contradiction |].
    simpl JsString.falsy. simpl orb. cbv iota. rewrite Hu. reflexivity.
  - intros Hn Hp Hc Hu.
    destruct name; [contradiction |]. destruct postedBy; [contradiction |].
    rewrite (isUUID_not_falsy _ Hc). simpl JsString.falsy. simpl orb.
    cbv iota. rewrite Hc, Hu. reflexivity.
Qed.

Lemma createChapter_rejections_witness :
  ComicChapterController.createChapter "Chapter 1" "one-piece"
    (Sample.uuid_values 1) 1 (Sample.world Sample.chapters)
  = (Sample.world Sample.chapters, Throw (JsError "Comic id must be a uuid"))
  /\
  ComicChapterController.createChapter "Chapter 1" (Sample.uuid_values 0)
    "ann" 1 (Sample.world Sample.chapters)
  = (Sample.world Sample.chapters,
     Throw (JsError "Posted by must be a uuid")).
Proof.
  destruct (createChapter_rejections "Chapter 1" "one-piece"
              (Sample.uuid_values 1) 1 (Sample.world Sample.chapters))
    as (_ & H2 & _).
  destruct (createChapter_rejections "Chapter 1" (Sample.uuid_values 0)
              "ann" 1 (Sample.world Sample.chapters))
    as (_ & _ & H3).
  split.
  - apply H2; [discriminate | discriminate | discriminate | reflexivity].
  - apply H3; [discriminate | discriminate | reflexivity | reflexivity].
Defined.

Lemma where_chapter_new (c : ComicChapterInterface.t)
  (l : list ComicChapterInterface.t) :
  (forall x, In x l ->
             ComicChapterInterface.id x <> ComicChapterInterface.id c) ->
  List.filter
    (fun x => String.eqb (ComicChapterInterface.id x)
                (ComicChapterInterface.id c))
    (l ++ [c]) = [c].
Proof.
  intros H. rewrite filter_app. simpl. rewrite String.eqb_refl.
  rewrite (filter_none _ _
             (fun x Hx => proj2 (String.eqb_neq _ _) (H x Hx))).
  reflexivity.
Qed.

(** A chapter [createChapter] accepts is stored with length 0 and can be
    read back: with a name, a comic id and a poster that pass the checks,
    a fresh id and the statements going through, [createChapter] appends
    one row made of its arguments and [getChapter] on the new id returns
    that row. Nothing asks that the comic or the poster exist. *)
Theorem createChapter_then_getChapter
  (name comicId postedBy : string) (viewType : Z) (w : World) :
  name <> "" ->
  Validator.isUUID comicId = true ->
  Validator.isUUID postedBy = true ->
  Validator.isUUID (uuids w (uuid_next w)) = true ->
  (forall x, In x (comic_chapters (db w)) ->
             ComicChapterInterface.id x <> uuids w (uuid_next w)) ->
  Scenario.no_fault_from w (List.length (log w)) 2 ->
  exists w1 c w2,
    ComicChapterController.createChapter name comicId postedBy viewType w
    = (w1, Ok c) /\
    comic_chapters (db w1) = comic_chapters (db w) ++ [c] /\
    c = {| ComicChapterInterface.id := uuids w (uuid_next w);
           ComicChapterInterface.name := name;
           ComicChapterInterface.comicId := comicId;
           ComicChapterInterface.postedBy := postedBy;
           ComicChapterInterface.viewType := viewType;
           ComicChapterInterface.createdAt := clock w;
           ComicChapterInterface.updatedAt := clock w;
           ComicChapterInterface.length := 0%Z |} /\
    ComicChapterController.getChapter (ComicChapterInterface.id c) w1
    = (w2, Ok (Some c)).
Proof.
  intros Hname Hcomic Hposter Hid Hfresh Hf.
  assert (F0 : fault w (List.length (log w)) = false)
    by exact (no_fault_from_head w _ 1 Hf).
  assert (F1 : fault w (List.length (log w ++ [Insert TComicChapter]))
               = false)
    by (apply (no_fault_at w 2 _ 1 Hf); [reflexivity | lia]).
  unfold ComicChapterController.createChapter.
  destruct name as [| ch name]; [contradiction |].
  rewrite (isUUID_not_falsy _ Hcomic), (isUUID_not_falsy _ Hposter).
  simpl JsString.falsy. simpl orb. cbv iota. rewrite Hcomic, Hposter.
  simpl negb. cbv iota.
  unfold bind, uuid, new_Date, query, ret. simpl. rewrite F0.
  unfold ComicChapterController.insert_chapter. simpl.
  do 3 eexists. split; [reflexivity |]. split; [reflexivity |].
  split; [reflexivity |].
  unfold ComicChapterController.getChapter. cbn [ComicChapterInterface.id].
  rewrite (isUUID_good_id _ Hid). unfold query. simpl. rewrite F1.
  unfold ComicChapterController.select_chapter. simpl.
  pose proof (where_chapter_new
             {| ComicChapterInterface.id := uuids w (uuid_next w);
                ComicChapterInterface.name := String ch name;
                ComicChapterInterface.comicId := comicId;
                ComicChapterInterface.postedBy := postedBy;
                ComicChapterInterface.viewType := viewType;
                ComicChapterInterface.createdAt := clock w;
                ComicChapterInterface.updatedAt := clock w;
                ComicChapterInterface.length := 0%Z |}
             (comic_chapters (db w)) Hfresh) as Hnew.
  cbn [ComicChapterInterface.id] in Hnew. rewrite Hnew.
  reflexivity.
Qed.

Lemma createChapter_then_getChapter_witness :
  "Chapter 6" <> "" /\
  Scenario.no_fault_from (Sample.world Sample.chapters)
    (List.length (log (Sample.world Sample.chapters))) 2 /\
  exists w1 c w2,
    ComicChapterController.createChapter "Chapter 6" (Sample.uuid_values 1)
      (Sample.uuid_values 2) 1 (Sample.world Sample.chapters)
    = (w1, Ok c) /\
    comic_chapters (db w1)
    = comic_chapters (db (Sample.world Sample.chapters)) ++ [c] /\
    c = {| ComicChapterInterface.id := Sample.uuid_values 0;
           ComicChapterInterface.name := "Chapter 6";
           ComicChapterInterface.comicId := Sample.uuid_values 1;
           ComicChapterInterface.postedBy := Sample.uuid_values 2;
           ComicChapterInterface.viewType := 1;
           ComicChapterInterface.createdAt := 1650000000000%Z;
           ComicChapterInterface.updatedAt := 1650000000000%Z;
           ComicChapterInterface.length := 0%Z |} /\
    ComicChapterController.getChapter (ComicChapterInterface.id c) w1
    = (w2, Ok (Some c)).
Proof.
  assert (Hn : "Chapter 6" <> "") by discriminate.
  assert (Hf : Scenario.no_fault_from (Sample.world Sample.chapters)
                 (List.length (log (Sample.world Sample.chapters))) 2)
    by (intros i _; reflexivity).
  split; [exact Hn |]. split; [exact Hf |].
  apply (createChapter_then_getChapter "Chapter 6" (Sample.uuid_values 1)
           (Sample.uuid_values 2) 1 (Sample.world Sample.chapters) Hn
           eq_refl eq_refl eq_refl); [| exact Hf].
  intros x Hx. simpl in Hx.
  destruct Hx as [<- | [<- | [<- | [<- | [<- | []]]]]]; discriminate.
Defined.


Lemma first_filter_set_length (id : string) (length : Z)
  (l : list ComicChapterInterface.t) :
  first (List.filter
           (fun c => String.eqb (ComicChapterInterface.id c) id)
           (List.map (Scenario.set_length id length) l))
  = option_map (fun c => Scenario.with_length c length)
      (first (List.filter
                (fun c => String.eqb (ComicChapterInterface.id c) id) l)).
Proof.
  induction l as [| c l IH]; simpl; [reflexivity |].
  assert (Hid : ComicChapterInterface.id (Scenario.set_length id length c)
                = ComicChapterInterface.id c).
  { unfold Scenario.set_length.
    destruct (String.eqb (ComicChapterInterface.id c) id); reflexivity. }
  rewrite Hid.
  destruct (String.eqb (ComicChapterInterface.id c) id) eqn:E;
    [| exact IH].
  unfold Scenario.set_length at 1. rewrite E. reflexivity.
Qed.

(** [updateChapterLength] on a well-formed id sets the length of the rows
    of that id and touches no other row or column; [getChapter] on the id
    then returns the first of them with the new length. When no chapter
    has the id, the update still returns without error, changes nothing,
    and [getChapter] returns no row. Any number is taken as a length. *)
Theorem updateChapterLength_then_getChapter
  (chapterId : string) (length : Z) (w : World) :
  Validator.isUUID chapterId = true ->
  Scenario.no_fault_from w (List.length (log w)) 2 ->
  exists w1 w2,
    ComicChapterController.updateChapterLength chapterId length w
    = (w1, Ok tt) /\
    db w1 = set_comic_chapters (db w)
              (List.map (Scenario.set_length chapterId length)
                 (comic_chapters (db w))) /\
    ComicChapterController.getChapter chapterId w1
    = (w2, Ok (option_map (fun c => Scenario.with_length c length)
                 (snd (ComicChapterController.select_chapter chapterId
                         (db w))))).
Proof.
  intros Hid Hf.
  assert (F0 : fault w (List.length (log w)) = false)
    by exact (no_fault_from_head w _ 1 Hf).
  assert (F1 : fault w (List.length (log w ++ [Update TComicChapter]))
               = false)
    by (apply (no_fault_at w 2 _ 1 Hf); [reflexivity | lia]).
  unfold ComicChapterController.updateChapterLength,
    ComicChapterController.getChapter.
  rewrite (isUUID_good_id _ Hid), (query_ok _ _ _ F0).
  do 2 eexists. split; [reflexivity |]. split; [reflexivity |].
  unfold query. simpl. rewrite F1.
  unfold ComicChapterController.select_chapter. simpl.
  change (List.map _ (comic_chapters (db w)))
    with (List.map (Scenario.set_length chapterId length)
            (comic_chapters (db w))).
  rewrite first_filter_set_length. reflexivity.
Qed.

Lemma updateChapterLength_then_getChapter_witness :
  Validator.isUUID (Sample.uuid_values 2) = true /\
  Scenario.no_fault_from (Sample.world Sample.numbered_chapters)
    (List.length (log (Sample.world Sample.numbered_chapters))) 2 /\
  exists w1 w2,
    ComicChapterController.updateChapterLength (Sample.uuid_values 2) 24
      (Sample.world Sample.numbered_chapters) = (w1, Ok tt) /\
    ComicChapterController.getChapter (Sample.uuid_values 2) w1
    = (w2, Ok (Some (Scenario.with_length
                       (Sample.chapter (Sample.uuid_values 2) 20) 24))).
Proof.
  assert (Hf : Scenario.no_fault_from (Sample.world Sample.numbered_chapters)
                 (List.length
                    (log (Sample.world Sample.numbered_chapters))) 2)
    by (intros i _; reflexivity).
  split; [reflexivity |]. split; [exact Hf |].
  destruct (updateChapterLength_then_getChapter (Sample.uuid_values 2) 24
              (Sample.world Sample.numbered_chapters) eq_refl Hf)
    as (w1 & w2 & Hup & _ & Hget).
  exists w1, w2. split; [exact Hup | exact Hget].
Defined.

(* --------------------------------------------------------------------- *)
(** ** Pages of chapters *)
(* --------------------------------------------------------------------- *)

(** The chapters of a comic in the order a query asks for. *)
Lemma getChapters_rows
  (numbers : ComicChapterController.Numbers)
  (comicId : string) (filter : option ComicChapterController.Filter)
  (w w' : World) (rows : list ComicChapterInterface.t) :
  ComicChapterController.getChaptersFromComic numbers comicId filter w
  = (w', Ok rows) ->
  let q := ComicChapterController.build_query numbers comicId filter in
  exists leb,
    ComicChapterController.column_leb (ComicChapterController.q_column q)
    = Some leb /\
    rows = snd (ComicChapterController.select_chapters q leb (db w)) /\
    (0 <= ComicChapterController.q_limit q)%Z /\
    db w' = db w.
Proof.
  intros Hrun q. unfold ComicChapterController.getChaptersFromComic in Hrun.
  destruct (Validator.bad_id comicId); [discriminate |].
  unfold ComicChapterController.run_query in Hrun. fold q in Hrun.
  destruct (Z.ltb (ComicChapterController.q_offset q) 0); [discriminate |].
  destruct (ComicChapterController.column_leb
              (ComicChapterController.q_column q)) as [leb |];
    [| discriminate].
  exists leb. split; [reflexivity |].
  destruct (Z.ltb_spec (ComicChapterController.q_limit q) 0) as [| Hpos];
    [discriminate |].
  unfold query in Hrun.
  destruct (fault w (List.length (log w))); [discriminate |].
  simpl in Hrun. injection Hrun as <- <-.
  split; [reflexivity |]. split; [exact Hpos | reflexivity].
Qed.

Lemma In_skipn {A} (n : nat) (l : list A) (y : A) :
  In y (List.skipn n l) -> In y l.
Proof.
  revert l. induction n as [| n IH]; intros [| x l] H; simpl in H;
    try contradiction; [exact H |].
  right. apply IH. exact H.
Qed.

(** What [getChaptersFromComic] returns never holds more rows than the
    limit of the query, three when no filter is given; every row is a
    stored chapter of the comic asked for. *)
Theorem getChaptersFromComic_bounds
  (numbers : ComicChapterController.Numbers)
  (comicId : string) (filter : option ComicChapterController.Filter)
  (w w' : World) (rows : list ComicChapterInterface.t) :
  ComicChapterController.getChaptersFromComic numbers comicId filter w
  = (w', Ok rows) ->
  (Z.of_nat (List.length rows)
   <= ComicChapterController.q_limit
        (ComicChapterController.build_query numbers comicId filter))%Z /\
  (filter = None -> List.length rows <= 3) /\
  (forall row, In row rows ->
               In row (comic_chapters (db w)) /\
               ComicChapterInterface.comicId row = comicId).
Proof.
  intros Hrun.
  destruct (getChapters_rows _ _ _ _ _ _ Hrun)
    as (leb & _ & Hrows & Hpos & _).
  set (q := ComicChapterController.build_query numbers comicId filter) in *.
  assert (Hlen : List.length rows
                 <= Z.to_nat (ComicChapterController.q_limit q)).
  { rewrite Hrows. simpl. apply firstn_le_length. }
  split; [| split].
  - lia.
  - intros ->. exact Hlen.
  - intros row Hin. rewrite Hrows in Hin. simpl in Hin.
    apply In_firstn, In_skipn in Hin.
    apply (Permutation_in _
             (Permutation_sym (order_by_perm _ _ _))) in Hin.
    apply filter_In in Hin. destruct Hin as [H1 H2].
    split; [exact H1 | apply String.eqb_eq; exact H2].
Qed.

Lemma getChaptersFromComic_bounds_witness :
  ComicChapterController.getChaptersFromComic Sample.numbers
    (Sample.uuid_values 0) None (Sample.world Sample.chapters)
  = (with_log (Sample.world Sample.chapters) [Select TComicChapter],
     Ok [Sample.chapter "c1" 10; Sample.chapter "c2" 20;
         Sample.chapter "c3" 30]) /\
  List.length [Sample.chapter "c1" 10; Sample.chapter "c2" 20;
               Sample.chapter "c3" 30] <= 3.
Proof.
  assert (H : ComicChapterController.getChaptersFromComic Sample.numbers
                (Sample.uuid_values 0) None (Sample.world Sample.chapters)
              = (with_log (Sample.world Sample.chapters)
                   [Select TComicChapter],
                 Ok [Sample.chapter "c1" 10; Sample.chapter "c2" 20;
                     Sample.chapter "c3" 30])) by reflexivity.
  split; [exact H |].
  exact (proj1 (proj2 (getChaptersFromComic_bounds _ _ _ _ _ _ H)) eq_refl).
Defined.

(** Without a limit, or with the limit 0, the page is not used: whatever
    page is asked for, the query is the one of the first page, with limit
    3 and offset 0. *)
Theorem getChaptersFromComic_page_needs_limit
  (numbers : ComicChapterController.Numbers)
  (comicId : string) (limit : option Z) (page : option Z)
  (sortedBy : option string) (order : option ComicChapterController.Order)
  (w : World) :
  limit = None \/ limit = Some 0%Z ->
  let q :=
    ComicChapterController.build_query numbers comicId
      (Some {| ComicChapterController.limit := limit;
               ComicChapterController.page := page;
               ComicChapterController.sortedBy := sortedBy;
               ComicChapterController.order := order |}) in
  ComicChapterController.q_limit q = 3%Z /\
  ComicChapterController.q_offset q = 0%Z /\
  ComicChapterController.getChaptersFromComic numbers comicId
    (Some {| ComicChapterController.limit := limit;
             ComicChapterController.page := page;
             ComicChapterController.sortedBy := sortedBy;
             ComicChapterController.order := order |}) w
  = ComicChapterController.getChaptersFromComic numbers comicId
      (Some {| ComicChapterController.limit := None;
               ComicChapterController.page := None;
               ComicChapterController.sortedBy := sortedBy;
               ComicChapterController.order := order |}) w.
Proof.
  intros Hlimit q.
  assert (Hq : q = ComicChapterController.build_query numbers comicId
                     (Some {| ComicChapterController.limit := None;
                              ComicChapterController.page := None;
                              ComicChapterController.sortedBy := sortedBy;
                              ComicChapterController.order := order |})).
  { subst q. unfold ComicChapterController.build_query. simpl.
    destruct Hlimit as [-> | ->]; destruct page as [p |]; simpl;
      unfold ComicChapterController.multiply;
      rewrite ?Z.mul_0_r; reflexivity. }
  split; [rewrite Hq; reflexivity |]. split; [rewrite Hq; reflexivity |].
  unfold ComicChapterController.getChaptersFromComic. fold q.
  rewrite Hq. reflexivity.
Qed.

Lemma getChaptersFromComic_page_needs_limit_witness :
  snd (ComicChapterController.getChaptersFromComic Sample.numbers
         (Sample.uuid_values 0)
         (Some {| ComicChapterController.limit := None;
                  ComicChapterController.page := Some 7%Z;
                  ComicChapterController.sortedBy := None;
                  ComicChapterController.order := None |})
         (Sample.world Sample.chapters))
  = Ok [Sample.chapter "c1" 10; Sample.chapter "c2" 20;
        Sample.chapter "c3" 30].
Proof.
  destruct (getChaptersFromComic_page_needs_limit Sample.numbers
              (Sample.uuid_values 0)
              None (Some 7%Z) None None (Sample.world Sample.chapters)
              (or_introl eq_refl)) as (_ & _ & H).
  rewrite H. reflexivity.
Defined.


Lemma firstn_plus {A} (n m : nat) (l : list A) :
  List.firstn (n + m) l = List.firstn n l ++ List.firstn m (List.skipn n l).
Proof.
  revert l. induction n as [| n IH]; intros l; simpl; [reflexivity |].
  destruct l as [| x l]; simpl.
  - rewrite firstn_nil. reflexivity.
  - rewrite IH. reflexivity.
Qed.

(** One page of [limit] chapters, when the query goes through. *)
Lemma getChaptersFromComic_page
  (numbers : ComicChapterController.Numbers)
  (comicId : string) (limit : Z) (page : nat)
  (sortedBy : option string) (order : option ComicChapterController.Order)
  (leb : ComicChapterInterface.t -> ComicChapterInterface.t -> bool)
  (w : World) :
  Validator.isUUID comicId = true ->
  (0 < limit <= ComicChapterController.MAX_SAFE_INTEGER)%Z ->
  (Z.of_nat page * limit <= ComicChapterController.MAX_SAFE_INTEGER)%Z ->
  ComicChapterController.column_leb
    (ComicChapterController.string_or sortedBy "createdAt") = Some leb ->
  fault w (List.length (log w)) = false ->
  ComicChapterController.getChaptersFromComic numbers comicId
    (Some {| ComicChapterController.limit := Some limit;
             ComicChapterController.page := Some (Z.of_nat page);
             ComicChapterController.sortedBy := sortedBy;
             ComicChapterController.order := order |}) w
  = (with_log w (log w ++ [Select TComicChapter]),
     Ok (List.firstn (Z.to_nat limit)
           (List.skipn (page * Z.to_nat limit)
              (ComicChapterController.order_by
                 (ComicChapterController.directed
                    (ComicChapterController.order_or order
                       ComicChapterController.asc) leb)
                 (List.filter
                    (fun c => String.eqb (ComicChapterInterface.comicId c)
                                comicId)
                    (comic_chapters (db w))))))).
Proof.
  intros Hid Hlimit Hpage Hcol Hf.
  assert (HL : (0 <= limit <= ComicChapterController.MAX_SAFE_INTEGER)%Z)
    by lia.
  assert (HPL : (0 <= Z.of_nat page * limit
                 <= ComicChapterController.MAX_SAFE_INTEGER)%Z)
    by (split; [nia | exact Hpage]).
  destruct (build_query_safe numbers comicId limit (Z.of_nat page) sortedBy
              order HL HPL) as [Hlim Hoff].
  replace (if Z.eqb limit 0 then 3%Z else limit) with limit in Hlim
    by (destruct (Z.eqb_spec limit 0); [lia | reflexivity]).
  unfold ComicChapterController.getChaptersFromComic.
  rewrite (isUUID_good_id _ Hid).
  set (q := ComicChapterController.build_query numbers comicId _) in *.
  unfold ComicChapterController.run_query.
  change (ComicChapterController.q_column q)
    with (ComicChapterController.string_or sortedBy "createdAt").
  rewrite Hcol, Hoff, Hlim.
  replace (limit <? 0)%Z with false by (symmetry; apply Z.ltb_ge; lia).
  replace (Z.of_nat page * limit <? 0)%Z with false
    by (symmetry; apply Z.ltb_ge; lia).
  rewrite (query_ok _ _ _ Hf).
  unfold ComicChapterController.select_chapters.
  cbn [fst snd]. rewrite with_db_same, Hoff, Hlim.
  replace (Z.to_nat (Z.of_nat page * limit)) with (page * Z.to_nat limit)
    by (rewrite Z2Nat.inj_mul by lia; rewrite Nat2Z.id; reflexivity).
  reflexivity.
Qed.

Lemma read_pages_from
  (numbers : ComicChapterController.Numbers)
  (comicId : string) (limit : Z)
  (sortedBy : option string) (order : option ComicChapterController.Order)
  (leb : ComicChapterInterface.t -> ComicChapterInterface.t -> bool)
  (k : nat) :
  Validator.isUUID comicId = true ->
  (0 < limit)%Z ->
  ComicChapterController.column_leb
    (ComicChapterController.string_or sortedBy "createdAt") = Some leb ->
  forall (start : nat) (w : World),
    (Z.of_nat (start + k) * limit
     <= ComicChapterController.MAX_SAFE_INTEGER)%Z ->
    Scenario.no_fault_from w (List.length (log w)) k ->
    exists w',
      Scenario.read_pages numbers comicId limit sortedBy order start k w
      = (w',
         Ok (List.firstn (k * Z.to_nat limit)
               (List.skipn (start * Z.to_nat limit)
                  (ComicChapterController.order_by
                     (ComicChapterController.directed
                        (ComicChapterController.order_or order
                           ComicChapterController.asc) leb)
                     (List.filter
                        (fun c =>
                           String.eqb (ComicChapterInterface.comicId c)
                             comicId)
                        (comic_chapters (db w))))))) /\
      db w' = db w.
Proof.
  intros Hid Hlimit Hcol.
  induction k as [| k IH]; intros start w Hsafe Hf.
  - exists w. split; reflexivity.
  - assert (H1 : (0 < limit <= ComicChapterController.MAX_SAFE_INTEGER)%Z)
      by nia.
    assert (H2 : (Z.of_nat start * limit
                  <= ComicChapterController.MAX_SAFE_INTEGER)%Z) by nia.
    pose proof (getChaptersFromComic_page numbers comicId limit start
                  sortedBy order leb w Hid H1 H2 Hcol
                  (no_fault_from_head _ _ _ Hf))
      as Hpage.
    set (w1 := with_log w (log w ++ [Select TComicChapter])) in *.
    destruct (IH (S start) w1) as (w' & Hrest & Hdb).
    { replace (S start + k) with (start + S k) by lia. exact Hsafe. }
    { simpl. rewrite length_app. simpl. rewrite Nat.add_1_r.
      apply no_fault_from_tail. exact Hf. }
    exists w'. split; [| rewrite Hdb; reflexivity].
    cbn [Scenario.read_pages].
    rewrite (bind_ok _ _ _ _ _ Hpage), (bind_ok _ _ _ _ _ Hrest).
    unfold ret. f_equal. f_equal.
    change (db w1) with (db w).
    change (S k * Z.to_nat limit) with (Z.to_nat limit + k * Z.to_nat limit).
    rewrite firstn_plus, skipn_skipn. reflexivity.
Qed.

Lemma numeric_column_leb (column : string)
  (key : ComicChapterInterface.t -> Z) :
  Scenario.numeric_column column = Some key ->
  ComicChapterController.column_leb column
  = Some (fun a b => Z.leb (key a) (key b)).
Proof.
  unfold Scenario.numeric_column, ComicChapterController.column_leb.
  destruct (String.eqb column "createdAt");
    [intros H; injection H as <-; reflexivity |].
  destruct (String.eqb column "updatedAt");
    [intros H; injection H as <-; reflexivity |].
  destruct (String.eqb column "length");
    [intros H; injection H as <-; reflexivity |].
  destruct (String.eqb column "viewType");
    [intros H; injection H as <-; reflexivity | discriminate].
Qed.

Lemma StronglySorted_impl {A} (R S : A -> A -> Prop) (l : list A) :
  (forall a b, R a b -> S a b) ->
  StronglySorted R l -> StronglySorted S l.
Proof.
  intros H. induction 1 as [| x l _ IH Hx]; constructor; [exact IH |].
  eapply Forall_impl; [| exact Hx]. intros y. apply H.
Qed.

(** [ORDER BY] on a numeric column gives the rows in the direction asked
    for. *)
Lemma order_by_in_order (o : ComicChapterController.Order)
  (key : ComicChapterInterface.t -> Z) (l : list ComicChapterInterface.t) :
  StronglySorted (Scenario.in_order o key)
    (ComicChapterController.order_by
       (ComicChapterController.directed o
          (fun a b => Z.leb (key a) (key b))) l).
Proof.
  destruct o; cbn [ComicChapterController.directed Scenario.in_order].
  - eapply StronglySorted_impl; [| apply order_by_sorted].
    + intros a b H. apply Z.leb_le. exact H.
    + intros a b. destruct (Z.leb_spec (key a) (key b));
        [left; reflexivity | right; apply Z.leb_le; lia].
    + intros a b c Hab Hbc. apply Z.leb_le.
      apply Z.leb_le in Hab, Hbc. lia.
  - eapply StronglySorted_impl; [| apply order_by_sorted].
    + intros a b H. apply Z.leb_le. exact H.
    + intros a b. destruct (Z.leb_spec (key b) (key a));
        [left; reflexivity | right; apply Z.leb_le; lia].
    + intros a b c Hab Hbc. apply Z.leb_le.
      apply Z.leb_le in Hab, Hbc. lia.
Qed.

(** Rows on which the order has no tie can be sorted in one way only. *)
Lemma sorted_permutation_unique {A} (R : A -> A -> Prop) (l1 l2 : list A) :
  (forall a b, In a l1 -> In b l1 -> R a b -> R b a -> a = b) ->
  StronglySorted R l1 ->
  StronglySorted R l2 ->
  Permutation l1 l2 ->
  l1 = l2.
Proof.
  revert l2. induction l1 as [| x l1 IH]; intros l2 Hanti H1 H2 Hperm.
  - apply Permutation_nil in Hperm. symmetry. exact Hperm.
  - destruct l2 as [| y l2].
    { apply Permutation_sym, Permutation_nil in Hperm. discriminate. }
    apply StronglySorted_inv in H1. destruct H1 as [H1 Hx].
    apply StronglySorted_inv in H2. destruct H2 as [H2 Hy].
    rewrite Forall_forall in Hx, Hy.
    assert (Hxy : x = y).
    { assert (Hin_x : In x (y :: l2))
        by (apply (Permutation_in _ Hperm); left; reflexivity).
      assert (Hin_y : In y (x :: l1))
        by (apply (Permutation_in _ (Permutation_sym Hperm)); left;
            reflexivity).
      destruct Hin_x as [E | Hin_x]; [symmetry; exact E |].
      destruct Hin_y as [E | Hin_y]; [exact E |].
      apply Hanti.
      - left; reflexivity.
      - right; exact Hin_y.
      - apply Hx. exact Hin_y.
      - apply Hy. exact Hin_x. }
    subst y. f_equal. apply IH.
    + intros a b Ha Hb. apply Hanti; right; assumption.
    + exact H1.
    + exact H2.
    + exact (Permutation_cons_inv Hperm).
Qed.

(** Pages count from zero and tile the list. Take a sort by a numeric
    column on which no two chapters of the comic tie, so that the order of
    the chapters is the same in every query, a limit above 0 and [k] pages
    with [k * limit] a safe integer. Reading the pages 0, 1, ..., [k - 1]
    one after the other and putting them end to end gives the first
    [k * limit] chapters of the comic in that order, each once; no chapter
    is skipped or repeated between two pages. *)
Theorem read_pages_tile
  (numbers : ComicChapterController.Numbers)
  (comicId : string) (limit : Z)
  (sortedBy : option string) (order : option ComicChapterController.Order)
  (key : ComicChapterInterface.t -> Z)
  (k : nat) (w : World) (sorted : list ComicChapterInterface.t) :
  Validator.isUUID comicId = true ->
  (0 < limit)%Z ->
  (Z.of_nat k * limit <= ComicChapterController.MAX_SAFE_INTEGER)%Z ->
  Scenario.numeric_column
    (ComicChapterController.string_or sortedBy "createdAt") = Some key ->
  let chapters :=
    List.filter
      (fun c => String.eqb (ComicChapterInterface.comicId c) comicId)
      (comic_chapters (db w)) in
  (forall a b, In a chapters -> In b chapters -> key a = key b -> a = b) ->
  Permutation chapters sorted ->
  StronglySorted
    (Scenario.in_order
       (ComicChapterController.order_or order ComicChapterController.asc)
       key) sorted ->
  Scenario.no_fault_from w (List.length (log w)) k ->
  exists w',
    Scenario.read_pages numbers comicId limit sortedBy order 0 k w
    = (w', Ok (List.firstn (k * Z.to_nat limit) sorted)) /\
    db w' = db w.
Proof.
  intros Hid Hlimit Hsafe Hkey chapters Hties Hperm Hsorted Hf.
  destruct (read_pages_from numbers comicId limit sortedBy order
              (fun a b => Z.leb (key a) (key b)) k Hid
              Hlimit (numeric_column_leb _ _ Hkey) 0 w Hsafe Hf)
    as (w' & Hrun & Hdb).
  exists w'. split; [| exact Hdb].
  rewrite Hrun. f_equal. f_equal. f_equal. cbn [List.skipn Nat.mul].
  fold chapters.
  apply (sorted_permutation_unique
           (Scenario.in_order
              (ComicChapterController.order_or order
                 ComicChapterController.asc) key)).
  - intros a b Ha Hb Hab Hba.
    apply Hties.
    + exact (Permutation_in _ (Permutation_sym (order_by_perm _ _ _)) Ha).
    + exact (Permutation_in _ (Permutation_sym (order_by_perm _ _ _)) Hb).
    + destruct (ComicChapterController.order_or order
                  ComicChapterController.asc);
        cbn [Scenario.in_order] in Hab, Hba; lia.
  - apply order_by_in_order.
  - exact Hsorted.
  - eapply Permutation_trans; [| exact Hperm].
    apply Permutation_sym, order_by_perm.
Qed.

Lemma read_pages_tile_witness :
  Validator.isUUID (Sample.uuid_values 0) = true /\
  (0 < 2)%Z /\
  (Z.of_nat 3 * 2 <= ComicChapterController.MAX_SAFE_INTEGER)%Z /\
  Scenario.no_fault_from (Sample.world Sample.chapters)
    (List.length (log (Sample.world Sample.chapters))) 3 /\
  exists w',
    Scenario.read_pages Sample.numbers (Sample.uuid_values 0) 2 None None
      0 3 (Sample.world Sample.chapters)
    = (w',
       Ok (List.firstn (3 * Z.to_nat 2)
             [Sample.chapter "c1" 10; Sample.chapter "c2" 20;
              Sample.chapter "c3" 30; Sample.chapter "c4" 40;
              Sample.chapter "c5" 50])) /\
    db w' = db (Sample.world Sample.chapters).
Proof.
  assert (Hf : Scenario.no_fault_from (Sample.world Sample.chapters)
                 (List.length (log (Sample.world Sample.chapters))) 3)
    by (intros i _; reflexivity).
  assert (Hsafe : (Z.of_nat 3 * 2
                   <= ComicChapterController.MAX_SAFE_INTEGER)%Z)
    by (unfold ComicChapterController.MAX_SAFE_INTEGER; simpl; lia).
  split; [reflexivity |]. split; [lia |]. split; [exact Hsafe |].
  split; [exact Hf |].
  apply (read_pages_tile Sample.numbers (Sample.uuid_values 0) 2 None None
           ComicChapterInterface.createdAt 3 (Sample.world Sample.chapters)
           [Sample.chapter "c1" 10; Sample.chapter "c2" 20;
            Sample.chapter "c3" 30; Sample.chapter "c4" 40;
            Sample.chapter "c5" 50]
           eq_refl eq_refl Hsafe eq_refl).
  - intros a b Ha Hb. simpl in Ha, Hb.
    destruct Ha as [<- | [<- | [<- | [<- | [<- | []]]]]];
      destruct Hb as [<- | [<- | [<- | [<- | [<- | []]]]]];
      intros H; first [reflexivity | discriminate H].
  - exact (order_by_perm _
             (fun a b => Z.leb (ComicChapterInterface.createdAt a)
                           (ComicChapterInterface.createdAt b))
             (comic_chapters Sample.chapters)).
  - repeat constructor; simpl; lia.
  - exact Hf.
Defined.

(** Sorting by a numeric column ([createdAt], [updatedAt], [length],
    [viewType]) gives the rows in the direction asked for: rising values
    for [asc], which is also the default, and falling values for
    [desc]. *)
Theorem getChaptersFromComic_sorted
  (numbers : ComicChapterController.Numbers)
  (comicId : string) (filter : option ComicChapterController.Filter)
  (key : ComicChapterInterface.t -> Z)
  (w w' : World) (rows : list ComicChapterInterface.t) :
  let q := ComicChapterController.build_query numbers comicId filter in
  Scenario.numeric_column (ComicChapterController.q_column q) = Some key ->
  ComicChapterController.getChaptersFromComic numbers comicId filter w
  = (w', Ok rows) ->
  StronglySorted (Scenario.in_order (ComicChapterController.q_order q) key)
    rows.
Proof.
  intros q Hkey Hrun.
  destruct (getChapters_rows _ _ _ _ _ _ Hrun)
    as (leb & Hcol & Hrows & _ & _).
  fold q in Hcol, Hrows.
  rewrite (numeric_column_leb _ _ Hkey) in Hcol. injection Hcol as <-.
  rewrite Hrows. unfold ComicChapterController.select_chapters. cbn [snd].
  apply StronglySorted_firstn, StronglySorted_skipn.
  apply order_by_in_order.
Qed.

Lemma getChaptersFromComic_sorted_witness :
  Scenario.numeric_column
    (ComicChapterController.q_column
       (ComicChapterController.build_query Sample.numbers
          (Sample.uuid_values 0)
          (Some {| ComicChapterController.limit := Some 2%Z;
                   ComicChapterController.page := None;
                   ComicChapterController.sortedBy := Some "createdAt";
                   ComicChapterController.order :=
                     Some ComicChapterController.desc |})))
  = Some ComicChapterInterface.createdAt /\
  ComicChapterController.getChaptersFromComic Sample.numbers
    (Sample.uuid_values 0)
    (Some {| ComicChapterController.limit := Some 2%Z;
             ComicChapterController.page := None;
             ComicChapterController.sortedBy := Some "createdAt";
             ComicChapterController.order :=
               Some ComicChapterController.desc |})
    (Sample.world Sample.chapters)
  = (with_log (Sample.world Sample.chapters) [Select TComicChapter],
     Ok [Sample.chapter "c5" 50; Sample.chapter "c4" 40]) /\
  StronglySorted
    (Scenario.in_order ComicChapterController.desc
       ComicChapterInterface.createdAt)
    [Sample.chapter "c5" 50; Sample.chapter "c4" 40].
Proof.
  split; [reflexivity |]. split; [reflexivity |].
  exact (getChaptersFromComic_sorted Sample.numbers (Sample.uuid_values 0)
           (Some {| ComicChapterController.limit := Some 2%Z;
                    ComicChapterController.page := None;
                    ComicChapterController.sortedBy := Some "createdAt";
                    ComicChapterController.order :=
                      Some ComicChapterController.desc |})
           ComicChapterInterface.createdAt
           (Sample.world Sample.chapters)
           (with_log (Sample.world Sample.chapters) [Select TComicChapter])
           [Sample.chapter "c5" 50; Sample.chapter "c4" 40]
           eq_refl eq_refl).
Defined.


(* --------------------------------------------------------------------- *)
(** ** The checks of signup and signin *)
(* --------------------------------------------------------------------- *)

(** [signup] checks the body in a fixed order and answers with the first
    check that fails, status 400, before it sends anything: a missing or
    empty username, password, email or nickname gives
    [MissingRequiredFields]; then the nickname, the email and the
    introduction are validated, in that order. *)
Theorem signup_validation_order
  (isValidNickname : string -> bool)
  (isValidIntroduction : option string -> bool)
  (isEmail : string -> bool) (hashSync : string -> string)
  (req : UserRouter.Request) (w : World) :
  let b := UserRouter.body req in
  let present :=
    negb (JsString.falsy_opt (UserRouter.username b)
          || JsString.falsy_opt (UserRouter.password b)
          || JsString.falsy_opt (UserRouter.email b)
          || JsString.falsy_opt (UserRouter.nickname b)) in
  let rejected m :=
    (w, Ok (UserRouter.next {| UserRouter.message := UserRouter.Localized m;
                               UserRouter.status := 400 |})) in
  let run :=
    UserRouter.signup isValidNickname isValidIntroduction isEmail hashSync
      req w in
  (present = false -> run = rejected Locale.MissingRequiredFields) /\
  (present = true ->
   isValidNickname (UserRouter.or_empty (UserRouter.nickname b)) = false ->
   run = rejected Locale.InvalidNickname) /\
  (present = true ->
   isValidNickname (UserRouter.or_empty (UserRouter.nickname b)) = true ->
   isEmail (UserRouter.or_empty (UserRouter.email b)) = false ->
   run = rejected Locale.InvalidEmail) /\
  (present = true ->
   isValidNickname (UserRouter.or_empty (UserRouter.nickname b)) = true ->
   isEmail (UserRouter.or_empty (UserRouter.email b)) = true ->
   isValidIntroduction (UserRouter.introduction b) = false ->
   run = rejected Locale.InvalidIntroduction).
Proof.
  intros b present rejected run.
  subst run rejected present. unfold UserRouter.signup, try_catch. fold b.
  destruct (JsString.falsy_opt (UserRouter.username b)
            || JsString.falsy_opt (UserRouter.password b)
            || JsString.falsy_opt (UserRouter.email b)
            || JsString.falsy_opt (UserRouter.nickname b)); simpl negb.
  - split; [reflexivity |]. repeat split; discriminate.
  - split; [discriminate |].
    split; [intros _ ->; reflexivity |].
    split; [intros _ -> ->; reflexivity |].
    intros _ -> -> ->. reflexivity.
Qed.

Lemma signup_validation_order_witness :
  UserRouter.signup Sample.isValidNickname Sample.isValidIntroduction
    Sample.isEmail Sample.hashSync
    (Sample.anonymous
       (Sample.body_of (Some "bob") (Some "hunter2") (Some "bob-at-y.org")
          (Some "Bob") None))
    (Sample.world Sample.with_ann)
  = (Sample.world Sample.with_ann,
     Ok (UserRouter.next
           {| UserRouter.message := UserRouter.Localized Locale.InvalidEmail;
              UserRouter.status := 400 |})).
Proof.
  destruct (signup_validation_order Sample.isValidNickname
              Sample.isValidIntroduction Sample.isEmail Sample.hashSync
              (Sample.anonymous
                 (Sample.body_of (Some "bob") (Some "hunter2")
                    (Some "bob-at-y.org") (Some "Bob") None))
              (Sample.world Sample.with_ann))
    as (_ & _ & Hemail & _).
  exact (Hemail eq_refl eq_refl eq_refl).
Defined.

(** [signup] runs in a [try] block and [signin] does not. When the lookup
    of the username fails in the database, [signup] still answers, with
    the error [UnexpectedError] and status 500, while [signin] throws the
    error of the database and answers nothing. *)
Theorem lookup_failure_in_signup_and_signin
  (isValidNickname : string -> bool)
  (isValidIntroduction : option string -> bool)
  (isEmail : string -> bool) (hashSync : string -> string)
  (compareSync : string -> string -> bool)
  (req : UserRouter.Request) (w : World) :
  let b := UserRouter.body req in
  fault w (List.length (log w)) = true ->
  JsString.falsy_opt (UserRouter.username b) = false ->
  JsString.falsy_opt (UserRouter.password b) = false ->
  (JsString.falsy_opt (UserRouter.email b) = false ->
   JsString.falsy_opt (UserRouter.nickname b) = false ->
   isValidNickname (UserRouter.or_empty (UserRouter.nickname b)) = true ->
   isEmail (UserRouter.or_empty (UserRouter.email b)) = true ->
   isValidIntroduction (UserRouter.introduction b) = true ->
   UserRouter.signup isValidNickname isValidIntroduction isEmail hashSync
     req w
   = (with_log w (log w ++ [Select TUser]),
      Ok (UserRouter.next
            {| UserRouter.message := UserRouter.Literal "UnexpectedError";
               UserRouter.status := 500 |}))) /\
  UserRouter.signin compareSync req w
  = (with_log w (log w ++ [Select TUser]),
     Throw (DbError (List.length (log w)))).
Proof.
  intros b Hf Hu Hp. split.
  - intros He Hn Hnick Hemail Hintro.
    unfold UserRouter.signup, try_catch. fold b.
    rewrite Hu, Hp, He, Hn, Hnick, Hemail, Hintro.
    cbv beta iota delta [orb negb].
    unfold bind at 1. rewrite (hasUserByUsername_fault _ _ Hf).
    reflexivity.
  - unfold UserRouter.signin. fold b. rewrite Hu, Hp.
    cbv beta iota delta [orb].
    apply bind_throw. unfold UserController.getUserFromUsername.
    apply query_fault. exact Hf.
Qed.

Lemma lookup_failure_in_signup_and_signin_witness :
  fault (Sample.faulty_world 0 Sample.with_ann)
    (List.length (log (Sample.faulty_world 0 Sample.with_ann))) = true /\
  UserRouter.signup Sample.isValidNickname Sample.isValidIntroduction
    Sample.isEmail Sample.hashSync
    (Sample.anonymous
       (Sample.body_of (Some "bob") (Some "hunter2") (Some "bob@y.org")
          (Some "Bob") None))
    (Sample.faulty_world 0 Sample.with_ann)
  = (with_log (Sample.faulty_world 0 Sample.with_ann) [Select TUser],
     Ok (UserRouter.next
           {| UserRouter.message := UserRouter.Literal "UnexpectedError";
              UserRouter.status := 500 |})) /\
  UserRouter.signin Sample.compareSync
    (Sample.anonymous
       (Sample.body_of (Some "bob") (Some "hunter2") (Some "bob@y.org")
          (Some "Bob") None))
    (Sample.faulty_world 0 Sample.with_ann)
  = (with_log (Sample.faulty_world 0 Sample.with_ann) [Select TUser],
     Throw (DbError 0)).
Proof.
  destruct (lookup_failure_in_signup_and_signin Sample.isValidNickname
              Sample.isValidIntroduction Sample.isEmail Sample.hashSync
              Sample.compareSync
              (Sample.anonymous
                 (Sample.body_of (Some "bob") (Some "hunter2")
                    (Some "bob@y.org") (Some "Bob") None))
              (Sample.faulty_world 0 Sample.with_ann)
              eq_refl eq_refl eq_refl) as [Hup Hin].
  split; [reflexivity |].
  split; [exact (Hup eq_refl eq_refl eq_refl eq_refl eq_refl) | exact Hin].
Defined.

(** [signin] answers a body without a username or without a password with
    [MissingRequiredFields], status 400, and does not look any user up.
    With both, when the first user of that username is found and the
    password matches its hash, the answer is a token that carries the id
    of that user and the time of the call; only the lookup was sent. *)
Theorem signin_outcomes
  (compareSync : string -> string -> bool)
  (req : UserRouter.Request) (w : World) :
  let b := UserRouter.body req in
  (JsString.falsy_opt (UserRouter.username b) = true
   \/ JsString.falsy_opt (UserRouter.password b) = true ->
   UserRouter.signin compareSync req w
   = (w, Ok (UserRouter.next
               {| UserRouter.message :=
                    UserRouter.Localized Locale.MissingRequiredFields;
                  UserRouter.status := 400 |}))) /\
  (forall user,
      JsString.falsy_opt (UserRouter.username b) = false ->
      JsString.falsy_opt (UserRouter.password b) = false ->
      fault w (List.length (log w)) = false ->
      first (UserController.where_username
               (UserRouter.or_empty (UserRouter.username b)) (db w))
      = Some user ->
      compareSync (UserRouter.or_empty (UserRouter.password b))
        (UserInterface.password user) = true ->
      UserRouter.signin compareSync req w
      = (with_log w (log w ++ [Select TUser]),
         Ok (UserRouter.json 200
               (UserRouter.TokenBody
                  {| UserRouter.token_id := UserInterface.id user;
                     UserRouter.generatedAt := clock w |})))).
Proof.
  intros b. split.
  - intros H. unfold UserRouter.signin. fold b.
    destruct H as [-> | ->]; rewrite ?orb_true_r; reflexivity.
  - intros user Hu Hp Hf Hfound Hmatch.
    unfold UserRouter.signin, bind. fold b. rewrite Hu, Hp.
    cbv beta iota delta [orb].
    rewrite (getUserFromUsername_ok _ _ Hf), Hfound, Hmatch.
    reflexivity.
Qed.

Lemma signin_outcomes_witness :
  UserRouter.signin Sample.compareSync
    (Sample.anonymous (Sample.body_of (Some "ann") None None None None))
    (Sample.world Sample.with_ann)
  = (Sample.world Sample.with_ann,
     Ok (UserRouter.next
           {| UserRouter.message :=
                UserRouter.Localized Locale.MissingRequiredFields;
              UserRouter.status := 400 |})) /\
  UserRouter.signin Sample.compareSync
    (Sample.anonymous
       (Sample.body_of (Some "ann") (Some "p@ssW0rd") None None None))
    (Sample.world Sample.with_ann)
  = (with_log (Sample.world Sample.with_ann) [Select TUser],
     Ok (UserRouter.json 200 (UserRouter.TokenBody Sample.token))).
Proof.
  split.
  - exact (proj1 (signin_outcomes Sample.compareSync
                    (Sample.anonymous
                       (Sample.body_of (Some "ann") None None None None))
                    (Sample.world Sample.with_ann))
             (or_intror eq_refl)).
  - exact (proj2 (signin_outcomes Sample.compareSync
                    (Sample.anonymous
                       (Sample.body_of (Some "ann") (Some "p@ssW0rd")
                          None None None))
                    (Sample.world Sample.with_ann))
             Sample.ann eq_refl eq_refl eq_refl eq_refl eq_refl).
Defined.

(* --------------------------------------------------------------------- *)
(** ** The guards of the profile update *)
(* --------------------------------------------------------------------- *)

(** The first two guards of [PUT /profile]: a request without a token gets
    [NoTokenProvided] with status 400, even when a user is attached to it;
    a request with a token and no user gets [Unauthorized] with status
    401. Neither sends anything. *)
Theorem put_profile_token_then_user
  (isValidNickname : string -> bool)
  (isValidIntroduction : option string -> bool)
  (req : UserRouter.Request) (w : World) :
  (UserRouter.TokenRequest req = None ->
   UserRouter.put_profile isValidNickname isValidIntroduction req w
   = (w, Ok (UserRouter.next
               {| UserRouter.message :=
                    UserRouter.Localized Locale.NoTokenProvided;
                  UserRouter.status := 400 |}))) /\
  (UserRouter.TokenRequest req <> None ->
   UserRouter.UserRequest req = None ->
   UserRouter.put_profile isValidNickname isValidIntroduction req w
   = (w, Ok (UserRouter.next
               {| UserRouter.message :=
                    UserRouter.Localized Locale.Unauthorized;
                  UserRouter.status := 401 |}))).
Proof.
  unfold UserRouter.put_profile. split.
  - intros ->. reflexivity.
  - intros Ht ->. destruct (UserRouter.TokenRequest req);
      [reflexivity | contradiction].
Qed.

Lemma put_profile_token_then_user_witness :
  UserRouter.put_profile Sample.isValidNickname Sample.isValidIntroduction
    {| UserRouter.TokenRequest := None;
       UserRouter.UserRequest :=
         Some (Sample.user_of [PermissionInterface.USER_UPDATE_PROFILE]);
       UserRouter.body := Sample.body_of None None None (Some "Annie") None |}
    (Sample.world Sample.with_ann)
  = (Sample.world Sample.with_ann,
     Ok (UserRouter.next
           {| UserRouter.message :=
                UserRouter.Localized Locale.NoTokenProvided;
              UserRouter.status := 400 |})).
Proof.
  exact (proj1 (put_profile_token_then_user Sample.isValidNickname
                  Sample.isValidIntroduction
                  {| UserRouter.TokenRequest := None;
                     UserRouter.UserRequest :=
                       Some (Sample.user_of
                               [PermissionInterface.USER_UPDATE_PROFILE]);
                     UserRouter.body :=
                       Sample.body_of None None None (Some "Annie") None |}
                  (Sample.world Sample.with_ann)) eq_refl).
Defined.

(** [PUT /profile] validates before it persists: whatever the request,
    either the committed tables are left as they were, or the handler
    answered 204 after one update of the users table, and then the user
    holds [USER_UPDATE_PROFILE], a nickname that was sent is valid and an
    introduction that was sent is valid. *)
Theorem put_profile_writes_only_on_204
  (isValidNickname : string -> bool)
  (isValidIntroduction : option string -> bool)
  (req : UserRouter.Request) (w w' : World)
  (r : Result UserRouter.Response) :
  UserRouter.put_profile isValidNickname isValidIntroduction req w
  = (w', r) ->
  db w' = db w \/
  (r = Ok (UserRouter.end_ 204) /\
   log w' = log w ++ [Update TUser] /\
   (exists user,
       UserRouter.UserRequest req = Some user /\
       User.hasPermission user PermissionInterface.USER_UPDATE_PROFILE
       = true) /\
   (JsString.falsy_opt (UserRouter.nickname (UserRouter.body req)) = false ->
    isValidNickname
      (UserRouter.or_empty (UserRouter.nickname (UserRouter.body req)))
    = true) /\
   (JsString.falsy_opt (UserRouter.introduction (UserRouter.body req))
    = false ->
    isValidIntroduction (UserRouter.introduction (UserRouter.body req))
    = true)).
Proof.
  intros H. unfold UserRouter.put_profile in H.
  destruct (UserRouter.TokenRequest req);
    [| injection H as <- _; left; reflexivity].
  destruct (UserRouter.UserRequest req) as [user |];
    [| injection H as <- _; left; reflexivity].
  destruct (User.hasPermission user PermissionInterface.USER_UPDATE_PROFILE)
    eqn:Hp; simpl in H; [| injection H as <- _; left; reflexivity].
  destruct (JsString.falsy_opt (UserRouter.nickname (UserRouter.body req)))
    eqn:Hn;
    destruct (JsString.falsy_opt
                (UserRouter.introduction (UserRouter.body req))) eqn:Hi;
    simpl in H;
    try (injection H as <- _; left; reflexivity);
    repeat match type of H with
           | context [if negb ?c then _ else _] =>
               destruct c eqn:?; simpl in H;
               try (injection H as <- _; left; reflexivity)
           end.
  all: unfold bind, UserController.updateUserProfile, query in H.
  all: destruct (fault w (List.length (log w)));
    [injection H as <- _; left; reflexivity |].
  all: simpl in H; injection H as <- <-; right.
  all: split; [reflexivity |]. all: split; [reflexivity |].
  all: split; [exists user; split; [reflexivity | exact Hp] |].
  all: split; intros; first [assumption | congruence].
Qed.

Lemma put_profile_writes_only_on_204_witness :
  UserRouter.put_profile Sample.isValidNickname Sample.isValidIntroduction
    (Sample.authenticated
       (Sample.user_of [PermissionInterface.USER_UPDATE_PROFILE])
       (Sample.body_of None None None (Some "Annie") None))
    (Sample.world Sample.with_ann)
  = (Sample.after_rename, Ok (UserRouter.end_ 204)) /\
  db Sample.after_rename <> db (Sample.world Sample.with_ann) /\
  log Sample.after_rename
  = log (Sample.world Sample.with_ann) ++ [Update TUser] /\
  Sample.isValidNickname "Annie" = true.
Proof.
  assert (H : UserRouter.put_profile Sample.isValidNickname
                Sample.isValidIntroduction
                (Sample.authenticated
                   (Sample.user_of [PermissionInterface.USER_UPDATE_PROFILE])
                   (Sample.body_of None None None (Some "Annie") None))
                (Sample.world Sample.with_ann)
              = (Sample.after_rename, Ok (UserRouter.end_ 204)))
    by reflexivity.
  assert (Hne : db Sample.after_rename <> db (Sample.world Sample.with_ann)).
  { intros E. vm_compute in E. discriminate E. }
  split; [exact H |]. split; [exact Hne |].
  destruct (put_profile_writes_only_on_204 _ _ _ _ _ _ H)
    as [Hdb | (_ & Hlog & _ & Hnick & _)].
  - contradiction.
  - split; [exact Hlog | exact (Hnick eq_refl)].
Defined.


(** A new user can sign up once: for a body that passes the checks and a
    username no stored user has, the statements going through, [signup]
    answers 201 with the public fields of the new row, which is appended
    with the hash of the password and an empty introduction when none was
    sent; the same request sent again gets [UserAlreadyExists] with status
    400 and adds no row. *)
Theorem signup_then_duplicate
  (isValidNickname : string -> bool)
  (isValidIntroduction : option string -> bool)
  (isEmail : string -> bool) (hashSync : string -> string)
  (req : UserRouter.Request) (w : World) :
  let b := UserRouter.body req in
  let row :=
    {| UserInterface.id := uuids w (uuid_next w);
       UserInterface.username := UserRouter.or_empty (UserRouter.username b);
       UserInterface.password :=
         hashSync (UserRouter.or_empty (UserRouter.password b));
       UserInterface.email := UserRouter.or_empty (UserRouter.email b);
       UserInterface.nickname := UserRouter.or_empty (UserRouter.nickname b);
       UserInterface.introduction :=
         UserRouter.or_empty (UserRouter.introduction b) |} in
  JsString.falsy_opt (UserRouter.username b) = false ->
  JsString.falsy_opt (UserRouter.password b) = false ->
  JsString.falsy_opt (UserRouter.email b) = false ->
  JsString.falsy_opt (UserRouter.nickname b) = false ->
  isValidNickname (UserRouter.or_empty (UserRouter.nickname b)) = true ->
  isEmail (UserRouter.or_empty (UserRouter.email b)) = true ->
  isValidIntroduction (UserRouter.introduction b) = true ->
  (forall x, In x (users (db w)) ->
             UserInterface.username x
             <> UserRouter.or_empty (UserRouter.username b)) ->
  Scenario.no_fault_from w (List.length (log w)) 3 ->
  exists w1 w2,
    UserRouter.signup isValidNickname isValidIntroduction isEmail hashSync
      req w
    = (w1, Ok (UserRouter.json 201
                 (UserRouter.UserBody
                    {| UserRouter.created_id := UserInterface.id row;
                       UserRouter.created_username :=
                         UserInterface.username row;
                       UserRouter.created_email := UserInterface.email row;
                       UserRouter.created_nickname :=
                         UserInterface.nickname row;
                       UserRouter.created_introduction :=
                         UserInterface.introduction row |}))) /\
    users (db w1) = users (db w) ++ [row] /\
    UserRouter.signup isValidNickname isValidIntroduction isEmail hashSync
      req w1
    = (w2, Ok (UserRouter.next
                 {| UserRouter.message :=
                      UserRouter.Localized Locale.UserAlreadyExists;
                    UserRouter.status := 400 |})) /\
    users (db w2) = users (db w1).
Proof.
  intros b row Hu Hp He Hn Hnick Hemail Hintro Hfree Hf.
  assert (F0 : fault w (List.length (log w)) = false)
    by exact (no_fault_from_head w _ 2 Hf).
  assert (F1 : fault w (List.length (log w ++ [Select TUser])) = false)
    by (apply (no_fault_at w 3 _ 1 Hf); [reflexivity | lia]).
  assert (F2 : fault w (List.length ((log w ++ [Select TUser])
                                     ++ [Insert TUser])) = false).
  { rewrite <- app_assoc.
    apply (no_fault_at w 3 _ 2 Hf); [reflexivity | lia]. }
  set (w1 := {| db := set_users (db w) (users (db w) ++ [row]);
                trx := trx w;
                log := (log w ++ [Select TUser]) ++ [Insert TUser];
                fault := fault w; choice := choice w; uuids := uuids w;
                uuid_next := S (uuid_next w); clock := clock w |}).
  assert (Hfirst :
            UserRouter.signup isValidNickname isValidIntroduction isEmail
              hashSync req w
            = (w1, Ok (UserRouter.json 201
                         (UserRouter.UserBody
                            {| UserRouter.created_id := UserInterface.id row;
                               UserRouter.created_username :=
                                 UserInterface.username row;
                               UserRouter.created_email :=
                                 UserInterface.email row;
                               UserRouter.created_nickname :=
                                 UserInterface.nickname row;
                               UserRouter.created_introduction :=
                                 UserInterface.introduction row |})))).
  { unfold UserRouter.signup, try_catch. fold b.
    rewrite Hu, Hp, He, Hn, Hnick, Hemail, Hintro.
    cbv beta iota delta [orb negb].
    unfold bind at 1. rewrite (hasUserByUsername_ok _ _ F0).
    rewrite (where_username_absent _ _ Hfree). cbn [first hd_error].
    unfold UserController.createUser, uuid, query, ret, bind.
    simpl. rewrite F1. reflexivity. }
  assert (Hrow : In row (users (db w1))).
  { simpl. apply in_or_app. right. left. reflexivity. }
  destruct (where_username_present
              (UserRouter.or_empty (UserRouter.username b)) (db w1) row
              Hrow eq_refl) as (found & Hfound & _).
  exists w1. eexists. split; [exact Hfirst |]. split; [reflexivity |].
  assert (Hsecond :
            UserRouter.signup isValidNickname isValidIntroduction isEmail
              hashSync req w1
            = (with_log w1 (log w1 ++ [Select TUser]),
               Ok (UserRouter.next
                     {| UserRouter.message :=
                          UserRouter.Localized Locale.UserAlreadyExists;
                        UserRouter.status := 400 |}))).
  { unfold UserRouter.signup, try_catch. fold b.
    rewrite Hu, Hp, He, Hn, Hnick, Hemail, Hintro.
    cbv beta iota delta [orb negb].
    unfold bind at 1. rewrite (hasUserByUsername_ok _ w1 F2).
    rewrite Hfound. reflexivity. }
  split; [exact Hsecond | reflexivity].
Qed.

Lemma signup_then_duplicate_witness :
  Scenario.no_fault_from (Sample.world Sample.with_ann)
    (List.length (log (Sample.world Sample.with_ann))) 3 /\
  exists w1 w2,
    UserRouter.signup Sample.isValidNickname Sample.isValidIntroduction
      Sample.isEmail Sample.hashSync
      (Sample.anonymous
         (Sample.body_of (Some "bob") (Some "hunter2") (Some "bob@y.org")
            (Some "Bob") None))
      (Sample.world Sample.with_ann)
    = (w1, Ok (UserRouter.json 201
                 (UserRouter.UserBody
                    {| UserRouter.created_id := Sample.uuid_values 0;
                       UserRouter.created_username := "bob";
                       UserRouter.created_email := "bob@y.org";
                       UserRouter.created_nickname := "Bob";
                       UserRouter.created_introduction := "" |}))) /\
    List.map UserInterface.password (users (db w1))
    = [Sample.hashSync "p@ssW0rd"; Sample.hashSync "hunter2"] /\
    UserRouter.signup Sample.isValidNickname Sample.isValidIntroduction
      Sample.isEmail Sample.hashSync
      (Sample.anonymous
         (Sample.body_of (Some "bob") (Some "hunter2") (Some "bob@y.org")
            (Some "Bob") None))
      w1
    = (w2, Ok (UserRouter.next
                 {| UserRouter.message :=
                      UserRouter.Localized Locale.UserAlreadyExists;
                    UserRouter.status := 400 |})).
Proof.
  assert (Hf : Scenario.no_fault_from (Sample.world Sample.with_ann)
                 (List.length (log (Sample.world Sample.with_ann))) 3)
    by (intros i _; reflexivity).
  split; [exact Hf |].
  destruct (signup_then_duplicate Sample.isValidNickname
              Sample.isValidIntroduction Sample.isEmail Sample.hashSync
              (Sample.anonymous
                 (Sample.body_of (Some "bob") (Some "hunter2")
                    (Some "bob@y.org") (Some "Bob") None))
              (Sample.world Sample.with_ann)
              eq_refl eq_refl eq_refl eq_refl eq_refl eq_refl eq_refl)
    as (w1 & w2 & H1 & Husers & H2 & _); [| exact Hf |].
  - intros x [<- | []]. discriminate.
  - exists w1, w2. split; [exact H1 |]. split; [| exact H2].
    rewrite Husers. reflexivity.
Defined.

(* --------------------------------------------------------------------- *)
(** ** More on slugs and ids *)
(* --------------------------------------------------------------------- *)

Module SlugShape.
Import JsString.
Import Scenario (no_space, removed_or_space).

Lemma no_space_lower_char (c : ascii) :
  no_space (lower_char c) = no_space c.
Proof. destruct c as [[] [] [] [] [] [] [] []]; reflexivity. Qed.

Lemma no_space_toLowerCase (s : string) :
  all no_space (toLowerCase s) = all no_space s.
Proof.
  induction s as [| c s IH]; simpl; [reflexivity |].
  rewrite no_space_lower_char, IH. reflexivity.
Qed.

Lemma no_space_replace_spaces (rep : string) (s : string) :
  all no_space rep = true ->
  forall in_run, all no_space (replace_spaces rep in_run s) = true.
Proof.
  intros Hrep. induction s as [| c s IH]; simpl; intros in_run;
    [reflexivity |].
  destruct (is_space c) eqn:E.
  - destruct in_run; [apply IH |].
    rewrite SlugFacts.all_append, Hrep. apply IH.
  - simpl. unfold no_space at 1. rewrite E. apply IH.
Qed.

Lemma trimStart_blank (s : string) :
  all is_space s = true -> trimStart s = "".
Proof.
  induction s as [| c s IH]; simpl; intros H; [reflexivity |].
  apply andb_prop in H. destruct H as [Hc Hs]. rewrite Hc. apply IH.
  exact Hs.
Qed.

Lemma space_not_removed (c : ascii) :
  is_space c && Slugify.comic_remove c = false.
Proof. destruct c as [[] [] [] [] [] [] [] []]; reflexivity. Qed.

Lemma hyphen_kept_apart (c : ascii) :
  removed_or_space c = true ->
  String.eqb (String c "") "-" = false.
Proof.
  destruct c as [[] [] [] [] [] [] [] []]; vm_compute; intros H;
    first [reflexivity | discriminate H].
Qed.

Lemma reduce_blank (charMap : ascii -> option string) (name : string) :
  (forall c, removed_or_space c = true -> charMap c = None) ->
  all removed_or_space name = true ->
  all is_space (Slugify.reduce charMap Slugify.comic_options name) = true.
Proof.
  intros Hmap. induction name as [| c name IH]; simpl; intros H;
    [reflexivity |].
  apply andb_prop in H. destruct H as [Hc Hname].
  rewrite SlugFacts.all_append, (IH Hname), andb_true_r.
  unfold Slugify.append_char, Slugify.lookup. simpl.
  rewrite (Hmap c Hc), (hyphen_kept_apart c Hc). simpl.
  destruct (Slugify.comic_remove c) eqn:Er; simpl; [reflexivity |].
  unfold removed_or_space in Hc. rewrite Er in Hc. simpl in Hc.
  rewrite Hc. reflexivity.
Qed.

End SlugShape.

(** A slug never holds a blank: whatever the name and the character map,
    no code unit of the slug is a space, a tab, a line break or a
    no-break space. *)
Theorem slug_has_no_blank
  (charMap : ascii -> option string) (name : string) :
  JsString.all Scenario.no_space
    (Slugify.slugify charMap name Slugify.comic_options) = true.
Proof.
  unfold Slugify.slugify. simpl.
  rewrite SlugShape.no_space_toLowerCase.
  apply SlugShape.no_space_replace_spaces. reflexivity.
Qed.

(** The slug can be empty: a name made only of removed characters and
    blanks, none of which the character map rewrites, has the empty slug.
    Neither comic writer refuses such a name: with at least one tag and
    their statements going through, [createComic] stores and returns a
    comic whose slug is empty, and [updateComic] returns and leaves every
    row of the id with the empty slug. *)
Theorem slug_of_punctuation_is_empty
  (charMap : ascii -> option string) (name : string) :
  (forall c, Scenario.removed_or_space c = true -> charMap c = None) ->
  JsString.all Scenario.removed_or_space name = true ->
  Slugify.slugify charMap name Slugify.comic_options = "" /\
  (forall description postedBy author category tags thumbnail w,
      tags <> [] ->
      Scenario.no_fault_from w (List.length (log w)) 4 ->
      exists w' c,
        ComicController.createComic charMap name description postedBy
          author category (Some tags) thumbnail w = (w', Ok c) /\
        In c (comics (db w')) /\
        ComicInterface.slug c = "") /\
  (forall id description author category tags thumbnail w,
      Validator.isUUID id = true ->
      tags <> [] ->
      Scenario.no_fault_from w (List.length (log w)) 4 ->
      exists w',
        ComicController.updateComic charMap id name description author
          category (Some tags) thumbnail w = (w', Ok tt) /\
        forall c, In c (comics (db w')) ->
                  ComicInterface.id c = id ->
                  ComicInterface.name c = name /\
                  ComicInterface.slug c = "").
Proof.
  intros Hmap Hname.
  assert (Hslug : Slugify.slugify charMap name Slugify.comic_options = "").
  { unfold Slugify.slugify. simpl. unfold JsString.trim.
    rewrite (SlugShape.trimStart_blank _
               (SlugShape.reduce_blank charMap name Hmap Hname)).
    reflexivity. }
  split; [exact Hslug |]. split.
  - intros description postedBy author category tags thumbnail w Htags Hf.
    destruct (createComic_runs charMap name description postedBy author
                category tags thumbnail w Htags Hf) as (w' & c & Hrun).
    exists w', c. split; [exact Hrun |].
    destruct (createComic_ok _ _ _ _ _ _ _ _ _ _ _ Hrun)
      as (_ & _ & Hc & (l & _ & Hdb) & _).
    split; [| rewrite Hc; exact Hslug].
    rewrite Hdb. simpl. apply in_or_app. right. left. reflexivity.
  - intros id description author category tags thumbnail w Hid Htags Hf.
    destruct (updateComic_runs charMap id name description author category
                tags thumbnail w Hid Htags Hf) as (w' & Hrun).
    exists w'. split; [exact Hrun |].
    intros c Hc Hc_id.
    destruct (updateComic_rows_of_id _ _ _ _ _ _ _ _ _ _ c Hrun Hc Hc_id)
      as [Hn Hs].
    split; [exact Hn | rewrite Hs; exact Hslug].
Qed.

Lemma slug_of_punctuation_is_empty_witness :
  (forall c, Scenario.removed_or_space c = true ->
             Slugify.charMap_ascii c = None) /\
  JsString.all Scenario.removed_or_space "!?" = false /\
  JsString.all Scenario.removed_or_space " (!!) " = true /\
  Slugify.slugify Slugify.charMap_ascii " (!!) " Slugify.comic_options = "" /\
  exists w' c,
    ComicController.createComic Slugify.charMap_ascii " (!!) " "pirates"
      "u1" "Oda" "Comic" (Some ["t1"]) (Some "r1")
      (Sample.world Sample.library) = (w', Ok c) /\
    In c (comics (db w')) /\
    ComicInterface.slug c = "".
Proof.
  assert (Hmap : forall c, Scenario.removed_or_space c = true ->
                           Slugify.charMap_ascii c = None).
  { intros c. destruct c as [[] [] [] [] [] [] [] []]; vm_compute;
      intros H; first [reflexivity | discriminate H]. }
  assert (Htags : ["t1"] <> []) by discriminate.
  assert (Hf : Scenario.no_fault_from (Sample.world Sample.library)
                 (List.length (log (Sample.world Sample.library))) 4)
    by (intros i _; reflexivity).
  destruct (slug_of_punctuation_is_empty Slugify.charMap_ascii " (!!) " Hmap
              eq_refl) as (Hslug & Hcreate & _).
  split; [exact Hmap |]. split; [reflexivity |]. split; [reflexivity |].
  split; [exact Hslug |].
  exact (Hcreate "pirates" "u1" "Oda" "Comic" ["t1"] (Some "r1")
           (Sample.world Sample.library) Htags Hf).
Defined.

Lemma hex_run_length (n : nat) (s rest : string) :
  Validator.hex_run n s = Some rest ->
  String.length s = n + String.length rest.
Proof.
  revert s. induction n as [| n IH]; intros s H; simpl in H.
  - injection H as <-. reflexivity.
  - destruct s as [| c s]; [discriminate |].
    destruct (JsString.is_hex c); [| discriminate].
    simpl. rewrite (IH s H). reflexivity.
Qed.

Lemma dash_length (s rest : string) :
  Validator.dash s = Some rest ->
  String.length s = 1 + String.length rest.
Proof.
  destruct s as [| c s]; simpl; [discriminate |].
  destruct (Ascii.eqb c "-"); [| discriminate].
  intros H. injection H as <-. reflexivity.
Qed.

(** Every id the guards let through has 36 code units: eight, four, four,
    four and twelve hexadecimal digits with four hyphens between them, so
    an id with braces, with spaces around it or without hyphens is
    refused. *)
Theorem isUUID_length (id : string) :
  Validator.isUUID id = true -> String.length id = 36.
Proof.
  unfold Validator.isUUID, Validator.and_then. intros H.
  repeat match type of H with
         | context [match Validator.hex_run ?n ?s with _ => _ end] =>
             let E := fresh "E" in
             destruct (Validator.hex_run n s) eqn:E; [| discriminate H];
             apply hex_run_length in E
         | context [match Validator.dash ?s with _ => _ end] =>
             let E := fresh "E" in
             destruct (Validator.dash s) eqn:E; [| discriminate H];
             apply dash_length in E
         end.
  match type of H with
  | JsString.is_empty ?r = true => destruct r; [| discriminate H]
  end.
  simpl in *. lia.
Qed.

Lemma isUUID_length_witness :
  Validator.isUUID (Sample.uuid_values 0) = true /\
  String.length (Sample.uuid_values 0) = 36.
Proof.
  split; [reflexivity |].
  exact (isUUID_length (Sample.uuid_values 0) eq_refl).
Defined.
